(** * Corsi block-tapping task: a shallow embedding of [Final_Corsi_OOP.py]

    The program is a PyGame application.  Its classes [Participant],
    [Sequence] (with the member class [Box]) and [Application] are embedded
    as records with the source's field names; methods become functions that
    take the object and return the updated one.  Everything the methods read
    from the outside world is an explicit argument:

    - [random.randint] draws from a finite tape of raw random integers;
    - [time()] readings are arguments, one per call in the source;
    - pygame events are values of [event];
    - [print] and [draw_text] output is returned next to the new state.

    Python exceptions and a loop that does not finish are results of type
    [outcome]. *)

From Stdlib Require Import ZArith List String Ascii Bool Lia Floats Reals Lra.
From stdpp Require Import base list.
Import ListNotations.

Set Warnings "-inexact-float".

#[local] Open Scope Z_scope.

(** ** Results of running Python code *)

(** One row of [corsi.csv]: id, spans, mean, standard deviation. *)
Definition csv_row : Type := Z * list Z * float * float.

Inductive exn : Type :=
| ValueError
| IndexError
| TypeError
| AttributeError
| ZeroDivisionError
| OverflowError
| SystemExit (written : option csv_row).

Inductive outcome (A : Type) : Type :=
| Ok (a : A)
| Raise (e : exn)
| Hang.

Arguments Ok {A} a.
Arguments Raise {A} e.
Arguments Hang {A}.

Definition obind {A B : Type} (m : outcome A) (k : A -> outcome B) : outcome B :=
  match m with
  | Ok a => k a
  | Raise e => Raise e
  | Hang => Hang
  end.

(** Code that consumes randomness: the tape of raw draws is threaded. *)
Definition Rand (A : Type) : Type := list Z -> outcome (A * list Z).

Definition rret {A : Type} (a : A) : Rand A := fun rng => Ok (a, rng).

Definition rbind {A B : Type} (m : Rand A) (k : A -> Rand B) : Rand B :=
  fun rng =>
    match m rng with
    | Ok (a, rng') => k a rng'
    | Raise e => Raise e
    | Hang => Hang
    end.

Definition rlift {A : Type} (m : outcome A) : Rand A :=
  fun rng => obind m (fun a => Ok (a, rng)).

Declare Scope py_scope.
Delimit Scope py_scope with py.
Notation "'try' x <- m ; k" := (obind m (fun x => k))
  (at level 10, x name, m at level 100, k at level 200) : py_scope.
Notation "'draw' x <- m ; k" := (rbind m (fun x => k))
  (at level 10, x name, m at level 100, k at level 200) : py_scope.
#[local] Open Scope py_scope.

(** ** Python built-ins used by the program *)

(** [l[i]] on a list of [n] elements: the position that is read, counting
    from the end for a negative [i]; [None] is [IndexError]. *)
Definition py_index (n : nat) (i : Z) : option nat :=
  if (0 <=? i) && (i <? Z.of_nat n) then Some (Z.to_nat i)
  else if (- Z.of_nat n <=? i) && (i <? 0) then Some (Z.to_nat (Z.of_nat n + i))
  else None.

(** [random.randint(a, b)]: [ValueError] on an empty range, otherwise the
    next raw draw reduced into [a..b]. *)
Definition randint (a b : Z) : Rand Z :=
  fun rng =>
    if b <? a then Raise ValueError
    else match rng with
         | [] => Hang
         | r :: rng' => Ok (a + r mod (b - a + 1), rng')
         end.

(** An [int] as a [float], as Python converts it in mixed arithmetic.  The
    conversion is the source's for magnitudes below [2 ^ 53], where every
    int is a double: the counts, spans and delays of a session.  Beyond
    that Python rounds to the nearest double and raises [OverflowError]
    from [2 ^ 1024] on, whereas this one reads the int modulo [2 ^ 63]. *)
Definition float_of_Z (z : Z) : float :=
  if z <? 0 then PrimFloat.opp (PrimFloat.of_uint63 (Uint63.of_Z (- z)))
  else PrimFloat.of_uint63 (Uint63.of_Z z).

(** Nearest integer to [num / den] ([den > 0]), ties to even. *)
Definition round_half_even (num den : Z) : Z :=
  let q := num / den in
  let r := num mod den in
  match 2 * r ?= den with
  | Lt => q
  | Gt => q + 1
  | Eq => if Z.even q then q else q + 1
  end.

(** [round(x, 2)] on a float: the exact value of [x] is rounded to the
    nearest hundredth (ties to even) and the double nearest to that decimal
    is returned; infinities, NaN and zeros come back as they are. *)
Definition py_round2 (x : float) : float :=
  match Prim2SF x with
  | S754_finite s m e =>
      let num := Z.pos m * 100 in
      let k := if 0 <=? e then num * 2 ^ e else round_half_even num (2 ^ (- e)) in
      let r := PrimFloat.div (float_of_Z k) (float_of_Z 100) in
      if s then PrimFloat.opp r else r
  | _ => x
  end.

(** [int(x)] on a float: truncation toward zero. *)
Definition py_int_of_float (x : float) : outcome Z :=
  match Prim2SF x with
  | S754_zero _ => Ok 0
  | S754_infinity _ => Raise OverflowError
  | S754_nan => Raise ValueError
  | S754_finite s m e =>
      let v := if 0 <=? e then Z.pos m * 2 ^ e else Z.pos m / 2 ^ (- e) in
      Ok (if s then - v else v)
  end.

(** [float(z)] on an int, as [math.sqrt] converts its argument: the
    nearest double, ties to even; [OverflowError] when that is not finite. *)
Definition py_float_of_int (z : Z) : outcome float :=
  match binary_normalize prec emax z 0 false with
  | S754_infinity _ => Raise OverflowError
  | sf => Ok (SF2Prim sf)
  end.

(** [f < z] for a float [f] and an int [z]: Python compares the two exact
    values, without rounding [z] to a float. *)
Definition float_lt_int (f : float) (z : Z) : bool :=
  match Prim2SF f with
  | S754_nan => false
  | S754_infinity s => s
  | S754_zero _ => 0 <? z
  | S754_finite s m e =>
      let v := if s then Z.neg m else Z.pos m in
      if 0 <=? e then v * 2 ^ e <? z else v <? z * 2 ^ (- e)
  end.

(** [sum] over floats, starting from the int [0]: a left fold. *)
Definition py_sum_float (xs : list float) : float :=
  fold_left PrimFloat.add xs (float_of_Z 0).

Definition py_sum (xs : list Z) : Z := fold_left Z.add xs 0.

(** ** Configuration *)

(** [BOX_PARAMS].  [margin] and [min_dist] are integer-valued in the source
    ([1.5 * 50], [2.0 * 50]); [randint] rejects any other margin. *)
Record box_params : Type := {
  n_boxes : Z;
  size : Z;
  min_dist : Z;
  t_highlight : float;
  margin : Z
}.

(** The application states (the strings assigned to [Application.state]). *)
Inductive state_name : Type :=
| Participant_ID
| Instructions
| ShowSequence
| UserInput
| Feedback.

(** The readings of the up to three [time()] calls of one [Sequence.show]. *)
Record readings : Type := {
  time1 : float;
  time2 : float;
  time3 : float
}.

(** [a > b] on floats. *)
Definition float_gt (a b : float) : bool := PrimFloat.ltb b a.

(** ** class Sequence.Box *)

Module Box.

(** [rend] and [rect] are recomputed from [pos] and [size] by every
    [draw]; the model computes the rectangle where it is read. *)
Record t : Type := {
  pos : Z * Z;
  size : Z;
  highlight : bool;
  clicked : bool;
  correct : bool
}.

Definition __init__ (pos : Z * Z) (size : Z) : t :=
  {| pos := pos; size := size; highlight := false; clicked := false; correct := false |}.

Definition set_highlight (v : bool) (b : t) : t :=
  {| pos := pos b; size := size b; highlight := v; clicked := clicked b; correct := correct b |}.

Definition set_clicked (v : bool) (b : t) : t :=
  {| pos := pos b; size := size b; highlight := highlight b; clicked := v; correct := correct b |}.

Definition set_correct (v : bool) (b : t) : t :=
  {| pos := pos b; size := size b; highlight := highlight b; clicked := clicked b; correct := v |}.

Inductive color : Type := RED | GREEN | BLUE | YELLOW.

Definition get_color (b : t) : color :=
  if highlight b then YELLOW
  else if clicked b then (if correct b then GREEN else RED)
  else BLUE.

(** [Surface((size, size)).get_rect(center=pos).collidepoint(p)]: the
    rectangle's left and top are the center minus half the side (C integer
    division); its right and bottom edges are excluded. *)
Definition collidepoint (b : t) (p : Z * Z) : bool :=
  let left := fst (pos b) - Z.quot (size b) 2 in
  let top := snd (pos b) - Z.quot (size b) 2 in
  (left <=? fst p) && (fst p <? left + size b) &&
  (top <=? snd p) && (snd p <? top + size b).

End Box.

(** ** class Sequence *)

Module Sequence.

Record t : Type := {
  screen_size : Z * Z;
  box_parameters : box_params;
  length : option Z;
  highlight_box_id : Z;
  last_box_highlighted : float;
  boxes : list Box.t;
  correct : bool
}.

Definition __init__ (screen_size : Z * Z) (params : box_params) : t :=
  {| screen_size := screen_size; box_parameters := params; length := None;
     highlight_box_id := 0; last_box_highlighted := float_of_Z 0;
     boxes := []; correct := false |}.

Definition set_boxes (bs : list Box.t) (s : t) : t :=
  {| screen_size := screen_size s; box_parameters := box_parameters s;
     length := length s; highlight_box_id := highlight_box_id s;
     last_box_highlighted := last_box_highlighted s; boxes := bs;
     correct := correct s |}.

Definition set_correct (v : bool) (s : t) : t :=
  {| screen_size := screen_size s; box_parameters := box_parameters s;
     length := length s; highlight_box_id := highlight_box_id s;
     last_box_highlighted := last_box_highlighted s; boxes := boxes s;
     correct := v |}.

Definition set_cursor (id : Z) (last : float) (s : t) : t :=
  {| screen_size := screen_size s; box_parameters := box_parameters s;
     length := length s; highlight_box_id := id;
     last_box_highlighted := last; boxes := boxes s;
     correct := correct s |}.

(** [dx ** 2 + dy ** 2] of [collision_check], an exact integer. *)
Definition dist2 (a b : Box.t) : Z :=
  let dx := fst (Box.pos a) - fst (Box.pos b) in
  let dy := snd (Box.pos a) - snd (Box.pos b) in
  dx ^ 2 + dy ^ 2.

(** The Euclidean distance between two box centers. *)
Definition distance (a b : Box.t) : R := sqrt (IZR (dist2 a b)).

(** [collision_check]: [sqrt(dx ** 2 + dy ** 2) < min_dist].  The sum of
    squares is an exact int; [math.sqrt] converts it to a double and takes
    the correctly rounded square root; the comparison with the int
    [min_dist] is exact. *)
Definition collision_check (params : box_params) (candidate_box box : Box.t)
  : outcome bool :=
  try d <- py_float_of_int (dist2 candidate_box box);
  let distance := PrimFloat.sqrt d in
  if float_lt_int distance (min_dist params) then Ok true else Ok false.

(** [any(self.collision_check(candidate_box, box) for box in boxes)]: the
    boxes are checked in order, up to the first collision. *)
Fixpoint any_collision (params : box_params) (candidate_box : Box.t)
    (boxes : list Box.t) : outcome bool :=
  match boxes with
  | [] => Ok false
  | box :: boxes' =>
      try c <- collision_check params candidate_box box;
      if c then Ok true else any_collision params candidate_box boxes'
  end.

(** The [while] loop of [generate_boxes].  Every pass draws twice, so on a
    tape of [n] draws the loop body runs at most [n] times and [S n]
    passes of fuel are never used up: the loop hangs only when the tape
    runs out. *)
Fixpoint generate_boxes_loop (fuel : nat) (self : t) (i : Z) (boxes : list Box.t)
  : Rand (list Box.t) :=
  let params := box_parameters self in
  if i <? n_boxes params then
    match fuel with
    | O => fun _ => Hang
    | S fuel' =>
        draw random_x <- randint (margin params) (fst (screen_size self) - margin params);
        draw random_y <- randint (margin params) (snd (screen_size self) - margin params);
        let candidate_box := Box.__init__ (random_x, random_y) (size params) in
        draw collides <- rlift (any_collision params candidate_box boxes);
        if negb collides
        then generate_boxes_loop fuel' self (i + 1) (boxes ++ [candidate_box])
        else generate_boxes_loop fuel' self i boxes
    end
  else rret boxes.

Definition generate_boxes (self : t) : Rand (list Box.t) :=
  fun rng => generate_boxes_loop (S (List.length rng)) self 0 [] rng.

Definition generate (length : Z) (self : t) : Rand t :=
  draw boxes <- generate_boxes self;
  rret {| screen_size := screen_size self; box_parameters := box_parameters self;
          length := Some length; highlight_box_id := 0;
          last_box_highlighted := last_box_highlighted self; boxes := boxes;
          correct := correct self |}.

(** [self.boxes[i].highlight = v]. *)
Definition set_box_highlight (v : bool) (i : Z) (bs : list Box.t) : outcome (list Box.t) :=
  match py_index (List.length bs) i with
  | Some k => Ok (alter (Box.set_highlight v) k bs)
  | None => Raise IndexError
  end.

(** [show]: the time-driven highlighting; drawing the boxes changes no
    modelled field.  Returns the next application state. *)
Definition show (trial_start : float) (start_delay : Z) (now : readings) (self : t)
  : outcome (state_name * t) :=
  if float_gt (PrimFloat.sub (time1 now) trial_start) (float_of_Z start_delay) then
    if highlight_box_id self =? 0 then
      try bs <- set_box_highlight true (highlight_box_id self) (boxes self);
      Ok (ShowSequence,
          set_cursor (highlight_box_id self + 1) (time2 now) (set_boxes bs self))
    else
      let current_time := time2 now in
      if float_gt (PrimFloat.sub current_time (last_box_highlighted self))
                  (t_highlight (box_parameters self)) then
        match length self with
        | None => Raise TypeError
        | Some len =>
            if highlight_box_id self <? len then
              try bs <- set_box_highlight false (highlight_box_id self - 1) (boxes self);
              try bs' <- set_box_highlight true (highlight_box_id self) bs;
              Ok (ShowSequence,
                  set_cursor (highlight_box_id self + 1) (time3 now) (set_boxes bs' self))
            else
              try bs <- set_box_highlight false (highlight_box_id self - 1) (boxes self);
              Ok (UserInput, set_boxes bs self)
        end
      else Ok (ShowSequence, self)
  else Ok (ShowSequence, self).

End Sequence.

(** ** class Participant *)

Module Participant.

Record t : Type := {
  participant_id : Z;
  current_trial : Z;
  corsi_spans : list Z;
  corsi_span : Z;
  clicks : Z;
  errors : Z;
  mean_corsi_span : float;
  std_corsi_span : float
}.

Definition __init__ (participant_id : Z) : t :=
  {| participant_id := participant_id; current_trial := 1; corsi_spans := [];
     corsi_span := 2; clicks := 0; errors := 0;
     mean_corsi_span := float_of_Z 0; std_corsi_span := float_of_Z 0 |}.

Definition set_clicks (v : Z) (p : t) : t :=
  {| participant_id := participant_id p; current_trial := current_trial p;
     corsi_spans := corsi_spans p; corsi_span := corsi_span p; clicks := v;
     errors := errors p; mean_corsi_span := mean_corsi_span p;
     std_corsi_span := std_corsi_span p |}.

Definition set_errors (v : Z) (p : t) : t :=
  {| participant_id := participant_id p; current_trial := current_trial p;
     corsi_spans := corsi_spans p; corsi_span := corsi_span p; clicks := clicks p;
     errors := v; mean_corsi_span := mean_corsi_span p;
     std_corsi_span := std_corsi_span p |}.

Definition set_corsi_span (v : Z) (p : t) : t :=
  {| participant_id := participant_id p; current_trial := current_trial p;
     corsi_spans := corsi_spans p; corsi_span := v; clicks := clicks p;
     errors := errors p; mean_corsi_span := mean_corsi_span p;
     std_corsi_span := std_corsi_span p |}.

Definition set_current_trial (v : Z) (p : t) : t :=
  {| participant_id := participant_id p; current_trial := v;
     corsi_spans := corsi_spans p; corsi_span := corsi_span p; clicks := clicks p;
     errors := errors p; mean_corsi_span := mean_corsi_span p;
     std_corsi_span := std_corsi_span p |}.

(** The history after the guarded [append] of [update_statistics]. *)
Definition appended_spans (self : t) : list Z :=
  if Z.of_nat (List.length (corsi_spans self)) <? current_trial self
  then corsi_spans self ++ [corsi_span self]
  else corsi_spans self.

(** [round(sum(spans) / len(spans), 2)]. *)
Definition mean_of (spans : list Z) : float :=
  py_round2 (PrimFloat.div (float_of_Z (py_sum spans))
                           (float_of_Z (Z.of_nat (List.length spans)))).

(** [round(sqrt(sum((xi - mean) ** 2 for xi in spans) / len(spans)), 2)]. *)
Definition std_of (mean : float) (spans : list Z) : float :=
  py_round2
    (PrimFloat.sqrt
       (PrimFloat.div
          (py_sum_float
             (List.map (fun xi => let d := PrimFloat.sub (float_of_Z xi) mean in
                                  PrimFloat.mul d d) spans))
          (float_of_Z (Z.of_nat (List.length spans))))).

Definition update_statistics (self : t) : outcome t :=
  let spans := appended_spans self in
  match spans with
  | [] => Raise ZeroDivisionError
  | _ :: _ =>
      let mean := mean_of spans in
      Ok {| participant_id := participant_id self; current_trial := current_trial self;
            corsi_spans := spans; corsi_span := corsi_span self; clicks := clicks self;
            errors := errors self; mean_corsi_span := mean;
            std_corsi_span := std_of mean spans |}
  end.

(** The row [write_csv] appends to [corsi.csv]. *)
Definition write_csv (self : t) : csv_row :=
  (participant_id self, corsi_spans self, mean_corsi_span self, std_corsi_span self).

End Participant.

(** ** Events and the text widget *)

Inductive key : Type :=
| K_RETURN
| K_SPACE
| K_ESCAPE
| K_OTHER (code : Z).

(** A pygame event.  [MOUSEBUTTONUP] carries what [pygame.mouse.get_pos()]
    returns while the event is handled; [OTHER_EVENT] stands for every event
    type the program does not test for. *)
Inductive event : Type :=
| QUIT
| KEYDOWN (k : key) (unicode : string)
| MOUSEBUTTONUP (mouse_pos : Z * Z)
| OTHER_EVENT.

(** A Python [str]: the sequence of its code points. *)
Definition py_str : Type := list N.

(** The [str] whose characters are those of a string literal (Latin-1). *)
Definition str_of_string (s : string) : py_str :=
  List.map N_of_ascii (list_ascii_of_string s).

(** [pygame_textinput.TextInput] is a library object: the program only calls
    [update] and [get_text] on it, so the model takes any implementation of
    these two. *)
Class TextInput : Type := {
  widget : Type;
  widget_new : widget;
  widget_update : event -> widget -> widget;
  get_text : widget -> py_str
}.

(** [int(text)] on a [str], as CPython 3.11 computes it (Unicode 14.0).
    Outside ASCII every white-space character becomes a space and every
    decimal digit of any script its ASCII digit; the result is read as
    optional ASCII white space, an optional sign, decimal digits with
    single underscores allowed between them, and optional white space.
    More than 4300 digits are refused.  [None] is [ValueError]. *)
Module PyInt.

#[local] Open Scope N_scope.

(** The digit zero of every script with decimal digits; the other nine
    digits follow it in order. *)
Definition decimal_zeros : list N :=
  [
    48; 1632; 1776; 1984; 2406; 2534; 2662; 2790; 2918; 3046; 3174; 3302;
    3430; 3558; 3664; 3792; 3872; 4160; 4240; 6112; 6160; 6470; 6608; 6784;
    6800; 6992; 7088; 7232; 7248; 42528; 43216; 43264; 43472; 43504; 43600;
    44016; 65296; 66720; 68912; 69734; 69872; 69942; 70096; 70384; 70736;
    70864; 71248; 71360; 71472; 71904; 72016; 72784; 73040; 73120; 92768;
    92864; 93008; 120782; 120792; 120802; 120812; 120822; 123200; 123632;
    125264; 130032
  ].

(** [Py_UNICODE_TODECIMAL]. *)
Definition to_decimal (c : N) : option N :=
  match List.find (fun z => (z <=? c) && (c <? z + 10)) decimal_zeros with
  | Some z => Some (c - z)
  | None => None
  end.

(** The white-space characters above ASCII ([Py_UNICODE_ISSPACE]). *)
Definition unicode_spaces : list N :=
  [
    133; 160; 5760; 8192; 8193; 8194; 8195; 8196; 8197; 8198; 8199; 8200;
    8201; 8202; 8232; 8233; 8239; 8287; 12288
  ].

Definition is_unicode_space (c : N) : bool := existsb (N.eqb c) unicode_spaces.

(** [_PyUnicode_TransformDecimalAndSpaceToASCII] on a [str] that is not
    ASCII: the translation stops with a question mark at the first
    character that is neither. *)
Fixpoint transform (cs : py_str) : py_str :=
  match cs with
  | [] => []
  | c :: cs' =>
      if c <? 127 then c :: transform cs'
      else if is_unicode_space c then 32 :: transform cs'
      else match to_decimal c with
           | Some d => (48 + d) :: transform cs'
           | None => [63]
           end
  end.

Definition to_ascii (cs : py_str) : py_str :=
  if forallb (fun c => c <? 128) cs then cs else transform cs.

(** [Py_ISSPACE]. *)
Definition is_space (c : N) : bool :=
  ((9 <=? c) && (c <=? 13)) || (c =? 32).

Definition digit_of (c : N) : option Z :=
  if (48 <=? c) && (c <=? 57) then Some (Z.of_N (c - 48)) else None.

Fixpoint skip_spaces (cs : py_str) : py_str :=
  match cs with
  | c :: cs' => if is_space c then skip_spaces cs' else cs
  | [] => []
  end.

(** The scan over digits and underscores: the value, the number of digits
    and what follows; [None] after a doubled or a trailing underscore. *)
Fixpoint scan (acc count : Z) (after_underscore : bool) (cs : py_str)
  : option (Z * Z * py_str) :=
  match cs with
  | [] => if after_underscore then None else Some (acc, count, [])
  | c :: cs' =>
      if c =? 95 then
        if after_underscore then None else scan acc count true cs'
      else match digit_of c with
           | Some d => scan (10 * acc + d)%Z (count + 1)%Z false cs'
           | None => if after_underscore then None else Some (acc, count, cs)
           end
  end.

(** [sys.int_info.default_max_str_digits]. *)
Definition max_str_digits : Z := 4300.

(** [PyLong_FromString] in base 10, on the whole buffer. *)
Definition parse (cs : py_str) : option Z :=
  let cs := skip_spaces cs in
  let '(negative, cs) :=
    match cs with
    | 43 :: cs' => (false, cs')
    | 45 :: cs' => (true, cs')
    | _ => (false, cs)
    end in
  match cs with
  | 95 :: _ => None
  | _ =>
      match scan 0 0 false cs with
      | Some (v, count, rest) =>
          if ((count =? 0) || (max_str_digits <? count))%Z then None
          else match skip_spaces rest with
               | [] => Some (if negative then (- v)%Z else v)
               | _ :: _ => None
               end
      | None => None
      end
  end.

Definition int (text : py_str) : option Z := parse (to_ascii text).

End PyInt.

(** What the program prints or draws. *)
Inductive summary_line : Type :=
| Trial_span (current_trial max_trials corsi_span : Z)
| Final_span (max_trials : Z) (mean std : float).

Record feedback_screen : Type := {
  message : string;
  summary : option summary_line;
  feedback : string
}.

Inductive output : Type :=
| Print_incorrect_id (max_participants : Z)
| Draw_feedback (screen : feedback_screen).

(** What one pass of the main loop reads from outside: the pending events,
    the [time()] reading [handle_instructions_input] may take, and the
    readings [Sequence.show] may take. *)
Record frame_input : Type := {
  events : list event;
  event_time : float;
  show_time : readings
}.

(** ** class Application *)

Module Application.
Section WithTextInput.

Context {TI : TextInput}.

Record t : Type := {
  screen_size : Z * Z;
  text_input : widget;
  state : state_name;
  participant : option Participant.t;
  sequence : Sequence.t;
  max_trials : Z;
  trial_over : bool;
  max_participants : Z;
  start_delay : Z;
  trial_start : float
}.

Definition __init__ (screen_size : Z * Z) (box_parameters : box_params)
    (start_delay : float) (max_participants max_trials : Z) : outcome t :=
  try delay <- py_int_of_float start_delay;
  Ok {| screen_size := screen_size; text_input := widget_new;
        state := Participant_ID; participant := None;
        sequence := Sequence.__init__ screen_size box_parameters;
        max_trials := max_trials; trial_over := false;
        max_participants := max_participants; start_delay := delay;
        trial_start := float_of_Z 0 |}.

Definition set_text_input (w : widget) (a : t) : t :=
  {| screen_size := screen_size a; text_input := w; state := state a;
     participant := participant a; sequence := sequence a;
     max_trials := max_trials a; trial_over := trial_over a;
     max_participants := max_participants a; start_delay := start_delay a;
     trial_start := trial_start a |}.

Definition set_state (st : state_name) (a : t) : t :=
  {| screen_size := screen_size a; text_input := text_input a; state := st;
     participant := participant a; sequence := sequence a;
     max_trials := max_trials a; trial_over := trial_over a;
     max_participants := max_participants a; start_delay := start_delay a;
     trial_start := trial_start a |}.

Definition set_participant (p : option Participant.t) (a : t) : t :=
  {| screen_size := screen_size a; text_input := text_input a; state := state a;
     participant := p; sequence := sequence a;
     max_trials := max_trials a; trial_over := trial_over a;
     max_participants := max_participants a; start_delay := start_delay a;
     trial_start := trial_start a |}.

Definition set_sequence (q : Sequence.t) (a : t) : t :=
  {| screen_size := screen_size a; text_input := text_input a; state := state a;
     participant := participant a; sequence := q;
     max_trials := max_trials a; trial_over := trial_over a;
     max_participants := max_participants a; start_delay := start_delay a;
     trial_start := trial_start a |}.

Definition set_trial_over (v : bool) (a : t) : t :=
  {| screen_size := screen_size a; text_input := text_input a; state := state a;
     participant := participant a; sequence := sequence a;
     max_trials := max_trials a; trial_over := v;
     max_participants := max_participants a; start_delay := start_delay a;
     trial_start := trial_start a |}.

Definition set_trial_start (v : float) (a : t) : t :=
  {| screen_size := screen_size a; text_input := text_input a; state := state a;
     participant := participant a; sequence := sequence a;
     max_trials := max_trials a; trial_over := trial_over a;
     max_participants := max_participants a; start_delay := start_delay a;
     trial_start := v |}.

(** [self.participant.<attr>]: [AttributeError] while it is [None]. *)
Definition the_participant (self : t) : outcome Participant.t :=
  match participant self with
  | Some p => Ok p
  | None => Raise AttributeError
  end.

Definition handle_id_input (ev : event) (self : t) : t * list output :=
  let self := set_text_input (widget_update ev (text_input self)) self in
  match ev with
  | KEYDOWN K_RETURN _ =>
      let participant_id := PyInt.int (get_text (text_input self)) in
      match participant_id with
      | Some id =>
          if (1 <=? id) && (id <=? max_participants self)
          then (set_state Instructions
                  (set_participant (Some (Participant.__init__ id)) self), [])
          else (self, [Print_incorrect_id (max_participants self)])
      | None => (self, [Print_incorrect_id (max_participants self)])
      end
  | _ => (self, [])
  end.

Definition generate_sequence (self : t) : Rand t :=
  draw p <- rlift (the_participant self);
  let sequence_length := Participant.corsi_span p + 1 in
  draw q <- Sequence.generate sequence_length (sequence self);
  rret (set_participant (Some (Participant.set_clicks 0 p))
          (set_state ShowSequence (set_sequence q self))).

Definition handle_instructions_input (ev : event) (now : float) (self : t) : Rand t :=
  match ev with
  | KEYDOWN K_SPACE _ =>
      draw _p <- rlift (the_participant self);
      generate_sequence (set_trial_start now self)
  | _ => rret self
  end.

(** The body of the [if] in [handle_user_input], for the box at position
    [j] of [self.sequence.boxes].  The boxes of a sequence are distinct
    objects, so [box == self.sequence.boxes[self.participant.clicks]]
    compares positions in the list. *)
Definition click_box (j : nat) (self : t) : outcome t :=
  let q := sequence self in
  let boxes1 := alter (Box.set_clicked true) j
                  (List.map (Box.set_clicked false) (Sequence.boxes q)) in
  try p <- the_participant self;
  match py_index (List.length boxes1) (Participant.clicks p) with
  | None => Raise IndexError
  | Some expected =>
      if Nat.eqb j expected then
        let q1 := Sequence.set_boxes (alter (Box.set_correct true) j boxes1) q in
        match Sequence.length q with
        | None => Raise TypeError
        | Some len =>
            if Participant.clicks p =? len - 1
            then Ok (set_state Feedback
                       (set_sequence (Sequence.set_correct true q1) self))
            else Ok (set_participant
                       (Some (Participant.set_clicks (Participant.clicks p + 1) p))
                       (set_sequence q1 self))
        end
      else
        let q1 := Sequence.set_boxes (alter (Box.set_correct false) j boxes1) q in
        Ok (set_participant
              (Some (Participant.set_errors (Participant.errors p + 1) p))
              (set_state Feedback
                 (set_sequence (Sequence.set_correct false q1) self)))
  end.

(** [for box in self.sequence.boxes], over the positions still to visit. *)
Fixpoint click_loop (mouse_pos : Z * Z) (js : list nat) (self : t) : outcome t :=
  match js with
  | [] => Ok self
  | j :: js' =>
      match Sequence.boxes (sequence self) !! j with
      | Some box =>
          if Box.collidepoint box mouse_pos && negb (Box.clicked box)
          then try self' <- click_box j self; click_loop mouse_pos js' self'
          else click_loop mouse_pos js' self
      | None => click_loop mouse_pos js' self
      end
  end.

Definition handle_user_input (ev : event) (self : t) : outcome t :=
  match ev with
  | MOUSEBUTTONUP mouse_pos =>
      click_loop mouse_pos
        (seq 0 (List.length (Sequence.boxes (sequence self)))) self
  | _ => Ok self
  end.

Definition handle_feedback_input (ev : event) (self : t) : Rand t :=
  match ev with
  | KEYDOWN K_SPACE _ =>
      draw self1 <- rlift
        (if trial_over self then
           try p <- the_participant self;
           if Participant.current_trial p <? max_trials self
           then Ok (set_trial_over false
                      (set_participant
                         (Some (Participant.set_errors 0
                                  (Participant.set_corsi_span 2
                                     (Participant.set_current_trial
                                        (Participant.current_trial p + 1) p))))
                         self))
           else Ok self
         else Ok self);
      draw last_trial_done <- rlift
        (if trial_over self1 then
           try p <- the_participant self1;
           Ok (Participant.current_trial p =? max_trials self1)
         else Ok false);
      if negb last_trial_done then generate_sequence self1 else rret self1
  | _ => rret self
  end.

(** The texts [show_feedback] draws once the message is chosen. *)
Definition feedback_texts (self : t) (p : Participant.t) (message : string)
  : feedback_screen :=
  if trial_over self && (Participant.current_trial p <? max_trials self) then
    {| message := message;
       summary := Some (Trial_span (Participant.current_trial p) (max_trials self)
                                   (Participant.corsi_span p));
       feedback := "Press space bar for next trial!" |}
  else if trial_over self && (Participant.current_trial p =? max_trials self) then
    {| message := message;
       summary := Some (Final_span (max_trials self)
                                   (py_round2 (Participant.mean_corsi_span p))
                                   (py_round2 (Participant.std_corsi_span p)));
       feedback := "Press ESC to close application!" |}
  else
    {| message := message; summary := None;
       feedback := "Press space bar to continue" |}.

Definition show_feedback (self : t) : outcome (t * feedback_screen) :=
  try p <- the_participant self;
  try r <-
    (if Sequence.correct (sequence self) then
       (* [corsi_span = self.sequence.length]: a [None] length would be
          stored and fail at the next arithmetic on the span; the model
          fails here (no [correct] sequence has length [None], since
          [handle_user_input] reads [length - 1] before setting the flag) *)
       match Sequence.length (sequence self) with
       | None => Raise TypeError
       | Some len =>
           let p1 := Participant.set_corsi_span len (Participant.set_errors 0 p) in
           if len =? n_boxes (Sequence.box_parameters (sequence self))
           then Ok (p1, true, "Congratulations! You won!"%string)
           else Ok (p1, trial_over self, "Great job!"%string)
       end
     else if Participant.errors p =? 1
          then Ok (p, trial_over self, "One more try!"%string)
          else Ok (p, true, "Trial finished!"%string));
  let '(p1, over, message) := r in
  try p2 <- (if over then Participant.update_statistics p1 else Ok p1);
  let self' := set_trial_over over (set_participant (Some p2) self) in
  Ok (self', feedback_texts self' p2 message).

(** [update]: [show_id_input] and [show_instructions] only draw. *)
Definition update (now : readings) (self : t) : outcome (t * list output) :=
  match state self with
  | Participant_ID => Ok (self, [])
  | Instructions => Ok (self, [])
  | ShowSequence | UserInput =>
      try r <- Sequence.show (trial_start self) (start_delay self) now (sequence self);
      Ok (set_state (fst r) (set_sequence (snd r) self), [])
  | Feedback =>
      try r <- show_feedback self;
      Ok (fst r, [Draw_feedback (snd r)])
  end.

(** The body of the [for event in events] loop of [handle_events]. *)
Definition handle_event (ev : event) (now : float) (self : t) : Rand (t * list output) :=
  let quit :=
    match ev with
    | QUIT | KEYDOWN K_ESCAPE _ => true
    | _ => false
    end in
  if quit
  then fun _ => Raise (SystemExit (option_map Participant.write_csv (participant self)))
  else
    match state self with
    | Participant_ID => rret (handle_id_input ev self)
    | Instructions => draw a <- handle_instructions_input ev now self; rret (a, [])
    | UserInput => draw a <- rlift (handle_user_input ev self); rret (a, [])
    | Feedback => draw a <- handle_feedback_input ev self; rret (a, [])
    | ShowSequence => rret (self, [])
    end.

Fixpoint handle_events (evs : list event) (now : float) (self : t)
  : Rand (t * list output) :=
  match evs with
  | [] => rret (self, [])
  | ev :: evs' =>
      draw r <- handle_event ev now self;
      draw r' <- handle_events evs' now (fst r);
      rret (fst r', snd r ++ snd r')
  end.

(** One pass of the [while True] loop of [start]. *)
Definition frame (i : frame_input) (self : t) : Rand (t * list output) :=
  draw r <- handle_events (events i) (event_time i) self;
  draw r' <- rlift (update (show_time i) (fst r));
  rret (fst r', snd r ++ snd r').

(** [start], over the frames the outside world supplies. *)
Fixpoint start (frames : list frame_input) (self : t) : Rand (t * list output) :=
  match frames with
  | [] => rret (self, [])
  | i :: frames' =>
      draw r <- frame i self;
      draw r' <- start frames' (fst r);
      rret (fst r', snd r ++ snd r')
  end.

End WithTextInput.
End Application.

(** * Specification vocabulary *)

(** ** Layouts, presentation, clicks *)

(** The center of [b] lies in [margin, dim - margin] on both axes. *)
Definition in_margin (self : Sequence.t) (b : Box.t) : Prop :=
  let params := Sequence.box_parameters self in
  margin params <= fst (Box.pos b) <= fst (Sequence.screen_size self) - margin params /\
  margin params <= snd (Box.pos b) <= snd (Sequence.screen_size self) - margin params.

(** The loop invariant of [generate_boxes]: every box is inside the
    margins and passed [collision_check] against all boxes before it. *)
Definition layout_inv (self : Sequence.t) (boxes : list Box.t) : Prop :=
  (forall i b, boxes !! i = Some b -> in_margin self b) /\
  (forall i j a b, (i < j)%nat -> boxes !! i = Some a -> boxes !! j = Some b ->
                   Sequence.collision_check (Sequence.box_parameters self) b a = Ok false).


(** [now] has not crossed the next threshold of [self]: the start delay has
    not passed, or a box is lit and its dwell time has not passed. *)
Definition below_threshold (trial_start : float) (start_delay : Z)
    (self : Sequence.t) (now : readings) : Prop :=
  float_gt (PrimFloat.sub (time1 now) trial_start) (float_of_Z start_delay) = false \/
  (Sequence.highlight_box_id self <> 0 /\
   float_gt (PrimFloat.sub (time2 now) (Sequence.last_box_highlighted self))
            (t_highlight (Sequence.box_parameters self)) = false).

(** Repeated calls of [show], one per element of [nows]: the states
    signalled and the final sequence. *)
Fixpoint show_repeatedly (trial_start : float) (start_delay : Z) (nows : list readings)
    (self : Sequence.t) : outcome (list state_name * Sequence.t) :=
  match nows with
  | [] => Ok ([], self)
  | now :: nows' =>
      try r <- Sequence.show trial_start start_delay now self;
      try r' <- show_repeatedly trial_start start_delay nows' (snd r);
      Ok (fst r :: fst r', snd r')
  end.

(** The number of boxes marked clicked. *)
Definition clicked_count (bs : list Box.t) : nat :=
  List.length (List.filter Box.clicked bs).

Definition at_most_one_clicked (bs : list Box.t) : Prop :=
  (clicked_count bs <= 1)%nat.

(** The boxes after the flag updates of one registered hit on box [j]. *)
Definition boxes_after_hit (j : nat) (v : bool) (bs : list Box.t) : list Box.t :=
  alter (Box.set_correct v) j
    (alter (Box.set_clicked true) j (List.map (Box.set_clicked false) bs)).

(** A frame in which the participant does not press space. *)
Definition no_proceed (i : frame_input) : Prop :=
  Forall (fun ev => forall u, ev <> KEYDOWN K_SPACE u) (events i).

(** ** Verdicts, runs and invariants of the application *)

Section Vocabulary.

Context {TI : TextInput}.

(** The identifier typed so far parses as an integer in
    [1, max_participants]. *)
Definition valid_id (max_participants : Z) (text : py_str) (id : Z) : Prop :=
  PyInt.int text = Some id /\ 1 <= id <= max_participants.

(** What [show_feedback] decides before it draws: the participant after the
    span and error updates, the trial-over flag and the message. *)
Inductive verdict (self : Application.t) (p : Participant.t)
  : Participant.t -> bool -> string -> Prop :=
| verdict_won len :
    Sequence.correct (Application.sequence self) = true ->
    Sequence.length (Application.sequence self) = Some len ->
    len = n_boxes (Sequence.box_parameters (Application.sequence self)) ->
    verdict self p (Participant.set_corsi_span len (Participant.set_errors 0 p))
            true "Congratulations! You won!"
| verdict_correct len over :
    Sequence.correct (Application.sequence self) = true ->
    Sequence.length (Application.sequence self) = Some len ->
    len <> n_boxes (Sequence.box_parameters (Application.sequence self)) ->
    over = Application.trial_over self ->
    verdict self p (Participant.set_corsi_span len (Participant.set_errors 0 p))
            over "Great job!"
| verdict_retry over :
    Sequence.correct (Application.sequence self) = false ->
    Participant.errors p = 1 ->
    over = Application.trial_over self ->
    verdict self p p over "One more try!"
| verdict_finished :
    Sequence.correct (Application.sequence self) = false ->
    Participant.errors p <> 1 ->
    verdict self p p true "Trial finished!".

(** One step of a run: an event is handled, or [update] is called.  The
    main loop handles a batch of events and then updates, so every state the
    loop passes through is reached by such steps. *)
Inductive step : Application.t -> Application.t -> Prop :=
| step_event ev now rng s s' out rng' :
    Application.handle_event ev now s rng = Ok ((s', out), rng') -> step s s'
| step_update now s s' out :
    Application.update now s = Ok (s', out) -> step s s'.

(** A freshly constructed application. *)
Definition started (s : Application.t) : Prop :=
  exists screen_size box_parameters start_delay max_participants max_trials,
    Application.__init__ screen_size box_parameters start_delay
                         max_participants max_trials = Ok s.

Inductive reachable : Application.t -> Prop :=
| reach_start s : started s -> reachable s
| reach_step s s' : reachable s -> step s s' -> reachable s'.

(** The participant starting the next trial (in [handle_feedback_input]). *)
Definition next_trial (p : Participant.t) : Participant.t :=
  Participant.set_errors 0
    (Participant.set_corsi_span 2
       (Participant.set_current_trial (Participant.current_trial p + 1) p)).

(** The span history has one entry per finished trial: as many as the
    trial index once the current trial is over, one less before. *)
Definition history_inv (s : Application.t) : Prop :=
  match Application.participant s with
  | None => Application.trial_over s = false
  | Some p =>
      Application.state s <> Participant_ID /\
      Z.of_nat (List.length (Participant.corsi_spans p)) =
        if Application.trial_over s
        then Participant.current_trial p
        else Participant.current_trial p - 1
  end.

(** [show_feedback] called [n] times in a row (one call per frame while the
    feedback screen stays up). *)
Fixpoint show_feedback_times (n : nat) (s : Application.t) : outcome Application.t :=
  match n with
  | O => Ok s
  | S n' => try r <- Application.show_feedback s; show_feedback_times n' (fst r)
  end.

(** What handling a click may change: the click counter, the error
    counter, the box flags, the sequence's [correct] flag and the state
    (which can only move to [Feedback]); a failed sequence at the end means
    the error counter went up. *)
Record click_effect (s s' : Application.t) (p p' : Participant.t) : Prop := {
  ce_trial_over : Application.trial_over s' = Application.trial_over s;
  ce_length : Sequence.length (Application.sequence s') =
              Sequence.length (Application.sequence s);
  ce_state : Application.state s' = Application.state s \/
             Application.state s' = Feedback;
  ce_spans : Participant.corsi_spans p' = Participant.corsi_spans p;
  ce_trial : Participant.current_trial p' = Participant.current_trial p;
  ce_span : Participant.corsi_span p' = Participant.corsi_span p;
  ce_errors : Participant.errors p <= Participant.errors p';
  ce_failed :
    Application.state s' = Feedback ->
    Sequence.correct (Application.sequence s') = false ->
    (Application.state s = Feedback /\
     Sequence.correct (Application.sequence s) = false) \/
    Participant.errors p + 1 <= Participant.errors p'
}.

(** The states of one attempt at span [k], entered with at least [e]
    errors at this span and a sequence of length [len]: the sequence is
    being shown or tapped; or the attempt has failed, which cost at least
    one more error; or it has succeeded. *)
Definition attempt_inv (k e : Z) (len : option Z) (s : Application.t) : Prop :=
  exists p, Application.participant s = Some p /\
    (((Application.state s = ShowSequence \/ Application.state s = UserInput) /\
      Participant.corsi_span p = k /\ e <= Participant.errors p /\
      Application.trial_over s = false /\
      Sequence.length (Application.sequence s) = len) \/
     (Application.state s = Feedback /\
      Sequence.correct (Application.sequence s) = false /\
      Participant.corsi_span p = k /\ e + 1 <= Participant.errors p /\
      Sequence.length (Application.sequence s) = len) \/
     (Application.state s = Feedback /\
      Sequence.correct (Application.sequence s) = true)).

(** The feedback for a failed attempt has been computed: either one error
    stands at this span, or the trial is over. *)
Definition settled (s : Application.t) : Prop :=
  Application.state s = Feedback ->
  Sequence.correct (Application.sequence s) = false ->
  forall p, Application.participant s = Some p ->
            Participant.errors p = 1 \/ Application.trial_over s = true.

End Vocabulary.

(** ** Well-formed states, taps and quitting *)

(** Every lit box is the one just before the highlight cursor (so at most
    one box is lit, and none while the cursor is 0). *)
Definition lit_before_cursor (q : Sequence.t) : Prop :=
  forall i b, Sequence.boxes q !! i = Some b -> Box.highlight b = true ->
              Z.of_nat i = Sequence.highlight_box_id q - 1.

Definition none_lit (bs : list Box.t) : Prop :=
  forall i b, bs !! i = Some b -> Box.highlight b = false.

(** The stored mean and deviation are those of the stored history (both are
    the initial 0 while the history is empty). *)
Definition stats_consistent (p : Participant.t) : Prop :=
  match Participant.corsi_spans p with
  | [] => Participant.mean_corsi_span p = float_of_Z 0 /\
          Participant.std_corsi_span p = float_of_Z 0
  | _ :: _ =>
      Participant.mean_corsi_span p = Participant.mean_of (Participant.corsi_spans p) /\
      Participant.std_corsi_span p =
        Participant.std_of (Participant.mean_of (Participant.corsi_spans p))
                           (Participant.corsi_spans p)
  end.

(** The point [pos] lies on box [j] of [bs] and on no other box. *)
Definition hits_only (pos : Z * Z) (j : nat) (bs : list Box.t) : Prop :=
  (exists b, bs !! j = Some b /\ Box.collidepoint b pos = true) /\
  (forall i b, bs !! i = Some b -> Box.collidepoint b pos = true -> i = j).

(** The [i]-th of the click positions [taps] lies on box [k + i] and on no
    other box: the boxes are tapped in the order of the list, from box [k]
    on. *)
Definition taps_follow (taps : list (Z * Z)) (k : nat) (bs : list Box.t) : Prop :=
  forall i pos, taps !! i = Some pos -> hits_only pos (k + i) bs.

(** A box as its constructor leaves it, with the configured side length. *)
Definition fresh_box (params : box_params) (b : Box.t) : Prop :=
  b = Box.__init__ (Box.pos b) (size params).

(** [QUIT], or the escape key. *)
Definition is_quit (ev : event) : bool :=
  match ev with
  | QUIT | KEYDOWN K_ESCAPE _ => true
  | _ => false
  end.

(** An event that neither quits nor proceeds (space). *)
Definition quiet (ev : event) : Prop :=
  is_quit ev = false /\ forall u, ev <> KEYDOWN K_SPACE u.

Section MoreVocabulary.

Context {TI : TextInput}.

(** At least three boxes and at least one trial are configured. *)
Definition config_ok (s : Application.t) : Prop :=
  3 <= n_boxes (Sequence.box_parameters (Application.sequence s)) /\
  1 <= Application.max_trials s.

(** What holds of the participant of an application in every state a run
    passes through; the last field bounds the values by the configuration
    when that is [config_ok]. *)
Record participant_ok (s : Application.t) (p : Participant.t) : Prop := {
  pk_id : 1 <= Participant.participant_id p <= Application.max_participants s;
  pk_trial : 1 <= Participant.current_trial p;
  pk_trial_max : Participant.current_trial p <= Application.max_trials s \/
                 Participant.current_trial p = 1;
  pk_span : 2 <= Participant.corsi_span p;
  pk_spans : Forall (fun x => 2 <= x) (Participant.corsi_spans p);
  pk_errors : 0 <= Participant.errors p;
  pk_clicks : 0 <= Participant.clicks p;
  pk_stats : stats_consistent p;
  pk_bound :
    config_ok s ->
    let n := n_boxes (Sequence.box_parameters (Application.sequence s)) in
    Participant.current_trial p <= Application.max_trials s /\
    Participant.corsi_span p <= n /\
    (Application.trial_over s = false -> Participant.corsi_span p < n) /\
    Forall (fun x => x <= n) (Participant.corsi_spans p)
}.

(** What holds of the sequence once one has been generated. *)
Record sequence_ok (s : Application.t) (p : Participant.t) (len : Z) : Prop := {
  sk_length : Sequence.length (Application.sequence s) = Some len;
  sk_len : 3 <= len;
  sk_clicks : Participant.clicks p <= len - 1;
  sk_cursor : 0 <= Sequence.highlight_box_id (Application.sequence s)
              <= Z.of_nat (List.length (Sequence.boxes (Application.sequence s)));
  sk_lit : lit_before_cursor (Application.sequence s);
  sk_input :
    Application.state s = UserInput \/ Application.state s = Feedback ->
    len <= Sequence.highlight_box_id (Application.sequence s) /\
    none_lit (Sequence.boxes (Application.sequence s));
  sk_bound :
    config_ok s ->
    len <= n_boxes (Sequence.box_parameters (Application.sequence s)) /\
    Z.of_nat (List.length (Sequence.boxes (Application.sequence s))) =
      n_boxes (Sequence.box_parameters (Application.sequence s))
}.

(** The invariant of the application, state by state. *)
Definition wf (s : Application.t) : Prop :=
  match Application.state s with
  | Participant_ID =>
      Application.participant s = None /\ Application.trial_over s = false
  | Instructions =>
      Application.trial_over s = false /\
      exists id, Application.participant s = Some (Participant.__init__ id) /\
                 1 <= id <= Application.max_participants s
  | ShowSequence | UserInput | Feedback =>
      exists p len, Application.participant s = Some p /\
                    participant_ok s p /\ sequence_ok s p len
  end.

(** Zero or more steps of a run. *)
Inductive steps : Application.t -> Application.t -> Prop :=
| steps_refl s : steps s s
| steps_step s s' s'' : steps s s' -> step s' s'' -> steps s s''.

(** The readings [now] are past both thresholds of [show] for the sequence
    of [s]: the start delay has passed since the trial started, and the
    dwell time has passed since the last box was lit. *)
Definition presented_at (s : Application.t) (now : readings) : Prop :=
  float_gt (PrimFloat.sub (time1 now) (Application.trial_start s))
           (float_of_Z (Application.start_delay s)) = true /\
  float_gt (PrimFloat.sub (time2 now)
                          (Sequence.last_box_highlighted (Application.sequence s)))
           (t_highlight (Sequence.box_parameters (Application.sequence s))) = true.

(** The passes [frames] of the main loop find one click each, at the
    positions [taps] in this order, and nothing else. *)
Definition one_tap_each (frames : list frame_input) (taps : list (Z * Z)) : Prop :=
  Forall2 (fun i pos => events i = [MOUSEBUTTONUP pos]) frames taps.

(** After the last trial has ended the application sits on the feedback
    screen, and drawing that screen again changes nothing. *)
Definition terminal_inv (s : Application.t) : Prop :=
  Application.trial_over s = true ->
  forall p, Application.participant s = Some p ->
    Participant.current_trial p = Application.max_trials s ->
    Application.state s = Feedback /\
    exists screen, Application.show_feedback s = Ok (s, screen).

End MoreVocabulary.

(** * An example session *)

(** A text widget that keeps the typed characters (used by the examples
    only; the theorems hold for every widget). *)
#[export] Instance line_buffer : TextInput := {|
  widget := string;
  widget_new := ""%string;
  widget_update ev w :=
    match ev with
    | KEYDOWN (K_OTHER _) u => (w ++ u)%string
    | _ => w
    end;
  get_text w := str_of_string w
|}.

Definition demo_params : box_params :=
  {| n_boxes := 4; size := 50; min_dist := 100; t_highlight := 1%float; margin := 75 |}.

(** [Application((800, 600), demo_params, 1.0, 20, 3)]. *)
Definition demo_app : Application.t :=
  {| Application.screen_size := (800, 600); Application.text_input := ""%string;
     Application.state := Participant_ID; Application.participant := None;
     Application.sequence := Sequence.__init__ (800, 600) demo_params;
     Application.max_trials := 3; Application.trial_over := false;
     Application.max_participants := 20; Application.start_delay := 1;
     Application.trial_start := float_of_Z 0 |}.

(** [demo_app] with [text] typed into the identifier field. *)
Definition demo_typed (text : string) : Application.t :=
  Application.set_text_input (TI := line_buffer) text demo_app.

(** A text widget that holds a given [str] and ignores the events: for text
    that no key of [line_buffer] types. *)
Definition preset_text : TextInput :=
  {| widget := py_str; widget_new := []; widget_update _ w := w; get_text w := w |}.

(** The application at start, with [text] in the identifier field. *)
Definition demo_preset (text : py_str) : Application.t (TI := preset_text) :=
  {| Application.screen_size := (800, 600);
     Application.text_input := (text : widget (TextInput := preset_text));
     Application.state := Participant_ID; Application.participant := None;
     Application.sequence := Sequence.__init__ (800, 600) demo_params;
     Application.max_trials := 3; Application.trial_over := false;
     Application.max_participants := 20; Application.start_delay := 1;
     Application.trial_start := float_of_Z 0 |}.

Definition at_time (t : float) : readings :=
  {| time1 := t; time2 := t; time3 := t |}.

Definition tick (t : float) : frame_input :=
  {| events := []; event_time := t; show_time := at_time t |}.

Definition press (k : key) (u : string) (t : float) : frame_input :=
  {| events := [KEYDOWN k u]; event_time := t; show_time := at_time t |}.

Definition click (pos : Z * Z) (t : float) : frame_input :=
  {| events := [MOUSEBUTTONUP pos]; event_time := t; show_time := at_time t |}.

(** Raw draws placing four boxes at (75, 75), (275, 75), (75, 275) and
    (275, 275), twice; the second candidate of the first layout collides. *)
Definition demo_rng : list Z :=
  [0; 0; 10; 10; 200; 0; 0; 200; 200; 200; 0; 0; 200; 0; 0; 200; 200; 200; 1; 2].

(** Participant 5 logs in and starts the first sequence at time 10. *)
Definition demo_login : list frame_input :=
  [press (K_OTHER 53) "5" 1%float; press K_RETURN "" 2%float; press K_SPACE " " 10%float].

(** Three boxes are shown, then the second box is clicked first. *)
Definition demo_attempt1 : list frame_input :=
  [tick 11.5%float; tick 13%float; tick 14.5%float; tick 16%float;
   click (275, 75) 17%float].

Definition demo_proceed : frame_input := press K_SPACE " " 18%float.

Definition demo_presentation2 : list frame_input :=
  [tick 19.5%float; tick 21%float; tick 22.5%float; tick 24%float].

Definition demo_attempt2 : list frame_input :=
  demo_presentation2 ++ [click (275, 75) 25%float].

Definition demo_boxes : list Box.t :=
  [Box.__init__ (75, 75) 50; Box.__init__ (275, 75) 50;
   Box.__init__ (75, 275) 50; Box.__init__ (275, 275) 50].

(** A sequence of [len] boxes after its presentation. *)
Definition demo_sequence (len : Z) : Sequence.t :=
  {| Sequence.screen_size := (800, 600); Sequence.box_parameters := demo_params;
     Sequence.length := Some len; Sequence.highlight_box_id := len;
     Sequence.last_box_highlighted := 14.5%float; Sequence.boxes := demo_boxes;
     Sequence.correct := false |}.

(** The application waiting for the first click on [demo_sequence len]. *)
Definition demo_input (len : Z) : Application.t :=
  {| Application.screen_size := (800, 600); Application.text_input := "5"%string;
     Application.state := UserInput;
     Application.participant :=
       Some (Participant.set_corsi_span (len - 1) (Participant.__init__ 5));
     Application.sequence := demo_sequence len;
     Application.max_trials := 3; Application.trial_over := false;
     Application.max_participants := 20; Application.start_delay := 1;
     Application.trial_start := 10%float |}.

(** [demo_sequence len] scored as [correct], the feedback not yet shown. *)
Definition demo_scored (len : Z) (correct : bool) : Application.t :=
  Application.set_state Feedback
    (Application.set_sequence (Sequence.set_correct correct (demo_sequence len))
       (demo_input len)).

(** ** States of the example session *)

(** [demo_app] with a single trial configured. *)
Definition demo_app1 : Application.t :=
  {| Application.screen_size := (800, 600); Application.text_input := ""%string;
     Application.state := Participant_ID; Application.participant := None;
     Application.sequence := Sequence.__init__ (800, 600) demo_params;
     Application.max_trials := 1; Application.trial_over := false;
     Application.max_participants := 20; Application.start_delay := 1;
     Application.trial_start := float_of_Z 0 |}.

(** The state the main loop is in after [frames], started on [app] with the
    draws [demo_rng]. *)
Definition demo_run (app : Application.t) (frames : list frame_input) : Application.t :=
  match Application.start frames app demo_rng with
  | Ok ((s, _), _) => s
  | _ => app
  end.

(** The four frames in which the three boxes of the first sequence are
    shown. *)
Definition demo_presentation1 : list frame_input :=
  [tick 11.5%float; tick 13%float; tick 14.5%float; tick 16%float].

(** Participant 5 is logged in and reads the instructions. *)
Definition demo_instructed : Application.t :=
  Eval vm_compute in demo_run demo_app (firstn 2 demo_login).

(** The first sequence has been generated, no box is lit yet. *)
Definition demo_presenting : Application.t :=
  Eval vm_compute in demo_run demo_app demo_login.

(** The first sequence has been shown, no box is clicked yet. *)
Definition demo_collecting : Application.t :=
  Eval vm_compute in demo_run demo_app (demo_login ++ demo_presentation1).

(** The only trial of [demo_app1] is over, after two failed attempts. *)
Definition demo_finished : Application.t :=
  Eval vm_compute in
    demo_run demo_app1 (demo_login ++ demo_attempt1 ++ [demo_proceed] ++ demo_attempt2).

(** The three boxes of the first sequence, tapped in order. *)
Definition demo_taps : list (Z * Z) := [(75, 75); (275, 75); (75, 275)].

(** [demo_rng] with the draws of a third layout. *)
Definition race_rng : list Z := demo_rng ++ [200; 0; 0; 200; 200; 200].

(** One pass of the main loop that finds a click and a press of space in
    the event queue, in this order. *)
Definition click_then_space (pos : Z * Z) (t : float) : frame_input :=
  {| events := [MOUSEBUTTONUP pos; KEYDOWN K_SPACE " "]; event_time := t;
     show_time := at_time t |}.

(** The three boxes of the first sequence are tapped in order, the
    participant goes on, and the four boxes of the next sequence are
    presented. *)
Definition demo_success : list frame_input :=
  [click (75, 75) 17%float; click (275, 75) 17.5%float; click (75, 275) 18%float;
   press K_SPACE " " 18.5%float;
   tick 20%float; tick 21.5%float; tick 23%float; tick 24.5%float].



(** * Properties *)

(** ** Box layout *)

Section Layout.

Variable self : Sequence.t.

Lemma randint_range a b rng x rng' :
  randint a b rng = Ok (x, rng') -> a <= x <= b.
Proof.
  unfold randint. destruct (b <? a) eqn:E; [discriminate|].
  destruct rng as [|r rng0]; [discriminate|].
  intros [= <- <-]. apply Z.ltb_ge in E.
  pose proof (Z.mod_pos_bound r (b - a + 1)). lia.
Qed.

Lemma layout_inv_nil : layout_inv self [].
Proof. split; intros *; rewrite ?lookup_nil; intros; discriminate. Qed.

Lemma any_collision_false params c boxes :
  Sequence.any_collision params c boxes = Ok false ->
  forall a, In a boxes -> Sequence.collision_check params c a = Ok false.
Proof.
  induction boxes as [|b boxes IH]; simpl; intros H a Hin; [destruct Hin|].
  destruct (Sequence.collision_check params c b) as [[|]| |] eqn:E; simpl in H;
    try discriminate.
  destruct Hin as [<-|Hin]; [exact E|auto].
Qed.

Lemma layout_inv_snoc boxes c :
  layout_inv self boxes -> in_margin self c ->
  Sequence.any_collision (Sequence.box_parameters self) c boxes = Ok false ->
  layout_inv self (boxes ++ [c]).
Proof.
  intros [Hm Hc] Hin Hex. split.
  - intros i b Hi. apply lookup_app_Some in Hi as [Hi|[_ Hi]]; [eauto|].
    apply list_lookup_singleton_Some in Hi as [_ <-]. exact Hin.
  - intros i j a b Hij Hi Hj.
    apply lookup_app_Some in Hj as [Hj|[Hlen Hj]].
    + apply lookup_app_Some in Hi as [Hi|[Hlen _]]; [eauto|].
      apply lookup_lt_Some in Hj. lia.
    + apply list_lookup_singleton_Some in Hj as [Hj <-].
      apply lookup_app_Some in Hi as [Hi|[Hlen' _]]; [|lia].
      apply (any_collision_false _ _ _ Hex).
      apply list_elem_of_In, list_elem_of_lookup. eauto.
Qed.

Lemma generate_boxes_loop_inv fuel :
  forall i boxes rng out rng',
    i = Z.of_nat (List.length boxes) -> i <= n_boxes (Sequence.box_parameters self) ->
    layout_inv self boxes ->
    Sequence.generate_boxes_loop fuel self i boxes rng = Ok (out, rng') ->
    Z.of_nat (List.length out) = n_boxes (Sequence.box_parameters self) /\ layout_inv self out.
Proof.
  induction fuel as [|fuel IH]; intros i boxes rng out rng' Hi Hle Hinv; simpl;
    fold (Sequence.box_parameters self); destruct (i <? n_boxes (Sequence.box_parameters self)) eqn:E.
  - discriminate.
  - intros [= <- <-]. apply Z.ltb_ge in E. split; [lia|exact Hinv].
  - unfold rbind, rlift.
    destruct (randint _ _ rng) as [[x rng1]| |] eqn:Hx; try discriminate.
    destruct (randint _ _ rng1) as [[y rng2]| |] eqn:Hy; try discriminate.
    apply randint_range in Hx, Hy. apply Z.ltb_lt in E.
    destruct (Sequence.any_collision _ _ boxes) as [[|]| |] eqn:Hex; simpl;
      try discriminate.
    + apply IH; assumption.
    + apply IH.
      * rewrite length_app. simpl. lia.
      * lia.
      * apply layout_inv_snoc; [exact Hinv| |exact Hex].
        unfold in_margin; simpl. fold (Sequence.box_parameters self). lia.
  - intros [= <- <-]. apply Z.ltb_ge in E. split; [lia|exact Hinv].
Qed.

End Layout.

Lemma dist2_nonneg a b : 0 <= Sequence.dist2 a b.
Proof. unfold Sequence.dist2. nia. Qed.



(** *** The square root in binary64

    [PrimFloat.sqrt] is specified by [SFsqrt] on the mantissa and exponent.
    For an integer [n < m * m] with [m <= 2 ^ 26] the rounded root of [n]
    is still below [m]: the root is computed with 53 bits, [m] has at most
    27, and the gap between [sqrt (m * m - 1)] and [m] is more than one unit
    in the last place. *)

Lemma digits2_pos_size p : digits2_pos p = Pos.size p.
Proof. induction p; simpl; congruence. Qed.

Lemma digits2_pos_log2 p : Z.pos (digits2_pos p) = Z.succ (Z.log2 (Z.pos p)).
Proof. destruct p; simpl; rewrite ?digits2_pos_size; lia. Qed.

Lemma digits2_pos_bounds p :
  2 ^ (Z.pos (digits2_pos p) - 1) <= Z.pos p < 2 ^ Z.pos (digits2_pos p).
Proof.
  rewrite digits2_pos_log2. replace (Z.succ (Z.log2 (Z.pos p)) - 1) with (Z.log2 (Z.pos p)) by lia.
  apply Z.log2_spec. lia.
Qed.

Lemma digits2_pos_unique p d :
  2 ^ (d - 1) <= Z.pos p < 2 ^ d -> Z.pos (digits2_pos p) = d.
Proof.
  intros H. rewrite digits2_pos_log2.
  assert (0 < d). { destruct (Z.le_gt_cases d 0) as [Hd|Hd]; [|lia].
    assert (2 ^ d <= 2 ^ 0) by (apply Z.pow_le_mono_r; lia). simpl in *. lia. }
  rewrite (Z.log2_unique (Z.pos p) (d - 1)); [lia|lia|].
  replace (Z.succ (d - 1)) with d by lia. exact H.
Qed.

Lemma iter_xO p d : Z.pos (Pos.iter xO p d) = Z.pos p * 2 ^ Z.pos d.
Proof.
  induction d as [|d IH] using Pos.peano_ind.
  - simpl. lia.
  - rewrite Pos.iter_succ, Pos2Z.inj_succ, Z.pow_succ_r by lia.
    rewrite Pos2Z.inj_xO, IH. lia.
Qed.

Lemma fexp_same e : SpecFloat.emin prec emax <= e -> fexp prec emax (prec + e) = e.
Proof. unfold fexp, SpecFloat.emin, prec, emax. lia. Qed.

Lemma loc_of_shr_record_of_loc m l :
  loc_of_shr_record (shr_record_of_loc m l) = l /\ shr_m (shr_record_of_loc m l) = m.
Proof. destruct l as [|[| |]]; split; reflexivity. Qed.

Lemma shr_fexp_noshift (q : positive) e l :
  Z.pos (digits2_pos q) = prec -> SpecFloat.emin prec emax <= e ->
  shr_fexp prec emax (Z.pos q) e l = (shr_record_of_loc (Z.pos q) l, e).
Proof.
  intros Hd He. unfold shr_fexp. simpl Zdigits2. rewrite Hd, fexp_same by exact He.
  rewrite Z.sub_diag. reflexivity.
Qed.

(** Rounding a mantissa of full precision that stays below [2 ^ prec]. *)
Lemma binary_round_aux_full (q : positive) e l :
  Z.pos (digits2_pos q) = prec -> round_nearest_even (Z.pos q) l < 2 ^ prec ->
  SpecFloat.emin prec emax <= e <= emax - prec ->
  exists q1 : positive,
    binary_round_aux prec emax false (Z.pos q) e l = S754_finite false q1 e /\
    Z.pos q1 = round_nearest_even (Z.pos q) l.
Proof.
  intros Hd Hlt He. unfold binary_round_aux.
  rewrite shr_fexp_noshift by (auto; lia).
  destruct (loc_of_shr_record_of_loc (Z.pos q) l) as [-> ->].
  assert (Hq1 : exists q1 : positive, round_nearest_even (Z.pos q) l = Z.pos q1 /\
                  Z.pos (digits2_pos q1) = prec).
  { assert (Hb := digits2_pos_bounds q). rewrite Hd in Hb.
    assert (Hc : round_nearest_even (Z.pos q) l = Z.pos q \/
                 round_nearest_even (Z.pos q) l = Z.pos q + 1).
    { destruct l as [|[| |]]; unfold round_nearest_even; auto.
      destruct (Z.even (Z.pos q)); auto. }
    destruct Hc as [E|E]; rewrite E in *.
    - exists q. auto.
    - exists (q + 1)%positive. split; [lia|]. apply digits2_pos_unique. lia. }
  destruct Hq1 as (q1 & -> & Hd1).
  rewrite shr_fexp_noshift by (auto; lia). simpl shr_m.
  assert ((e <=? emax - prec) = true) as -> by (apply Z.leb_le; lia).
  exists q1. auto.
Qed.

Lemma normalize_small (p : positive) :
  Z.pos p < 2 ^ 52 ->
  exists mx ex,
    binary_normalize prec emax (Z.pos p) 0 false = S754_finite false mx ex /\
    Z.pos (digits2_pos mx) = prec /\ -52 <= ex <= -1 /\
    Z.pos mx = Z.pos p * 2 ^ (- ex).
Proof.
  intros Hp. unfold binary_normalize, binary_round.
  assert (Hb := digits2_pos_bounds p).
  set (d0 := Z.pos (digits2_pos p)) in *.
  assert (Hd0 : 1 <= d0 <= 52).
  { split; [subst d0; lia|].
    destruct (Z.le_gt_cases d0 52) as [H|H]; [exact H|].
    assert (2 ^ 52 <= 2 ^ (d0 - 1)) by (apply Z.pow_le_mono_r; lia). lia. }
  rewrite Z.add_0_r.
  assert (Hf : fexp prec emax d0 = d0 - 53) by (unfold fexp, SpecFloat.emin, prec, emax; lia).
  rewrite Hf. unfold shl_align. rewrite Z.sub_0_r.
  destruct (d0 - 53) as [|d|d] eqn:Hd; [lia|lia|].
  assert (Hm : Z.pos (Pos.iter xO p d) = Z.pos p * 2 ^ Z.pos d) by apply iter_xO.
  assert (Hdig : Z.pos (digits2_pos (Pos.iter xO p d)) = prec).
  { apply digits2_pos_unique. rewrite Hm. change prec with 53.
    assert (E1 : 2 ^ (53 - 1) = 2 ^ (d0 - 1) * 2 ^ Z.pos d)
      by (rewrite <- Z.pow_add_r by lia; f_equal; lia).
    assert (E2 : 2 ^ 53 = 2 ^ d0 * 2 ^ Z.pos d)
      by (rewrite <- Z.pow_add_r by lia; f_equal; lia).
    rewrite E1, E2.
    assert (0 < 2 ^ Z.pos d) by (apply Z.pow_pos_nonneg; lia). nia. }
  destruct (binary_round_aux_full (Pos.iter xO p d) (Z.neg d) loc_Exact Hdig)
    as (q1 & Hq1 & Hv).
  - assert (Hb2 := digits2_pos_bounds (Pos.iter xO p d)). rewrite Hdig in Hb2.
    simpl round_nearest_even. lia.
  - unfold SpecFloat.emin, prec, emax. lia.
  - simpl in Hv. exists q1, (Z.neg d). split; [exact Hq1|].
    assert (q1 = Pos.iter xO p d) by lia. subst q1.
    split; [exact Hdig|]. split; [lia|]. rewrite Hm. reflexivity.
Qed.

Lemma SFsqrt_below (mx : positive) (ex n m : Z) :
  Z.pos (digits2_pos mx) = prec -> -52 <= ex <= -1 ->
  Z.pos mx = n * 2 ^ (- ex) ->
  0 < m <= 2 ^ 26 -> n < m * m ->
  exists q1 e',
    SFsqrt prec emax (S754_finite false mx ex) = S754_finite false q1 e' /\
    e' < 0 /\ Z.pos q1 < m * 2 ^ (- e').
Proof.
  intros Hd Hex Hn Hm Hlt.
  unfold SFsqrt, SFsqrt_core_binary. simpl Zdigits2. rewrite Hd.
  set (k := Z.div2 (prec + ex + 1)).
  assert (Hk : exists b, (b = 0 \/ b = 1) /\ prec + ex + 1 = 2 * k + b).
  { exists (Z.b2z (Z.odd (prec + ex + 1))). split.
    - destruct (Z.odd _); auto.
    - apply Z.div2_odd. }
  destruct Hk as (b & Hb & Hk). unfold prec in Hk.
  assert (Hk2 : 1 <= k <= 26) by lia.
  assert (Hf : fexp prec emax k = k - 53)
    by (unfold fexp, SpecFloat.emin, prec, emax; lia).
  assert (Hdiv : -26 <= Z.div2 ex).
  { pose proof (Z.div2_odd ex). destruct (Z.odd ex); simpl Z.b2z in *; lia. }
  rewrite Hf, Z.min_l by lia.
  set (e' := k - 53) in *.
  assert (Hs : ex - 2 * e' = 52 + b) by (subst e'; lia).
  rewrite Hs.
  assert (Hshift : (match 52 + b with
                    | Z.pos _ => Z.shiftl (Z.pos mx) (52 + b)
                    | 0 => Z.pos mx
                    | Z.neg _ => 0
                    end) = Z.pos mx * 2 ^ (52 + b)).
  { destruct Hb as [-> | ->];
      [change (52 + 0) with 52|change (52 + 1) with 53]; cbv iota;
      rewrite Z.shiftl_mul_pow2; lia. }
  rewrite Hshift. clear Hshift.
  set (m' := Z.pos mx * 2 ^ (52 + b)).
  assert (HK : exists K, K = 2 ^ (- e') /\ 2 ^ 27 <= K /\ m' = n * (K * K)).
  { exists (2 ^ (- e')). split; [reflexivity|]. split.
    - apply Z.pow_le_mono_r; subst e'; lia.
    - subst m'. rewrite Hn. rewrite <- Z.mul_assoc, <- !Z.pow_add_r by (subst e'; lia).
      f_equal. f_equal. subst e'. lia. }
  destruct HK as (K & HKdef & HK & Hm').
  assert (Hb53 := digits2_pos_bounds mx). rewrite Hd in Hb53. unfold prec in Hb53.
  assert (Hrange : 2 ^ 104 <= m' < 2 ^ 106 /\ m' <= 2 ^ 106 - 2 ^ 53).
  { subst m'.
    destruct Hb as [-> | ->]; [change (52 + 0) with 52|change (52 + 1) with 53];
      change (2 ^ (53 - 1)) with 4503599627370496 in Hb53;
      change (2 ^ 53) with 9007199254740992 in *;
      change (2 ^ 52) with 4503599627370496;
      change (2 ^ 104) with 20282409603651670423947251286016;
      change (2 ^ 106) with 81129638414606681695789005144064; lia. }
  pose proof (Z.sqrtrem_spec m' ltac:(lia)) as Hsq.
  destruct (Z.sqrtrem m') as [q r]. destruct Hsq as [Hq Hr].
  change (2 ^ 104) with (4503599627370496 * 4503599627370496) in Hrange.
  change (2 ^ 106) with (9007199254740992 * 9007199254740992) in Hrange.
  change (2 ^ 53) with 9007199254740992 in Hrange.
  assert (Hq1 : 4503599627370496 <= q) by nia.
  assert (Hq2 : q < 9007199254740992) by nia.
  destruct q as [|qp|qp]; [lia| |lia].
  assert (Hdq : Z.pos (digits2_pos qp) = prec).
  { apply digits2_pos_unique. unfold prec.
    change (2 ^ (53 - 1)) with 4503599627370496.
    change (2 ^ 53) with 9007199254740992. lia. }
  set (l := if r =? 0 then loc_Exact
            else loc_Inexact (if r <=? Z.pos qp then Lt else Gt)).
  assert (Hround : (round_nearest_even (Z.pos qp) l = Z.pos qp) \/
                   (round_nearest_even (Z.pos qp) l = Z.pos qp + 1 /\ Z.pos qp < r)).
  { subst l. destruct (r =? 0); [left; reflexivity|].
    destruct (r <=? Z.pos qp) eqn:E; [left; reflexivity|].
    right. split; [reflexivity|]. apply Z.leb_gt in E. exact E. }
  assert (HqM : Z.pos qp < m * K) by nia.
  assert (Hfinal : round_nearest_even (Z.pos qp) l < m * K /\
                   round_nearest_even (Z.pos qp) l < 2 ^ prec).
  { unfold prec. change (2 ^ 53) with 9007199254740992.
    destruct Hround as [-> | [-> Hgt]]; [lia|].
    split.
    - destruct (Z.le_gt_cases (m * K) (Z.pos qp + 1)) as [Hge|]; [exfalso|lia].
      assert (Z.pos qp = m * K - 1) by lia.
      assert (m' <= (m * m - 1) * (K * K)) by nia.
      assert ((m * K - 1) * (m * K - 1) + m * K <= m') by nia.
      assert (K * K < m * K) by nia.
      change (2 ^ 27) with 134217728 in HK. change (2 ^ 26) with 67108864 in Hm.
      nia.
    - nia. }
  destruct Hfinal as [HfM Hf53].
  destruct (binary_round_aux_full qp e' l Hdq Hf53) as (q1 & Hres & Hq1v).
  { unfold SpecFloat.emin, prec, emax. subst e'. lia. }
  exists q1, e'. split; [exact Hres|]. split; [subst e'; lia|].
  rewrite Hq1v, <- HKdef. exact HfM.
Qed.

Lemma sqrt_of_int_below (n m : Z) :
  0 <= n -> 0 < m <= 2 ^ 26 -> n < m * m ->
  exists f, py_float_of_int n = Ok f /\ float_lt_int (PrimFloat.sqrt f) m = true.
Proof.
  intros Hn Hm Hlt. unfold py_float_of_int, float_lt_int.
  destruct n as [|p|p]; [| |lia].
  - simpl binary_normalize. eexists. split; [reflexivity|].
    rewrite sqrt_spec, Prim2SF_SF2Prim by reflexivity. simpl.
    apply Z.ltb_lt. lia.
  - assert (Hp : Z.pos p < 2 ^ 52).
    { change (2 ^ 52) with (67108864 * 67108864). change (2 ^ 26) with 67108864 in Hm. nia. }
    destruct (normalize_small p Hp) as (mx & ex & -> & Hd & Hex & Hv).
    eexists. split; [reflexivity|].
    assert (Hvalid : valid_binary (S754_finite false mx ex) = true).
    { unfold SpecFloat.valid_binary, SpecFloat.bounded, SpecFloat.canonical_mantissa.
      rewrite Hd, fexp_same by (unfold SpecFloat.emin, prec, emax; lia).
      rewrite Z.eqb_refl. apply Z.leb_le. unfold prec, emax. lia. }
    rewrite sqrt_spec, Prim2SF_SF2Prim by exact Hvalid.
    destruct (SFsqrt_below mx ex (Z.pos p) m Hd Hex Hv Hm Hlt) as (q1 & e' & Hs & He' & Hq).
    unfold SF64sqrt. rewrite Hs.
    assert ((0 <=? e') = false) as -> by (apply Z.leb_gt; lia).
    apply Z.ltb_lt. exact Hq.
Qed.

(** For a minimum distance up to [2 ^ 26] the binary64 test finds every pair
    that is closer than the minimum distance. *)
Lemma collision_check_small params a b :
  0 < min_dist params <= 2 ^ 26 ->
  Sequence.dist2 a b < min_dist params * min_dist params ->
  Sequence.collision_check params a b = Ok true.
Proof.
  intros Hm Hlt. unfold Sequence.collision_check.
  destruct (sqrt_of_int_below _ _ (dist2_nonneg a b) Hm Hlt) as (f & Hf & Hs).
  rewrite Hf. unfold obind. now rewrite Hs.
Qed.




(** ** Statistics *)

(** C9. For the span history [2, 3, 3] (as it stands after the guarded
    append), [update_statistics] stores mean 2.67 and standard deviation
    0.47, both rounded to two decimals, the deviation being taken around the
    rounded mean. *)
Theorem update_statistics_2_3_3 (p : Participant.t) :
  Participant.appended_spans p = [2; 3; 3] ->
  exists p', Participant.update_statistics p = Ok p' /\
             Participant.corsi_spans p' = [2; 3; 3] /\
             Participant.mean_corsi_span p' = 2.67%float /\
             Participant.std_corsi_span p' = 0.47%float /\
             Participant.std_corsi_span p' = Participant.std_of 2.67%float [2; 3; 3].
Proof.
  intros H. unfold Participant.update_statistics. rewrite H.
  eexists. split; [reflexivity|]. simpl.
  repeat split; vm_compute; reflexivity.
Qed.

(** ** Presentation *)

Lemma show_below_threshold trial_start start_delay self now :
  below_threshold trial_start start_delay self now ->
  Sequence.show trial_start start_delay now self = Ok (ShowSequence, self).
Proof.
  unfold below_threshold, Sequence.show. intros [H|[Hid H]].
  - now rewrite H.
  - destruct (float_gt (PrimFloat.sub (time1 now) trial_start) _); [|reflexivity].
    apply Z.eqb_neq in Hid. now rewrite Hid, H.
Qed.

(** C7. While the supplied times have not crossed the next threshold, any
    number of calls of [show] leaves the sequence (cursor, highlight flags,
    last-highlight time, everything else) as it was, and every call signals
    [ShowSequence]. *)
Theorem show_idempotent_below_threshold trial_start start_delay self nows :
  Forall (below_threshold trial_start start_delay self) nows ->
  show_repeatedly trial_start start_delay nows self =
    Ok (List.map (fun _ => ShowSequence) nows, self).
Proof.
  induction 1 as [|now nows Hnow _ IH]; [reflexivity|].
  simpl. rewrite (show_below_threshold _ _ _ _ Hnow). simpl. now rewrite IH.
Qed.

(** ** Identification *)

Section Identification.

Context {TI : TextInput}.

Lemma set_text_input_same (self : Application.t) :
  Application.set_text_input (Application.text_input self) self = self.
Proof. now destruct self. Qed.

(** C8. On the return key in the identification state the identifier is
    accepted exactly when the typed text parses as an integer in
    [1, max_participants]: then the participant is created and the state
    becomes [Instructions]; otherwise only the validation message is
    printed, and the application is as before apart from the text widget
    having seen the key event (nothing at all changes when the widget
    ignores the key). *)
Theorem handle_id_input_return (self : Application.t) (u : string) :
  let ev := KEYDOWN K_RETURN u in
  let typed := Application.set_text_input
                 (widget_update ev (Application.text_input self)) self in
  let text := get_text (Application.text_input typed) in
  let after := fst (Application.handle_id_input ev self) in
  (forall id, valid_id (Application.max_participants self) text id ->
     Application.handle_id_input ev self =
       (Application.set_state Instructions
          (Application.set_participant (Some (Participant.__init__ id)) typed), [])) /\
  ((forall id, ~ valid_id (Application.max_participants self) text id) ->
     Application.handle_id_input ev self =
       (typed, [Print_incorrect_id (Application.max_participants self)]) /\
     Application.state after = Application.state self /\
     Application.participant after = Application.participant self /\
     (widget_update ev (Application.text_input self) = Application.text_input self ->
      after = self)) /\
  (Application.state self = Participant_ID ->
   (Application.state after = Instructions <->
    exists id, valid_id (Application.max_participants self) text id)).
Proof.
  intros ev typed text after.
  assert (Hcases :
    (exists id, valid_id (Application.max_participants self) text id /\
       Application.handle_id_input ev self =
         (Application.set_state Instructions
            (Application.set_participant (Some (Participant.__init__ id)) typed), [])) \/
    ((forall id, ~ valid_id (Application.max_participants self) text id) /\
       Application.handle_id_input ev self =
         (typed, [Print_incorrect_id (Application.max_participants self)]))).
  { unfold Application.handle_id_input, valid_id. subst ev. cbv zeta. fold typed. fold text.
    destruct (PyInt.int text) as [id|] eqn:Hp.
    - destruct ((1 <=? id) && (id <=? Application.max_participants typed)) eqn:Hr.
      + left. exists id. split; [|reflexivity].
        apply andb_true_iff in Hr as [H1 H2]. apply Z.leb_le in H1, H2.
        split; [reflexivity|]. split; [exact H1|exact H2].
      + right. split; [|reflexivity]. intros id' [[= <-] [H1 H2]].
        apply andb_false_iff in Hr as [Hr|Hr]; apply Z.leb_gt in Hr;
          [lia|simpl in Hr; lia].
    - right. split; [|reflexivity]. intros id' [[=] _]. }
  split; [|split].
  - intros id [Hp Hr]. destruct Hcases as [(id' & [Hp' _] & Heq)|[Hno _]].
    + rewrite Heq. congruence.
    + exfalso. apply (Hno id). split; assumption.
  - intros Hno. destruct Hcases as [(id & Hv & _)|[_ Heq]].
    + exfalso. exact (Hno id Hv).
    + subst after. rewrite Heq. simpl. repeat split.
      intros Hw. subst typed. rewrite Hw. apply set_text_input_same.
  - intros Hst. subst after. destruct Hcases as [(id & Hv & Heq)|[Hno Heq]]; rewrite Heq; simpl.
    + split; [eauto|reflexivity].
    + rewrite Hst. split; [discriminate|]. intros [id Hv]. exfalso. exact (Hno id Hv).
Qed.

End Identification.

(** ** Feedback and the staircase *)

Section Staircase.

Context {TI : TextInput}.

Lemma appended_spans_nonempty p :
  0 < Participant.current_trial p -> Participant.appended_spans p <> [].
Proof.
  unfold Participant.appended_spans. intros Hct.
  destruct (_ <? _) eqn:E.
  - intros H. now apply app_eq_nil in H as [_ H].
  - apply Z.ltb_ge in E. intros H. rewrite H in E. simpl in E. lia.
Qed.

Lemma update_statistics_ok p :
  0 < Participant.current_trial p ->
  exists p', Participant.update_statistics p = Ok p' /\
             Participant.corsi_spans p' = Participant.appended_spans p /\
             Participant.corsi_span p' = Participant.corsi_span p /\
             Participant.current_trial p' = Participant.current_trial p /\
             Participant.errors p' = Participant.errors p /\
             Participant.clicks p' = Participant.clicks p.
Proof.
  intros Hct. apply appended_spans_nonempty in Hct.
  unfold Participant.update_statistics.
  destruct (Participant.appended_spans p) eqn:E; [congruence|].
  eexists. split; [reflexivity|]. simpl. repeat split.
Qed.

Lemma update_statistics_fields p p' :
  Participant.update_statistics p = Ok p' ->
  Participant.corsi_spans p' = Participant.appended_spans p /\
  Participant.corsi_span p' = Participant.corsi_span p /\
  Participant.current_trial p' = Participant.current_trial p /\
  Participant.errors p' = Participant.errors p /\
  Participant.clicks p' = Participant.clicks p /\
  Participant.mean_corsi_span p' = Participant.mean_of (Participant.appended_spans p) /\
  Participant.std_corsi_span p' =
    Participant.std_of (Participant.mean_of (Participant.appended_spans p))
                       (Participant.appended_spans p).
Proof.
  unfold Participant.update_statistics.
  destruct (Participant.appended_spans p) eqn:E; [discriminate|].
  intros [= <-]. simpl. repeat split.
Qed.

Lemma feedback_texts_message self p m :
  message (Application.feedback_texts self p m) = m.
Proof. unfold Application.feedback_texts. now repeat destruct (_ && _). Qed.

Lemma show_feedback_inv self self' screen :
  Application.show_feedback self = Ok (self', screen) ->
  exists p p1 over p2,
    Application.participant self = Some p /\
    verdict self p p1 over (message screen) /\
    (if over then Participant.update_statistics p1 = Ok p2 else p2 = p1) /\
    self' = Application.set_trial_over over (Application.set_participant (Some p2) self).
Proof.
  unfold Application.show_feedback, Application.the_participant.
  destruct (Application.participant self) as [p|] eqn:Hp; [|discriminate]. simpl.
  destruct (Sequence.correct (Application.sequence self)) eqn:Hc.
  - destruct (Sequence.length (Application.sequence self)) as [len|] eqn:Hl; [|discriminate].
    destruct (len =? _) eqn:He; simpl.
    + apply Z.eqb_eq in He.
      destruct (Participant.update_statistics _) as [p2| |] eqn:Hu; [|discriminate..].
      simpl. intros [= <- <-]. rewrite feedback_texts_message.
      exists p, (Participant.set_corsi_span len (Participant.set_errors 0 p)), true, p2.
      split; [reflexivity|]. split; [now apply verdict_won|]. split; [exact Hu|reflexivity].
    + apply Z.eqb_neq in He.
      destruct (Application.trial_over self) eqn:Ho.
      * destruct (Participant.update_statistics _) as [p2| |] eqn:Hu; [|discriminate..].
        simpl. intros [= <- <-]. rewrite feedback_texts_message.
        exists p, (Participant.set_corsi_span len (Participant.set_errors 0 p)), true, p2.
        split; [reflexivity|]. split; [now apply verdict_correct|].
        split; [exact Hu|reflexivity].
      * simpl. intros [= <- <-]. rewrite feedback_texts_message.
        exists p, (Participant.set_corsi_span len (Participant.set_errors 0 p)), false,
          (Participant.set_corsi_span len (Participant.set_errors 0 p)).
        split; [reflexivity|]. split; [now apply verdict_correct|].
        split; reflexivity.
  - destruct (Participant.errors p =? 1) eqn:He; simpl.
    + apply Z.eqb_eq in He. destruct (Application.trial_over self) eqn:Ho.
      * destruct (Participant.update_statistics _) as [p2| |] eqn:Hu; [|discriminate..].
        simpl. intros [= <- <-]. rewrite feedback_texts_message.
        exists p, p, true, p2.
        split; [reflexivity|]. split; [now apply verdict_retry|].
        split; [exact Hu|reflexivity].
      * simpl. intros [= <- <-]. rewrite feedback_texts_message.
        exists p, p, false, p.
        split; [reflexivity|]. split; [now apply verdict_retry|].
        split; reflexivity.
    + apply Z.eqb_neq in He.
      destruct (Participant.update_statistics _) as [p2| |] eqn:Hu; [|discriminate..].
      simpl. intros [= <- <-]. rewrite feedback_texts_message.
      exists p, p, true, p2.
      split; [reflexivity|]. split; [now apply verdict_finished|].
      split; [exact Hu|reflexivity].
Qed.

Lemma generate_inv len (q q' : Sequence.t) rng rng' :
  Sequence.generate len q rng = Ok (q', rng') ->
  exists boxes,
    Sequence.generate_boxes q rng = Ok (boxes, rng') /\
    Sequence.length q' = Some len /\
    Sequence.boxes q' = boxes /\
    Sequence.highlight_box_id q' = 0 /\
    Sequence.correct q' = Sequence.correct q /\
    Sequence.box_parameters q' = Sequence.box_parameters q /\
    Sequence.screen_size q' = Sequence.screen_size q.
Proof.
  unfold Sequence.generate, rbind, rret.
  destruct (Sequence.generate_boxes q rng) as [[boxes rng1]| |]; [|discriminate..].
  intros [= <- <-]. exists boxes. simpl. repeat split.
Qed.

Lemma generate_sequence_inv self rng self' rng' :
  Application.generate_sequence self rng = Ok (self', rng') ->
  exists p q,
    Application.participant self = Some p /\
    Sequence.generate (Participant.corsi_span p + 1) (Application.sequence self) rng
      = Ok (q, rng') /\
    self' = Application.set_participant (Some (Participant.set_clicks 0 p))
              (Application.set_state ShowSequence (Application.set_sequence q self)).
Proof.
  unfold Application.generate_sequence, rbind, rlift, rret, Application.the_participant.
  destruct (Application.participant self) as [p|]; [|discriminate]. simpl.
  destruct (Sequence.generate _ _ rng) as [[q rng1]| |] eqn:Hq; [|discriminate..].
  intros [= <- <-]. exists p, q. split; [reflexivity|]. split; [exact Hq|reflexivity].
Qed.

(** Pressing space on a feedback screen whose trial is not over starts the
    next sequence. *)
Lemma handle_feedback_input_proceed self u rng :
  Application.trial_over self = false ->
  Application.handle_feedback_input (KEYDOWN K_SPACE u) self rng =
    Application.generate_sequence self rng.
Proof.
  intros Ho. unfold Application.handle_feedback_input, rbind, rlift, rret.
  rewrite Ho. simpl. rewrite Ho. simpl. reflexivity.
Qed.

(** X22. [show_feedback] reports the won outcome exactly when the sequence
    was reproduced correctly and its length is [n_boxes]; it then sets
    [trial_over].  A correct sequence of another length and an incorrect
    sequence never give the win message. *)
Theorem won_iff_correct_full_length (self : Application.t) (p : Participant.t) :
  Application.participant self = Some p ->
  0 < Participant.current_trial p ->
  let full :=
    Sequence.correct (Application.sequence self) = true /\
    Sequence.length (Application.sequence self) =
      Some (n_boxes (Sequence.box_parameters (Application.sequence self))) in
  (full -> exists self' screen,
     Application.show_feedback self = Ok (self', screen) /\
     message screen = "Congratulations! You won!"%string /\
     Application.trial_over self' = true) /\
  (forall self' screen,
     Application.show_feedback self = Ok (self', screen) ->
     message screen = "Congratulations! You won!"%string -> full).
Proof.
  intros Hp Hct full. split.
  - intros [Hc Hl]. unfold Application.show_feedback, Application.the_participant.
    rewrite Hp. simpl. rewrite Hc, Hl, Z.eqb_refl. simpl.
    destruct (update_statistics_ok
                (Participant.set_corsi_span
                   (n_boxes (Sequence.box_parameters (Application.sequence self)))
                   (Participant.set_errors 0 p)) Hct) as (p2 & Hu & _).
    rewrite Hu. simpl. eexists _, _. split; [reflexivity|].
    split; [apply feedback_texts_message|reflexivity].
  - intros self' screen Hs Hm.
    apply show_feedback_inv in Hs as (p' & p1 & over & p2 & _ & Hv & _).
    rewrite Hm in Hv. inversion Hv; subst; try discriminate.
    split; assumption.
Qed.


End Staircase.

(** ** Clicks *)

Lemma clicked_count_unclick bs :
  clicked_count (List.map (Box.set_clicked false) bs) = 0%nat.
Proof. unfold clicked_count. induction bs as [|b bs IH]; simpl; auto. Qed.

Lemma clicked_count_alter_same (f : Box.t -> Box.t) j bs :
  (forall b, Box.clicked (f b) = Box.clicked b) ->
  clicked_count (alter f j bs) = clicked_count bs.
Proof.
  intros Hf. unfold clicked_count. revert j.
  induction bs as [|b bs IH]; intros [|j]; simpl; auto.
  - rewrite Hf. now destruct (Box.clicked b).
  - destruct (Box.clicked b); simpl; [f_equal|]; apply IH.
Qed.

Lemma clicked_count_alter_click j bs :
  clicked_count bs = 0%nat ->
  (clicked_count (alter (Box.set_clicked true) j bs) <= 1)%nat.
Proof.
  unfold clicked_count. revert j.
  induction bs as [|b bs IH]; intros [|j]; simpl; auto.
  - destruct (Box.clicked b); simpl; [discriminate|]. intros ->. auto.
  - destruct (Box.clicked b); simpl; [discriminate|]. apply IH.
Qed.

Lemma collidepoint_alter (f : Box.t -> Box.t) b p :
  Box.pos (f b) = Box.pos b -> Box.size (f b) = Box.size b ->
  Box.collidepoint (f b) p = Box.collidepoint b p.
Proof. unfold Box.collidepoint. now intros -> ->. Qed.

Section Clicks.

Context {TI : TextInput}.

Lemma boxes_after_hit_clicked j v bs : at_most_one_clicked (boxes_after_hit j v bs).
Proof.
  unfold at_most_one_clicked, boxes_after_hit.
  rewrite clicked_count_alter_same by reflexivity.
  apply clicked_count_alter_click, clicked_count_unclick.
Qed.

Lemma boxes_after_hit_lookup j v bs i b' :
  boxes_after_hit j v bs !! i = Some b' ->
  exists b, bs !! i = Some b /\ Box.pos b' = Box.pos b /\ Box.size b' = Box.size b /\
            (i <> j -> Box.clicked b' = false).
Proof.
  unfold boxes_after_hit. intros H.
  destruct (decide (i = j)) as [->|Hne].
  - rewrite list_lookup_alter_eq in H.
    rewrite list_lookup_alter_eq in H.
    rewrite list_lookup_fmap in H.
    destruct (bs !! j) as [b|]; [|discriminate]. simpl in H. injection H as <-.
    exists b. repeat split. congruence.
  - rewrite list_lookup_alter_ne in H by congruence.
    rewrite list_lookup_alter_ne in H by congruence.
    rewrite list_lookup_fmap in H.
    destruct (bs !! i) as [b|]; [|discriminate]. simpl in H. injection H as <-.
    exists b. repeat split.
Qed.

(** What one registered hit does (the three branches of the source). *)
Lemma click_box_inv j self self' :
  Application.click_box j self = Ok self' ->
  exists p expected,
    Application.participant self = Some p /\
    py_index (List.length (Sequence.boxes (Application.sequence self)))
             (Participant.clicks p) = Some expected /\
    let q := Application.sequence self in
    ((j = expected /\
      Sequence.length q = Some (Participant.clicks p + 1) /\
      self' = Application.set_state Feedback
                (Application.set_sequence
                   (Sequence.set_correct true
                      (Sequence.set_boxes (boxes_after_hit j true (Sequence.boxes q)) q))
                   self)) \/
     (j = expected /\
      Sequence.length q <> Some (Participant.clicks p + 1) /\
      self' = Application.set_participant
                (Some (Participant.set_clicks (Participant.clicks p + 1) p))
                (Application.set_sequence
                   (Sequence.set_boxes (boxes_after_hit j true (Sequence.boxes q)) q)
                   self)) \/
     (j <> expected /\
      self' = Application.set_participant
                (Some (Participant.set_errors (Participant.errors p + 1) p))
                (Application.set_state Feedback
                   (Application.set_sequence
                      (Sequence.set_correct false
                         (Sequence.set_boxes (boxes_after_hit j false (Sequence.boxes q)) q))
                      self)))).
Proof.
  unfold Application.click_box, Application.the_participant.
  destruct (Application.participant self) as [p|]; [|discriminate]. simpl.
  rewrite length_alter, length_map.
  destruct (py_index _ _) as [expected|] eqn:Hidx; [|discriminate].
  intros H. exists p, expected. split; [reflexivity|]. split; [exact Hidx|].
  cbv zeta. destruct (Nat.eqb_spec j expected) as [->|Hne].
  - destruct (Sequence.length (Application.sequence self)) as [len|]; [|discriminate].
    destruct (Participant.clicks p =? len - 1) eqn:E; injection H as <-.
    + left. apply Z.eqb_eq in E. split; [reflexivity|]. split; [f_equal; lia|reflexivity].
    + right. left. apply Z.eqb_neq in E. split; [reflexivity|].
      split; [intros [= ->]; lia|reflexivity].
  - injection H as <-. right. right. split; [exact Hne|reflexivity].
Qed.

Lemma click_loop_no_hit pos js (self : Application.t) :
  (forall j b, In j js ->
     Sequence.boxes (Application.sequence self) !! j = Some b ->
     Box.collidepoint b pos = true -> Box.clicked b = true) ->
  Application.click_loop pos js self = Ok self.
Proof.
  induction js as [|j js IH]; intros H; simpl; [reflexivity|].
  destruct (Sequence.boxes (Application.sequence self) !! j) as [b|] eqn:Hb.
  - destruct (Box.collidepoint b pos) eqn:Hc.
    + rewrite (H j b (or_introl eq_refl) Hb Hc). simpl.
      apply IH. intros; eapply H; eauto. now right.
    + simpl. apply IH. intros; eapply H; eauto. now right.
  - apply IH. intros; eapply H; eauto. now right.
Qed.

(** C4 (amended). A click whose position lies on no box that is not
    already marked clicked changes nothing at all; in particular a click on
    the box that is marked clicked at that moment, on a spot no other box
    covers, changes nothing. *)
Theorem click_on_no_unclicked_box_is_noop (self : Application.t) (pos : Z * Z) :
  ((forall j b, Sequence.boxes (Application.sequence self) !! j = Some b ->
      Box.collidepoint b pos = true -> Box.clicked b = true) ->
   Application.handle_user_input (MOUSEBUTTONUP pos) self = Ok self) /\
  (forall j b, Sequence.boxes (Application.sequence self) !! j = Some b ->
     Box.clicked b = true ->
     (forall i c, Sequence.boxes (Application.sequence self) !! i = Some c ->
        Box.collidepoint c pos = true -> i = j) ->
     Application.handle_user_input (MOUSEBUTTONUP pos) self = Ok self).
Proof.
  assert (Hnoop :
    (forall j b, Sequence.boxes (Application.sequence self) !! j = Some b ->
       Box.collidepoint b pos = true -> Box.clicked b = true) ->
    Application.handle_user_input (MOUSEBUTTONUP pos) self = Ok self).
  { intros H. simpl. apply click_loop_no_hit. intros j b _. apply H. }
  split; [exact Hnoop|].
  intros j b Hb Hclicked Honly. apply Hnoop.
  intros i c Hc Hcol. apply (Honly i c Hc) in Hcol as ->. congruence.
Qed.

Lemma click_box_clicked j (self self' : Application.t) :
  Application.click_box j self = Ok self' ->
  at_most_one_clicked (Sequence.boxes (Application.sequence self')).
Proof.
  intros H. apply click_box_inv in H as (p & e & _ & _ & H). cbv zeta in H.
  destruct H as [(_ & _ & ->)|[(_ & _ & ->)|(_ & ->)]]; simpl;
    apply boxes_after_hit_clicked.
Qed.

Lemma click_loop_clicked pos js :
  forall (self self' : Application.t),
    at_most_one_clicked (Sequence.boxes (Application.sequence self)) ->
    Application.click_loop pos js self = Ok self' ->
    at_most_one_clicked (Sequence.boxes (Application.sequence self')).
Proof.
  induction js as [|j js IH]; intros self self' Hinv; simpl.
  - now intros [= <-].
  - destruct (Sequence.boxes (Application.sequence self) !! j) as [b|]; [|now apply IH].
    destruct (Box.collidepoint b pos && negb (Box.clicked b)); [|now apply IH].
    destruct (Application.click_box j self) as [s1| |] eqn:Hc; simpl; [|discriminate..].
    apply IH. eapply click_box_clicked, Hc.
Qed.

Lemma handle_user_input_clicked ev (self self' : Application.t) :
  at_most_one_clicked (Sequence.boxes (Application.sequence self)) ->
  Application.handle_user_input ev self = Ok self' ->
  at_most_one_clicked (Sequence.boxes (Application.sequence self')).
Proof.
  destruct ev; simpl; try (now intros ? [= <-]). apply click_loop_clicked.
Qed.

End Clicks.

(** ** Runs of the application *)

Section Runs.

Context {TI : TextInput}.

Lemma started_inv s :
  started s ->
  Application.state s = Participant_ID /\ Application.participant s = None /\
  Application.trial_over s = false /\ Sequence.boxes (Application.sequence s) = [].
Proof.
  intros (sz & bp & d & mp & mt & H). unfold Application.__init__ in H.
  destruct (py_int_of_float d); [|discriminate..]. simpl in H.
  injection H as <-. repeat split.
Qed.

Lemma set_box_highlight_inv v i bs bs' :
  Sequence.set_box_highlight v i bs = Ok bs' ->
  exists k, bs' = alter (Box.set_highlight v) k bs.
Proof.
  unfold Sequence.set_box_highlight. destruct (py_index _ _) as [k|]; [|discriminate].
  intros [= <-]. now exists k.
Qed.

Lemma show_inv trial_start delay now q st q' :
  Sequence.show trial_start delay now q = Ok (st, q') ->
  (st = ShowSequence \/ st = UserInput) /\
  Sequence.length q' = Sequence.length q /\
  Sequence.correct q' = Sequence.correct q /\
  Sequence.box_parameters q' = Sequence.box_parameters q /\
  clicked_count (Sequence.boxes q') = clicked_count (Sequence.boxes q).
Proof.
  unfold Sequence.show.
  destruct (float_gt _ _); [|intros [= <- <-]; auto 6].
  destruct (Sequence.highlight_box_id q =? 0).
  - destruct (Sequence.set_box_highlight _ _ _) as [bs| |] eqn:H1; [|discriminate..].
    simpl. intros [= <- <-]. simpl.
    apply set_box_highlight_inv in H1 as [k ->].
    rewrite clicked_count_alter_same by reflexivity. auto 6.
  - destruct (float_gt _ _); [|intros [= <- <-]; auto 6].
    destruct (Sequence.length q) as [len|] eqn:Hl; [|discriminate].
    destruct (_ <? _).
    + destruct (Sequence.set_box_highlight false _ _) as [bs| |] eqn:H1; [|discriminate..].
      simpl.
      destruct (Sequence.set_box_highlight true _ _) as [bs'| |] eqn:H2; [|discriminate..].
      simpl. intros [= <- <-]. simpl.
      apply set_box_highlight_inv in H1 as [k ->].
      apply set_box_highlight_inv in H2 as [k' ->].
      rewrite !clicked_count_alter_same by reflexivity. auto 6.
    + destruct (Sequence.set_box_highlight false _ _) as [bs| |] eqn:H1; [|discriminate..].
      simpl. intros [= <- <-]. simpl.
      apply set_box_highlight_inv in H1 as [k ->].
      rewrite clicked_count_alter_same by reflexivity. auto 6.
Qed.

Lemma update_inv now s s' out :
  Application.update now s = Ok (s', out) ->
  match Application.state s with
  | Participant_ID | Instructions => s' = s
  | ShowSequence | UserInput =>
      exists st q',
        Sequence.show (Application.trial_start s) (Application.start_delay s) now
                      (Application.sequence s) = Ok (st, q') /\
        s' = Application.set_state st (Application.set_sequence q' s)
  | Feedback => exists screen, Application.show_feedback s = Ok (s', screen)
  end.
Proof.
  unfold Application.update. destruct (Application.state s).
  - now intros [= <- _].
  - now intros [= <- _].
  - destruct (Sequence.show _ _ _ _) as [[st q']| |]; [|discriminate..].
    simpl. intros [= <- _]. now exists st, q'.
  - destruct (Sequence.show _ _ _ _) as [[st q']| |]; [|discriminate..].
    simpl. intros [= <- _]. now exists st, q'.
  - destruct (Application.show_feedback s) as [[s1 screen]| |]; [|discriminate..].
    simpl. intros [= <- _]. now exists screen.
Qed.

Lemma handle_event_inv ev now s rng s' out rng' :
  Application.handle_event ev now s rng = Ok ((s', out), rng') ->
  match Application.state s with
  | Participant_ID => Application.handle_id_input ev s = (s', out) /\ rng' = rng
  | Instructions => Application.handle_instructions_input ev now s rng = Ok (s', rng')
  | ShowSequence => s' = s /\ rng' = rng
  | UserInput => Application.handle_user_input ev s = Ok s' /\ rng' = rng
  | Feedback => Application.handle_feedback_input ev s rng = Ok (s', rng')
  end.
Proof.
  unfold Application.handle_event.
  destruct (match ev with QUIT => true | KEYDOWN K_ESCAPE _ => true | _ => false end);
    [discriminate|].
  unfold rbind, rret, rlift. destruct (Application.state s).
  - now intros [= -> <-].
  - destruct (Application.handle_instructions_input _ _ _ _) as [[a r]| |];
      [|discriminate..]. now intros [= <- _ <-].
  - now intros [= <- _ <-].
  - destruct (Application.handle_user_input ev s) as [a| |]; [|discriminate..].
    simpl. now intros [= <- _ <-].
  - destruct (Application.handle_feedback_input _ _ _) as [[a r]| |];
      [|discriminate..]. now intros [= <- _ <-].
Qed.

Lemma handle_instructions_input_inv ev now s rng s' rng' :
  Application.handle_instructions_input ev now s rng = Ok (s', rng') ->
  (s' = s /\ rng' = rng) \/
  Application.generate_sequence (Application.set_trial_start now s) rng = Ok (s', rng').
Proof.
  unfold Application.handle_instructions_input, rbind, rlift, rret.
  destruct ev as [|[| | |] u| |]; try (intros [= <- <-]; now left).
  destruct (Application.the_participant s); [|discriminate..]. simpl. now right.
Qed.

Lemma handle_feedback_input_inv ev s rng s' rng' :
  Application.handle_feedback_input ev s rng = Ok (s', rng') ->
  (s' = s /\ rng' = rng) \/
  Application.generate_sequence s rng = Ok (s', rng') \/
  (exists p,
     Application.participant s = Some p /\ Application.trial_over s = true /\
     Participant.current_trial p < Application.max_trials s /\
     Application.generate_sequence
       (Application.set_trial_over false
          (Application.set_participant (Some (next_trial p)) s)) rng = Ok (s', rng')).
Proof.
  unfold Application.handle_feedback_input, rbind, rlift, rret.
  destruct ev as [|[| | |] u| |]; try (intros [= <- <-]; now left).
  destruct (Application.trial_over s) eqn:Ho.
  - unfold Application.the_participant at 1.
    destruct (Application.participant s) as [p|] eqn:Hp; [|discriminate]. simpl.
    destruct (Participant.current_trial p <? Application.max_trials s) eqn:Hlt; simpl.
    + intros H. right. right. exists p. apply Z.ltb_lt in Hlt.
      repeat split; assumption.
    + rewrite Ho. unfold Application.the_participant. rewrite Hp. simpl.
      destruct (Participant.current_trial p =? Application.max_trials s); simpl.
      * intros [= <- <-]. now left.
      * intros H. right. now left.
  - simpl. rewrite Ho. simpl. intros H. right. now left.
Qed.

Lemma generate_boxes_loop_unclicked (q : Sequence.t) fuel :
  forall i boxes rng out rng',
    clicked_count boxes = 0%nat ->
    Sequence.generate_boxes_loop fuel q i boxes rng = Ok (out, rng') ->
    clicked_count out = 0%nat.
Proof.
  induction fuel as [|fuel IH]; intros i boxes rng out rng' H0; simpl;
    destruct (i <? _).
  - discriminate.
  - now intros [= <- _].
  - unfold rbind.
    destruct (randint _ _ rng) as [[x rng1]| |]; try discriminate.
    destruct (randint _ _ rng1) as [[y rng2]| |]; try discriminate.
    unfold rlift.
    destruct (Sequence.any_collision _ _ boxes) as [[|]| |]; simpl; try discriminate.
    + now apply IH.
    + apply IH. unfold clicked_count in *.
      rewrite List.filter_app, length_app, H0. reflexivity.
  - now intros [= <- _].
Qed.

Lemma generate_sequence_unclicked s rng s' rng' :
  Application.generate_sequence s rng = Ok (s', rng') ->
  clicked_count (Sequence.boxes (Application.sequence s')) = 0%nat.
Proof.
  intros H. apply generate_sequence_inv in H as (p & q & _ & Hq & ->).
  apply generate_inv in Hq as (boxes & Hb & _ & <- & _). simpl.
  unfold Sequence.generate_boxes in Hb.
  eapply generate_boxes_loop_unclicked in Hb; [exact Hb|reflexivity].
Qed.

Lemma handle_id_input_sequence ev (s : Application.t) :
  Application.sequence (fst (Application.handle_id_input ev s)) = Application.sequence s.
Proof.
  unfold Application.handle_id_input.
  destruct ev as [|[| | |] u| |]; try reflexivity.
  destruct (PyInt.int _); [|reflexivity]. now destruct (_ && _).
Qed.

Lemma step_clicked s s' :
  step s s' ->
  at_most_one_clicked (Sequence.boxes (Application.sequence s)) ->
  at_most_one_clicked (Sequence.boxes (Application.sequence s')).
Proof.
  assert (Hfresh : forall a rng a' rng',
            Application.generate_sequence a rng = Ok (a', rng') ->
            at_most_one_clicked (Sequence.boxes (Application.sequence a'))).
  { intros a rng a' rng' H. apply generate_sequence_unclicked in H.
    unfold at_most_one_clicked. rewrite H. auto. }
  intros [ev now rng a a' out rng' H|now a a' out H] Hinv.
  - apply handle_event_inv in H. destruct (Application.state a).
    + destruct H as [H _]. rewrite <- (handle_id_input_sequence ev a), H in Hinv. exact Hinv.
    + apply handle_instructions_input_inv in H as [[-> _]|H]; [exact Hinv|eauto].
    + now destruct H as [-> _].
    + destruct H as [H _]. eapply handle_user_input_clicked; eauto.
    + apply handle_feedback_input_inv in H as [[-> _]|[H|(p & _ & _ & _ & H)]];
        [exact Hinv|eauto..].
  - apply update_inv in H. destruct (Application.state a).
    + now subst.
    + now subst.
    + destruct H as (st & q' & Hs & ->). simpl.
      apply show_inv in Hs as (_ & _ & _ & _ & Hc).
      unfold at_most_one_clicked. now rewrite Hc.
    + destruct H as (st & q' & Hs & ->). simpl.
      apply show_inv in Hs as (_ & _ & _ & _ & Hc).
      unfold at_most_one_clicked. now rewrite Hc.
    + destruct H as (screen & H).
      apply show_feedback_inv in H as (p & p1 & over & p2 & _ & _ & _ & ->). exact Hinv.
Qed.

(** C10. In every state a run passes through, at most one box of the
    current sequence is marked clicked, and handling a click keeps it so
    (every registered hit clears all flags before it marks its box). *)
Theorem at_most_one_box_clicked (s : Application.t) :
  reachable s ->
  at_most_one_clicked (Sequence.boxes (Application.sequence s)) /\
  (forall ev s', Application.handle_user_input ev s = Ok s' ->
                 at_most_one_clicked (Sequence.boxes (Application.sequence s'))).
Proof.
  intros Hr.
  assert (Hinv : at_most_one_clicked (Sequence.boxes (Application.sequence s))).
  { induction Hr as [s Hs|s s' _ IH Hstep].
    - apply started_inv in Hs as (_ & _ & _ & ->).
      unfold at_most_one_clicked, clicked_count. simpl. lia.
    - eapply step_clicked; eauto. }
  split; [exact Hinv|].
  intros ev s' H. eapply handle_user_input_clicked; eauto.
Qed.

Lemma handle_events_reachable now evs :
  forall s rng s' out rng',
    reachable s ->
    Application.handle_events evs now s rng = Ok ((s', out), rng') ->
    reachable s'.
Proof.
  induction evs as [|ev evs IH]; intros s rng s' out rng' Hr; simpl.
  - now intros [= <- _ _].
  - unfold rbind, rret.
    destruct (Application.handle_event ev now s rng) as [[[s1 o1] rng1]| |] eqn:H1;
      [|discriminate..]. simpl.
    destruct (Application.handle_events evs now s1 rng1) as [[[s2 o2] rng2]| |] eqn:H2;
      [|discriminate..]. simpl.
    intros [= <- _ _]. eapply IH; [|exact H2].
    eapply reach_step; [exact Hr|]. eapply step_event; exact H1.
Qed.

Lemma frame_reachable i s rng s' out rng' :
  reachable s -> Application.frame i s rng = Ok ((s', out), rng') -> reachable s'.
Proof.
  intros Hr H. unfold Application.frame, rbind, rret, rlift in H.
  destruct (Application.handle_events _ _ s rng) as [[[s1 o1] rng1]| |] eqn:H1;
    [|discriminate..]. simpl in H.
  destruct (Application.update _ s1) as [[s2 o2]| |] eqn:H2; [|discriminate..].
  simpl in H. injection H as <- _ _.
  eapply reach_step; [eapply handle_events_reachable; eauto|].
  eapply step_update; exact H2.
Qed.

(** Every state the main loop ends a frame in is reachable. *)
Lemma start_reachable frames :
  forall s rng s' out rng',
    reachable s -> Application.start frames s rng = Ok ((s', out), rng') ->
    reachable s'.
Proof.
  induction frames as [|i frames IH]; intros s rng s' out rng' Hr; simpl.
  - now intros [= <- _ _].
  - unfold rbind, rret.
    destruct (Application.frame i s rng) as [[[s1 o1] rng1]| |] eqn:H1;
      [|discriminate..]. simpl.
    destruct (Application.start frames s1 rng1) as [[[s2 o2] rng2]| |] eqn:H2;
      [|discriminate..]. simpl.
    intros [= <- _ _]. eapply IH; [|exact H2]. eapply frame_reachable; eauto.
Qed.

Lemma show_feedback_screen (s s' : Application.t) screen :
  Application.show_feedback s = Ok (s', screen) ->
  exists p2, Application.participant s' = Some p2 /\
             screen = Application.feedback_texts s' p2 (message screen).
Proof.
  unfold Application.show_feedback.
  destruct (Application.the_participant s) as [p| |]; [|discriminate..]. simpl.
  destruct (if Sequence.correct (Application.sequence s) then _ else _)
    as [[[p1 over] m]| |]; [|discriminate..]. simpl.
  destruct (if over then _ else _) as [p2| |]; [|discriminate..]. simpl.
  intros [= <- <-]. exists p2. split; [reflexivity|].
  now rewrite feedback_texts_message.
Qed.

Lemma update_statistics_again p p2 :
  Participant.update_statistics p = Ok p2 ->
  Participant.current_trial p2 <= Z.of_nat (List.length (Participant.corsi_spans p2)) ->
  Participant.update_statistics p2 = Ok p2.
Proof.
  intros Hu Hlen.
  destruct (update_statistics_fields _ _ Hu) as (Hs & _ & _ & _ & _ & Hm & Hd).
  assert (Participant.appended_spans p2 = Participant.corsi_spans p2) as Ha.
  { unfold Participant.appended_spans.
    destruct (_ <? _) eqn:E; [apply Z.ltb_lt in E; lia|reflexivity]. }
  assert (Participant.corsi_spans p2 <> []) as Hne.
  { rewrite Hs. unfold Participant.update_statistics in Hu.
    intros E. rewrite E in Hu. discriminate. }
  rewrite <- Hs in Hm, Hd.
  unfold Participant.update_statistics. rewrite Ha.
  destruct p2 as [id ct spans span cl er mean std]; simpl in *. subst mean std.
  destruct spans; [congruence|reflexivity].
Qed.

Lemma set_trial_over_participant_same (s : Application.t) p :
  Application.participant s = Some p ->
  Application.set_trial_over (Application.trial_over s)
    (Application.set_participant (Some p) s) = s.
Proof. destruct s; simpl. now intros ->. Qed.

Lemma set_span_errors_same p span errs :
  Participant.corsi_span p = span -> Participant.errors p = errs ->
  Participant.set_corsi_span span (Participant.set_errors errs p) = p.
Proof. destruct p; simpl. now intros -> ->. Qed.

(** Once [show_feedback] has ended the trial and the span is in the
    history, calling it again changes nothing and draws the same screen. *)
Lemma show_feedback_again (s s1 : Application.t) screen :
  Application.show_feedback s = Ok (s1, screen) ->
  Application.trial_over s1 = true ->
  (forall p1, Application.participant s1 = Some p1 ->
     Participant.current_trial p1 <= Z.of_nat (List.length (Participant.corsi_spans p1))) ->
  Application.show_feedback s1 = Ok (s1, screen).
Proof.
  intros Hs Ho Hlen.
  destruct (show_feedback_screen _ _ _ Hs) as (p2' & Hp2' & Hscreen).
  destruct (show_feedback_inv _ _ _ Hs) as (p & p1 & over & p2 & Hp & Hv & Hu & Hs1).
  assert (over = true) as -> by (subst s1; exact Ho).
  assert (Application.participant s1 = Some p2) as Hp2 by (subst s1; reflexivity).
  rewrite Hp2 in Hp2'. injection Hp2' as <-.
  specialize (Hlen p2 Hp2).
  pose proof (update_statistics_again _ _ Hu Hlen) as Hagain.
  destruct (update_statistics_fields _ _ Hu) as (_ & Hspan & _ & Herr & _).
  assert (Application.sequence s1 = Application.sequence s) as Hseq by (subst s1; reflexivity).
  assert (Hself : Application.set_trial_over true
                    (Application.set_participant (Some p2) s1) = s1).
  { rewrite <- Ho at 1. now apply set_trial_over_participant_same. }
  unfold Application.show_feedback, Application.the_participant.
  rewrite Hp2, Hseq. simpl.
  inversion Hv as [len Hc Hl He Hp1 Hov Hm|len ? Hc Hl He Hov Hp1 Hov' Hm
                   |? Hc He Hov Hp1 Hov' Hm|Hc He Hp1 Hov Hm].
  - rewrite Hc, Hl. subst len. rewrite Z.eqb_refl. simpl.
    rewrite set_span_errors_same by (rewrite ?Hspan, ?Herr; subst p1; reflexivity).
    rewrite Hagain. simpl. rewrite Hself. rewrite Hscreen. now rewrite <- Hm.
  - rewrite Hc, Hl. apply Z.eqb_neq in He. rewrite He. simpl.
    rewrite set_span_errors_same by (rewrite ?Hspan, ?Herr; subst p1; reflexivity).
    rewrite Ho. rewrite Hagain. simpl. rewrite Hself. rewrite Hscreen. now rewrite <- Hm.
  - rewrite Hc. subst p1. rewrite Herr, He. simpl.
    rewrite Ho. rewrite Hagain. simpl. rewrite Hself. rewrite Hscreen. now rewrite <- Hm.
  - rewrite Hc. subst p1. rewrite Herr. apply Z.eqb_neq in He. rewrite He. simpl.
    rewrite Hagain. simpl. rewrite Hself. rewrite Hscreen. now rewrite <- Hm.
Qed.

Lemma click_box_effect j s s' :
  Application.click_box j s = Ok s' ->
  exists p p', Application.participant s = Some p /\
               Application.participant s' = Some p' /\ click_effect s s' p p'.
Proof.
  intros H. apply click_box_inv in H as (p & e & Hp & _ & H). cbv zeta in H.
  destruct H as [(_ & _ & ->)|[(_ & _ & ->)|(_ & ->)]].
  - exists p, p. split; [exact Hp|]. split; [exact Hp|].
    constructor; simpl; auto; try lia.
  - exists p, (Participant.set_clicks (Participant.clicks p + 1) p).
    split; [exact Hp|]. split; [reflexivity|].
    constructor; simpl; auto; try lia.
  - exists p, (Participant.set_errors (Participant.errors p + 1) p).
    split; [exact Hp|]. split; [reflexivity|].
    constructor; simpl; auto; try lia.
Qed.

Lemma click_effect_trans s1 s2 s3 p1 p2 p3 :
  click_effect s1 s2 p1 p2 -> click_effect s2 s3 p2 p3 -> click_effect s1 s3 p1 p3.
Proof.
  intros [A1 A2 A3 A4 A5 A6 A7 A8] [B1 B2 B3 B4 B5 B6 B7 B8].
  constructor; try congruence; try lia.
  - destruct B3 as [B3|B3]; [rewrite B3; exact A3|now right].
  - intros Hst Hc. destruct (B8 Hst Hc) as [[Hst2 Hc2]|Hle]; [|right; lia].
    destruct (A8 Hst2 Hc2) as [H|Hle]; [now left|right; lia].
Qed.

Lemma click_loop_effect pos js :
  forall s s',
    Application.click_loop pos js s = Ok s' ->
    s' = s \/
    exists p p', Application.participant s = Some p /\
                 Application.participant s' = Some p' /\ click_effect s s' p p'.
Proof.
  induction js as [|j js IH]; intros s s'; simpl.
  - intros [= <-]. now left.
  - destruct (Sequence.boxes (Application.sequence s) !! j) as [b|]; [|apply IH].
    destruct (Box.collidepoint b pos && negb (Box.clicked b)); [|apply IH].
    destruct (Application.click_box j s) as [s1| |] eqn:Hc; simpl; [|discriminate..].
    intros H. right.
    apply click_box_effect in Hc as (p & p1 & Hp & Hp1 & He).
    apply IH in H as [->|(p1' & p' & Hp1' & Hp' & He')].
    + now exists p, p1.
    + rewrite Hp1 in Hp1'. injection Hp1' as <-.
      exists p, p'. split; [exact Hp|]. split; [exact Hp'|].
      eapply click_effect_trans; eauto.
Qed.

Lemma handle_user_input_effect ev s s' :
  Application.handle_user_input ev s = Ok s' ->
  s' = s \/
  exists p p', Application.participant s = Some p /\
               Application.participant s' = Some p' /\ click_effect s s' p p'.
Proof.
  destruct ev; simpl; try (intros [= <-]; now left). apply click_loop_effect.
Qed.

Lemma handle_id_input_cases ev (s s' : Application.t) out :
  Application.handle_id_input ev s = (s', out) ->
  Application.trial_over s' = Application.trial_over s /\
  ((Application.participant s' = Application.participant s /\
    Application.state s' = Application.state s) \/
   (exists id, Application.participant s' = Some (Participant.__init__ id) /\
               Application.state s' = Instructions)).
Proof.
  unfold Application.handle_id_input.
  destruct ev as [|[| | |] u| |]; try (intros [= <- _]; simpl; auto).
  destruct (PyInt.int _) as [id|]; [|intros [= <- _]; simpl; auto].
  destruct (_ && _); intros [= <- _]; simpl; eauto.
Qed.

Lemma show_feedback_history s s' screen :
  Application.show_feedback s = Ok (s', screen) -> history_inv s -> history_inv s'.
Proof.
  intros H Hinv.
  apply show_feedback_inv in H as (p & p1 & over & p2 & Hp & Hv & Hu & ->).
  unfold history_inv in *. rewrite Hp in Hinv. simpl.
  destruct Hinv as [Hst Hlen]. split; [exact Hst|].
  assert (Participant.corsi_spans p1 = Participant.corsi_spans p /\
          Participant.current_trial p1 = Participant.current_trial p /\
          (Application.trial_over s = true -> over = true)) as (Hs1 & Hc1 & Hov).
  { inversion Hv; subst; simpl; auto. }
  destruct over.
  - apply update_statistics_fields in Hu as (-> & _ & -> & _).
    unfold Participant.appended_spans. rewrite Hs1, Hc1.
    destruct (Application.trial_over s).
    + rewrite Hlen, Z.ltb_irrefl. exact Hlen.
    + destruct (_ <? _) eqn:E; [|apply Z.ltb_ge in E; lia].
      rewrite length_app. simpl. lia.
  - subst p2. rewrite Hs1, Hc1.
    destruct (Application.trial_over s); [now specialize (Hov eq_refl)|exact Hlen].
Qed.

Lemma step_history s s' : step s s' -> history_inv s -> history_inv s'.
Proof.
  assert (Hgen : forall a rng a' rng',
            Application.generate_sequence a rng = Ok (a', rng') ->
            history_inv a -> history_inv a').
  { intros a rng a' rng' H. apply generate_sequence_inv in H as (p & q & Hp & _ & ->).
    unfold history_inv. rewrite Hp. simpl. intros [_ H]. split; [discriminate|exact H]. }
  intros [ev now rng a a' out rng' H|now a a' out H] Hinv.
  - apply handle_event_inv in H. destruct (Application.state a) eqn:Hst.
    + destruct H as [H _]. apply handle_id_input_cases in H as [Ho H].
      unfold history_inv in *. rewrite Ho.
      destruct (Application.participant a) as [p|] eqn:Hp; [now destruct Hinv|].
      destruct H as [[-> _]|(id & -> & ->)]; [exact Hinv|].
      rewrite Hinv. simpl. split; [discriminate|reflexivity].
    + apply handle_instructions_input_inv in H as [[-> _]|H]; [exact Hinv|].
      eapply Hgen; [exact H|]. exact Hinv.
    + now destruct H as [-> _].
    + destruct H as [H _].
      apply handle_user_input_effect in H as [->|(p & p' & Hp & Hp' & He)];
        [exact Hinv|].
      unfold history_inv in *. rewrite Hp in Hinv. rewrite Hp'.
      destruct He as [E1 _ E3 E4 E5 _ _ _]. rewrite E1, E4, E5.
      split; [|apply Hinv]. destruct E3 as [->| ->]; congruence.
    + apply handle_feedback_input_inv in H as [[-> _]|[H|(p & Hp & Ho & _ & H)]];
        [exact Hinv|eauto|].
      eapply Hgen; [exact H|]. unfold history_inv in *. rewrite Hp, Ho in Hinv.
      simpl. split; [congruence|]. destruct Hinv as [_ ->]. lia.
  - apply update_inv in H. destruct (Application.state a) eqn:Hst.
    + now subst.
    + now subst.
    + destruct H as (st & q' & Hs & ->). apply show_inv in Hs as (Hs & _).
      unfold history_inv in *. simpl.
      destruct (Application.participant a); [|exact Hinv].
      split; [destruct Hs; congruence|apply Hinv].
    + destruct H as (st & q' & Hs & ->). apply show_inv in Hs as (Hs & _).
      unfold history_inv in *. simpl.
      destruct (Application.participant a); [|exact Hinv].
      split; [destruct Hs; congruence|apply Hinv].
    + destruct H as (screen & H). eapply show_feedback_history; eauto.
Qed.

Lemma reachable_history s : reachable s -> history_inv s.
Proof.
  induction 1 as [s Hs|s s' _ IH Hstep].
  - apply started_inv in Hs as (_ & Hp & Ho & _). unfold history_inv. now rewrite Hp.
  - eapply step_history; eauto.
Qed.

(** C5. When [show_feedback] ends a trial, the achieved span is appended to
    the history exactly once: however many times the routine runs while the
    feedback screen stays up, the state is the one after the first call, the
    history is the old one plus that span, and its length is the trial
    index. *)
Theorem span_appended_once (s s1 : Application.t) (p : Participant.t)
    (screen : feedback_screen) (n : nat) :
  reachable s ->
  Application.participant s = Some p ->
  Application.trial_over s = false ->
  Application.show_feedback s = Ok (s1, screen) ->
  Application.trial_over s1 = true ->
  show_feedback_times (S n) s = Ok s1 /\
  exists p1, Application.participant s1 = Some p1 /\
             Participant.corsi_spans p1 =
               Participant.corsi_spans p ++ [Participant.corsi_span p1] /\
             Z.of_nat (List.length (Participant.corsi_spans p1)) =
               Participant.current_trial p1.
Proof.
  intros Hr Hp Ho Hs Ho1.
  pose proof (reachable_history _ Hr) as Hinv.
  pose proof (show_feedback_history _ _ _ Hs Hinv) as Hinv1.
  destruct (show_feedback_inv _ _ _ Hs) as (p' & p1 & over & p2 & Hp' & Hv & Hu & Hs1).
  rewrite Hp in Hp'. injection Hp' as <-.
  assert (over = true) as -> by (subst s1; exact Ho1).
  assert (Application.participant s1 = Some p2) as Hp2 by (subst s1; reflexivity).
  unfold history_inv in Hinv, Hinv1. rewrite Hp in Hinv.
  rewrite Hp2, Ho1 in Hinv1. rewrite Ho in Hinv.
  destruct Hinv as [_ Hlen]. destruct Hinv1 as [_ Hlen1].
  split.
  - assert (Hagain : Application.show_feedback s1 = Ok (s1, screen)).
    { apply (show_feedback_again s); [exact Hs|exact Ho1|].
      intros q Hq. rewrite Hp2 in Hq. injection Hq as <-. lia. }
    simpl. rewrite Hs. simpl. clear - Hagain.
    induction n as [|n IH]; simpl; [reflexivity|]. now rewrite Hagain.
  - exists p2. split; [exact Hp2|]. split; [|exact Hlen1].
    destruct (update_statistics_fields _ _ Hu) as (Hspans & Hspan & _).
    rewrite Hspans, Hspan. unfold Participant.appended_spans.
    assert (Participant.corsi_spans p1 = Participant.corsi_spans p /\
            Participant.current_trial p1 = Participant.current_trial p) as [E1 E2].
    { inversion Hv; subst; simpl; auto. }
    rewrite E1, E2.
    destruct (_ <? _) eqn:E; [reflexivity|apply Z.ltb_ge in E; lia].
Qed.

Lemma handle_feedback_input_other ev s rng :
  (forall u, ev <> KEYDOWN K_SPACE u) ->
  Application.handle_feedback_input ev s rng = Ok (s, rng).
Proof.
  intros H. destruct ev as [|[| | |] u| |]; try reflexivity. now destruct (H u).
Qed.

Lemma handle_event_attempt k e len ev now s rng s' out rng' :
  (forall u, ev <> KEYDOWN K_SPACE u) ->
  Application.handle_event ev now s rng = Ok ((s', out), rng') ->
  attempt_inv k e len s -> attempt_inv k e len s' /\ rng' = rng.
Proof.
  intros Hev H (p & Hp & Hinv). apply handle_event_inv in H.
  destruct Hinv as [([Hst|Hst] & Hk & He & Ho & Hl)|[(Hst & Hrest)|(Hst & Hrest)]];
    rewrite Hst in H.
  - destruct H as [-> ->]. split; [|reflexivity]. exists p. split; [exact Hp|].
    left. auto.
  - destruct H as [H ->]. split; [|reflexivity].
    apply handle_user_input_effect in H as [->|(p0 & p' & Hp0 & Hp' & Heff)].
    + exists p. split; [exact Hp|]. left. auto.
    + rewrite Hp in Hp0. injection Hp0 as <-.
      destruct Heff as [E1 E2 E3 E4 E5 E6 E7 E8].
      exists p'. split; [exact Hp'|].
      destruct E3 as [E3|E3].
      * left. rewrite E3, E1, E2, E6. repeat split; auto. lia.
      * destruct (Sequence.correct (Application.sequence s')) eqn:Hc.
        -- right. right. auto.
        -- right. left. rewrite E2, E6. repeat split; auto.
           destruct (E8 E3 eq_refl) as [[Hst' _]|Hle]; [congruence|lia].
  - rewrite (handle_feedback_input_other _ _ _ Hev) in H. injection H as <- <-.
    split; [|reflexivity]. exists p. split; [exact Hp|]. right. left. auto.
  - rewrite (handle_feedback_input_other _ _ _ Hev) in H. injection H as <- <-.
    split; [|reflexivity]. exists p. split; [exact Hp|]. right. right. auto.
Qed.

Lemma handle_events_attempt k e len now evs :
  forall s rng s' out rng',
    Forall (fun ev => forall u, ev <> KEYDOWN K_SPACE u) evs ->
    Application.handle_events evs now s rng = Ok ((s', out), rng') ->
    attempt_inv k e len s -> attempt_inv k e len s' /\ rng' = rng.
Proof.
  induction evs as [|ev evs IH]; intros s rng s' out rng' Hevs; simpl.
  - intros [= <- _ <-]. auto.
  - inversion Hevs as [|? ? Hev Hevs']; subst. unfold rbind, rret.
    destruct (Application.handle_event ev now s rng) as [[[s1 o1] rng1]| |] eqn:H1;
      [|discriminate..]. simpl.
    destruct (Application.handle_events evs now s1 rng1) as [[[s2 o2] rng2]| |] eqn:H2;
      [|discriminate..]. simpl.
    intros [= <- _ <-] Hinv.
    destruct (handle_event_attempt _ _ _ _ _ _ _ _ _ _ Hev H1 Hinv) as [Hinv1 ->].
    eapply IH; eauto.
Qed.

Lemma update_attempt k e len now s s' out :
  Application.update now s = Ok (s', out) ->
  attempt_inv k e len s -> attempt_inv k e len s' /\ settled s'.
Proof.
  intros H (p & Hp & Hinv). apply update_inv in H.
  destruct Hinv as [([Hst|Hst] & Hk & He & Ho & Hl)
                   |[(Hst & Hc & Hk & He & Hl)|(Hst & Hc)]];
    rewrite Hst in H.
  - destruct H as (st & q' & Hs & ->). apply show_inv in Hs as (Hs & Hl' & _).
    split.
    + exists p. split; [exact Hp|]. left. simpl. rewrite Hl'. auto.
    + intros Hf. simpl in Hf. destruct Hs; congruence.
  - destruct H as (st & q' & Hs & ->). apply show_inv in Hs as (Hs & Hl' & _).
    split.
    + exists p. split; [exact Hp|]. left. simpl. rewrite Hl'. auto.
    + intros Hf. simpl in Hf. destruct Hs; congruence.
  - destruct H as (screen & H).
    apply show_feedback_inv in H as (p0 & p1 & over & p2 & Hp0 & Hv & Hu & ->).
    rewrite Hp in Hp0. injection Hp0 as <-.
    assert (p1 = p /\ (Participant.errors p = 1 \/ over = true)) as [-> Hov].
    { inversion Hv; subst; try congruence; auto. }
    assert (Participant.corsi_span p2 = Participant.corsi_span p /\
            Participant.errors p2 = Participant.errors p) as [Hk2 He2].
    { destruct over; [|now subst].
      now apply update_statistics_fields in Hu as (_ & ? & _ & ? & _). }
    split.
    + exists p2. split; [reflexivity|]. right. left. simpl.
      rewrite Hk2, He2. auto.
    + intros _ _ q Hq. simpl in Hq. injection Hq as <-. simpl.
      rewrite He2. exact Hov.
  - destruct H as (screen & H).
    apply show_feedback_inv in H as (p0 & p1 & over & p2 & Hp0 & Hv & Hu & ->).
    split.
    + exists p2. split; [reflexivity|]. right. right. simpl. auto.
    + intros _ Hc'. simpl in Hc'. congruence.
Qed.

Lemma frame_attempt k e len i s rng s' out rng' :
  no_proceed i ->
  Application.frame i s rng = Ok ((s', out), rng') ->
  attempt_inv k e len s -> (attempt_inv k e len s' /\ settled s') /\ rng' = rng.
Proof.
  intros Hi H Hinv. unfold Application.frame, rbind, rret, rlift in H.
  destruct (Application.handle_events _ _ s rng) as [[[s1 o1] rng1]| |] eqn:H1;
    [|discriminate..]. simpl in H.
  destruct (Application.update _ s1) as [[s2 o2]| |] eqn:H2; [|discriminate..].
  simpl in H. injection H as <- _ <-.
  destruct (handle_events_attempt _ _ _ _ _ _ _ _ _ _ Hi H1 Hinv) as [Hinv1 ->].
  split; [|reflexivity]. eapply update_attempt; eauto.
Qed.

Lemma start_attempt k e len frames :
  forall s rng s' out rng',
    Forall no_proceed frames ->
    Application.start frames s rng = Ok ((s', out), rng') ->
    attempt_inv k e len s /\ settled s ->
    (attempt_inv k e len s' /\ settled s') /\ rng' = rng.
Proof.
  induction frames as [|i frames IH]; intros s rng s' out rng' Hfs; simpl.
  - intros [= <- _ <-]. auto.
  - inversion Hfs as [|? ? Hi Hfs']; subst. unfold rbind, rret.
    destruct (Application.frame i s rng) as [[[s1 o1] rng1]| |] eqn:H1;
      [|discriminate..]. simpl.
    destruct (Application.start frames s1 rng1) as [[[s2 o2] rng2]| |] eqn:H2;
      [|discriminate..]. simpl.
    intros [= <- _ <-] [Hinv _].
    destruct (frame_attempt _ _ _ _ _ _ _ _ _ Hi H1 Hinv) as [Hinv1 ->].
    eapply IH; eauto.
Qed.

(** X21. When the feedback screen is shown before the participant goes on,
    two consecutive failed attempts at one span length end the trial and
    leave the span at the last confirmed value.  An attempt at length
    [corsi_span + 1] is under way; it fails (the frames up to the feedback
    screen contain any clicks and ticks, but no press of space) and the
    trial goes on; the participant presses space and a new sequence is
    presented; that attempt fails as well.  Then [trial_over] is set, the
    error counter has reached 2, and [corsi_span] is what it was before the
    two attempts, one less than the length that was failed. *)
Theorem two_failed_attempts_end_trial
    (s0 s1 s2 s3 : Application.t) (p0 : Participant.t)
    (attempt1 attempt2 : list frame_input) (proceed : frame_input) (u : string)
    (rng0 rng1 rng2 rng3 : list Z) (out1 out2 out3 : list output) :
  Application.participant s0 = Some p0 ->
  Application.state s0 = ShowSequence \/ Application.state s0 = UserInput ->
  Application.trial_over s0 = false ->
  0 <= Participant.errors p0 ->
  Sequence.length (Application.sequence s0) = Some (Participant.corsi_span p0 + 1) ->
  Forall no_proceed attempt1 ->
  Application.start attempt1 s0 rng0 = Ok ((s1, out1), rng1) ->
  Application.state s1 = Feedback ->
  Sequence.correct (Application.sequence s1) = false ->
  Application.trial_over s1 = false ->
  events proceed = [KEYDOWN K_SPACE u] ->
  Application.frame proceed s1 rng1 = Ok ((s2, out2), rng2) ->
  Forall no_proceed attempt2 ->
  Application.start attempt2 s2 rng2 = Ok ((s3, out3), rng3) ->
  Application.state s3 = Feedback ->
  Sequence.correct (Application.sequence s3) = false ->
  Application.trial_over s3 = true /\
  exists p3,
    Application.participant s3 = Some p3 /\
    Participant.corsi_span p3 = Participant.corsi_span p0 /\
    2 <= Participant.errors p3 /\
    Sequence.length (Application.sequence s1) = Some (Participant.corsi_span p0 + 1) /\
    Sequence.length (Application.sequence s3) = Some (Participant.corsi_span p0 + 1).
Proof.
  intros Hp0 Hst0 Ho0 He0 Hl0 Hfs1 Hrun1 Hst1 Hc1 Ho1 Hev Hproceed Hfs2 Hrun2 Hst3 Hc3.
  set (k := Participant.corsi_span p0) in *.
  (* the first attempt *)
  assert (Hinv0 : attempt_inv k 0 (Some (k + 1)) s0 /\ settled s0).
  { split.
    - exists p0. split; [exact Hp0|]. left. auto.
    - intros Hf. destruct Hst0; congruence. }
  destruct (start_attempt _ _ _ _ _ _ _ _ _ Hfs1 Hrun1 Hinv0)
    as [[(p1 & Hp1 & Hinv1) Hset1] _].
  destruct Hinv1 as [([Hst|Hst] & _)|[(_ & _ & Hk1 & He1 & Hl1)|(_ & Hc)]];
    try congruence.
  assert (Participant.errors p1 = 1) as Herr1.
  { destruct (Hset1 Hst1 Hc1 p1 Hp1) as [H|H]; [exact H|congruence]. }
  (* space: the next sequence is generated and shown *)
  unfold Application.frame, rbind, rret, rlift in Hproceed.
  rewrite Hev in Hproceed. simpl in Hproceed. unfold rbind, rret in Hproceed.
  destruct (Application.handle_event _ _ s1 rng1) as [[[s1' o] r]| |] eqn:Hsp;
    [|discriminate..].
  simpl in Hproceed.
  destruct (Application.update _ s1') as [[s2' o2]| |] eqn:Hup; [|discriminate..].
  simpl in Hproceed. injection Hproceed as <- _ <-.
  apply handle_event_inv in Hsp. rewrite Hst1 in Hsp.
  rewrite (handle_feedback_input_proceed _ _ _ Ho1) in Hsp.
  apply generate_sequence_inv in Hsp as (p1' & q & Hp1' & Hq & Hs1').
  rewrite Hp1 in Hp1'. injection Hp1' as <-.
  apply generate_inv in Hq as (boxes & _ & Hlq & _).
  assert (Hinv1' : attempt_inv k 1 (Some (k + 1)) s1').
  { exists (Participant.set_clicks 0 p1). subst s1'. split; [reflexivity|].
    left. simpl. rewrite Hlq, Hk1, Herr1. repeat split; auto; lia. }
  destruct (update_attempt _ _ _ _ _ _ _ Hup Hinv1') as [Hinv2 Hset2].
  (* the second attempt *)
  destruct (start_attempt _ _ _ _ _ _ _ _ _ Hfs2 Hrun2 (conj Hinv2 Hset2))
    as [[(p3 & Hp3 & Hinv3) Hset3] _].
  destruct Hinv3 as [([Hst|Hst] & _)|[(_ & _ & Hk3 & He3 & Hl3)|(_ & Hc)]];
    try congruence.
  split.
  - destruct (Hset3 Hst3 Hc3 p3 Hp3) as [H|H]; [lia|exact H].
  - exists p3. repeat split; auto; lia.
Qed.

End Runs.

(** ** Well-formed states *)

Lemma py_index_nonneg n i k :
  0 <= i -> py_index n i = Some k -> k = Z.to_nat i /\ i < Z.of_nat n.
Proof.
  unfold py_index. intros Hi.
  destruct ((0 <=? i) && (i <? Z.of_nat n)) eqn:E.
  - intros [= <-]. apply andb_true_iff in E as [_ E]. apply Z.ltb_lt in E. auto.
  - destruct ((- Z.of_nat n <=? i) && (i <? 0)) eqn:E'; [|discriminate].
    apply andb_true_iff in E' as [_ E']. apply Z.ltb_lt in E'. lia.
Qed.

Lemma py_index_in_range n i :
  0 <= i < Z.of_nat n -> py_index n i = Some (Z.to_nat i).
Proof.
  intros [H1 H2]. unfold py_index.
  apply Z.leb_le in H1. apply Z.ltb_lt in H2. now rewrite H1, H2.
Qed.

(** The four ways a call of [show] can go. *)
Lemma show_cases trial_start delay now q st q' :
  Sequence.show trial_start delay now q = Ok (st, q') ->
  (st = ShowSequence /\ q' = q) \/
  (st = ShowSequence /\ Sequence.highlight_box_id q = 0 /\
   exists k, py_index (List.length (Sequence.boxes q)) 0 = Some k /\
     q' = Sequence.set_cursor 1 (time2 now)
            (Sequence.set_boxes (alter (Box.set_highlight true) k (Sequence.boxes q)) q)) \/
  (st = ShowSequence /\ Sequence.highlight_box_id q <> 0 /\
   exists len k1 k2,
     Sequence.length q = Some len /\ Sequence.highlight_box_id q < len /\
     py_index (List.length (Sequence.boxes q)) (Sequence.highlight_box_id q - 1) = Some k1 /\
     py_index (List.length (Sequence.boxes q)) (Sequence.highlight_box_id q) = Some k2 /\
     q' = Sequence.set_cursor (Sequence.highlight_box_id q + 1) (time3 now)
            (Sequence.set_boxes
               (alter (Box.set_highlight true) k2
                  (alter (Box.set_highlight false) k1 (Sequence.boxes q))) q)) \/
  (st = UserInput /\ Sequence.highlight_box_id q <> 0 /\
   exists len k1,
     Sequence.length q = Some len /\ len <= Sequence.highlight_box_id q /\
     py_index (List.length (Sequence.boxes q)) (Sequence.highlight_box_id q - 1) = Some k1 /\
     q' = Sequence.set_boxes (alter (Box.set_highlight false) k1 (Sequence.boxes q)) q).
Proof.
  unfold Sequence.show, Sequence.set_box_highlight.
  destruct (float_gt _ _); [|intros [= <- <-]; auto].
  destruct (Sequence.highlight_box_id q =? 0) eqn:E0.
  - apply Z.eqb_eq in E0. rewrite E0.
    destruct (py_index _ 0) as [k|] eqn:Hk; [|discriminate]. simpl.
    intros [= <- <-]. right. left. repeat split; eauto.
  - apply Z.eqb_neq in E0.
    destruct (float_gt _ _); [|intros [= <- <-]; auto].
    destruct (Sequence.length q) as [len|]; [|discriminate].
    destruct (Sequence.highlight_box_id q <? len) eqn:El.
    + apply Z.ltb_lt in El.
      destruct (py_index _ (Sequence.highlight_box_id q - 1)) as [k1|] eqn:Hk1;
        [|discriminate]. simpl. rewrite length_alter.
      destruct (py_index _ (Sequence.highlight_box_id q)) as [k2|] eqn:Hk2;
        [|discriminate]. simpl.
      intros [= <- <-]. right. right. left. split; [reflexivity|]. split; [exact E0|].
      exists len, k1, k2. auto.
    + apply Z.ltb_ge in El.
      destruct (py_index _ (Sequence.highlight_box_id q - 1)) as [k1|] eqn:Hk1;
        [|discriminate]. simpl.
      intros [= <- <-]. right. right. right. split; [reflexivity|]. split; [exact E0|].
      exists len, k1. auto.
Qed.

Lemma lookup_alter_Some (f : Box.t -> Box.t) k (bs : list Box.t) i b' :
  alter f k bs !! i = Some b' ->
  exists b, bs !! i = Some b /\ ((i = k /\ b' = f b) \/ (i <> k /\ b' = b)).
Proof.
  destruct (decide (i = k)) as [->|Hne].
  - rewrite list_lookup_alter_eq. destruct (bs !! k) as [b|]; [|discriminate].
    simpl. intros [= <-]. eauto.
  - rewrite list_lookup_alter_ne by congruence. eauto.
Qed.

Lemma none_lit_is_lit q : none_lit (Sequence.boxes q) -> lit_before_cursor q.
Proof. intros H i b Hb Hl. rewrite (H i b Hb) in Hl. discriminate. Qed.

(** What a call of [show] keeps and establishes, on a sequence whose cursor
    is within the boxes and whose only lit box is the one before it. *)
Lemma show_sequence_facts trial_start delay now q st q' :
  Sequence.show trial_start delay now q = Ok (st, q') ->
  lit_before_cursor q ->
  0 <= Sequence.highlight_box_id q <= Z.of_nat (List.length (Sequence.boxes q)) ->
  List.length (Sequence.boxes q') = List.length (Sequence.boxes q) /\
  Sequence.highlight_box_id q <= Sequence.highlight_box_id q'
    <= Z.of_nat (List.length (Sequence.boxes q)) /\
  lit_before_cursor q' /\
  (st = UserInput ->
   exists len, Sequence.length q = Some len /\ len <= Sequence.highlight_box_id q' /\
               none_lit (Sequence.boxes q')) /\
  (forall len, Sequence.length q = Some len -> 3 <= len ->
     len <= Sequence.highlight_box_id q -> none_lit (Sequence.boxes q) ->
     Sequence.highlight_box_id q' = Sequence.highlight_box_id q /\
     none_lit (Sequence.boxes q')).
Proof.
  intros H Hlit Hcur.
  apply show_cases in H
    as [(-> & ->)|[(-> & H0 & k & Hk & ->)
                  |[(-> & H0 & len & k1 & k2 & Hl & Hlt & Hk1 & Hk2 & ->)
                   |(-> & H0 & len & k1 & Hl & Hge & Hk1 & ->)]]]; simpl.
  - split; [reflexivity|]. split; [lia|]. split; [exact Hlit|].
    split; [discriminate|]. auto.
  - apply py_index_nonneg in Hk as [-> Hk]; [|lia]. rewrite length_alter.
    split; [reflexivity|]. split; [lia|]. split.
    + intros i b' Hb' Hh. simpl in *.
      apply lookup_alter_Some in Hb' as (b & Hb & [[-> ->]|[Hne ->]]); [reflexivity|].
      specialize (Hlit i b Hb Hh). lia.
    + split; [discriminate|]. intros len Hl H3 Hge. lia.
  - apply py_index_nonneg in Hk1 as [-> Hk1]; [|lia].
    apply py_index_nonneg in Hk2 as [-> Hk2]; [|lia]. rewrite !length_alter.
    split; [reflexivity|]. split; [lia|]. split.
    + intros i b' Hb' Hh. simpl in *.
      apply lookup_alter_Some in Hb' as (b1 & Hb1 & [[-> ->]|[Hne ->]]); [lia|].
      apply lookup_alter_Some in Hb1 as (b & Hb & [[-> ->]|[Hne1 ->]]); [discriminate|].
      specialize (Hlit i b Hb Hh). lia.
    + split; [discriminate|]. intros len' Hl' H3 Hge. rewrite Hl in Hl'.
      injection Hl' as <-. lia.
  - apply py_index_nonneg in Hk1 as [-> Hk1]; [|lia]. rewrite length_alter.
    assert (Hnone : none_lit (alter (Box.set_highlight false)
                                (Z.to_nat (Sequence.highlight_box_id q - 1))
                                (Sequence.boxes q))).
    { intros i b' Hb'. destruct (Box.highlight b') eqn:Hh; [exfalso|reflexivity].
      apply lookup_alter_Some in Hb' as (b & Hb & [[-> ->]|[Hne ->]]); [discriminate|].
      specialize (Hlit i b Hb Hh). lia. }
    split; [reflexivity|]. split; [lia|]. split.
    + now apply none_lit_is_lit.
    + split; [intros _; exists len; auto|]. auto.
Qed.

Lemma boxes_after_hit_length j v bs :
  List.length (boxes_after_hit j v bs) = List.length bs.
Proof. unfold boxes_after_hit. now rewrite !length_alter, length_map. Qed.

Lemma boxes_after_hit_flags j v bs i b' :
  boxes_after_hit j v bs !! i = Some b' ->
  exists b, bs !! i = Some b /\
            Box.highlight b' = Box.highlight b /\
            Box.pos b' = Box.pos b /\ Box.size b' = Box.size b /\
            Box.clicked b' = (if decide (i = j) then true else false) /\
            (i = j -> Box.correct b' = v).
Proof.
  unfold boxes_after_hit. intros H.
  apply lookup_alter_Some in H as (b2 & H2 & Hb').
  apply lookup_alter_Some in H2 as (b1 & H1 & Hb2).
  rewrite list_lookup_fmap in H1.
  destruct (bs !! i) as [b|]; [|discriminate]. simpl in H1. injection H1 as <-.
  exists b. split; [reflexivity|].
  destruct Hb' as [[-> ->]|[Hne ->]]; destruct Hb2 as [[? ->]|[? ->]];
    try congruence; simpl; destruct (decide _); try congruence;
    repeat split; auto; congruence.
Qed.

Lemma boxes_after_hit_lookup_old j v bs i b :
  bs !! i = Some b -> exists b', boxes_after_hit j v bs !! i = Some b'.
Proof.
  intros H. apply lookup_lt_Some in H.
  rewrite <- (boxes_after_hit_length j v bs) in H.
  apply lookup_lt_is_Some in H as [b' H]. eauto.
Qed.

Lemma generate_boxes_loop_none_lit (q : Sequence.t) fuel :
  forall i boxes rng out rng',
    none_lit boxes ->
    Sequence.generate_boxes_loop fuel q i boxes rng = Ok (out, rng') ->
    none_lit out.
Proof.
  induction fuel as [|fuel IH]; intros i boxes rng out rng' H0; simpl;
    destruct (i <? _).
  - discriminate.
  - now intros [= <- _].
  - unfold rbind.
    destruct (randint _ _ rng) as [[x rng1]| |]; try discriminate.
    destruct (randint _ _ rng1) as [[y rng2]| |]; try discriminate.
    unfold rlift.
    destruct (Sequence.any_collision _ _ boxes) as [[|]| |]; simpl; try discriminate.
    + now apply IH.
    + apply IH. intros k b Hb.
      apply lookup_app_Some in Hb as [Hb|[_ Hb]]; [eauto|].
      apply list_lookup_singleton_Some in Hb as [_ <-]. reflexivity.
  - now intros [= <- _].
Qed.

Lemma generate_boxes_count (q : Sequence.t) rng boxes rng' :
  0 <= n_boxes (Sequence.box_parameters q) ->
  Sequence.generate_boxes q rng = Ok (boxes, rng') ->
  Z.of_nat (List.length boxes) = n_boxes (Sequence.box_parameters q) /\
  none_lit boxes.
Proof.
  intros Hn H. unfold Sequence.generate_boxes in H. split.
  - eapply generate_boxes_loop_inv in H as [H _];
      [exact H|reflexivity|exact Hn|apply layout_inv_nil].
  - eapply generate_boxes_loop_none_lit; [|exact H]. intros i b Hb.
    rewrite lookup_nil in Hb. discriminate.
Qed.

Lemma generate_boxes_none_lit (q : Sequence.t) rng boxes rng' :
  Sequence.generate_boxes q rng = Ok (boxes, rng') -> none_lit boxes.
Proof.
  intros H. eapply generate_boxes_loop_none_lit; [|exact H]. intros i b Hb.
  rewrite lookup_nil in Hb. discriminate.
Qed.

Section WellFormed.

Context {TI : TextInput}.

(** [participant_ok] reads only the configuration and [trial_over] of the
    application. *)
Lemma participant_ok_transfer (s s' : Application.t) p :
  Application.max_participants s' = Application.max_participants s ->
  Application.max_trials s' = Application.max_trials s ->
  Application.trial_over s' = Application.trial_over s ->
  Sequence.box_parameters (Application.sequence s') =
    Sequence.box_parameters (Application.sequence s) ->
  participant_ok s p -> participant_ok s' p.
Proof.
  intros E1 E2 E3 E4 [H1 H2 H3 H4 H5 H6 H7 H8 H9].
  constructor; try (rewrite ?E1, ?E2, ?E3, ?E4; assumption).
  unfold config_ok. rewrite ?E2, ?E3, ?E4. exact H9.
Qed.

Lemma participant_ok_clicks (s : Application.t) p v :
  0 <= v -> participant_ok s p -> participant_ok s (Participant.set_clicks v p).
Proof. intros Hv [H1 H2 H3 H4 H5 H6 H7 H8 H9]. constructor; auto. Qed.

Lemma participant_ok_errors (s : Application.t) p v :
  0 <= v -> participant_ok s p -> participant_ok s (Participant.set_errors v p).
Proof. intros Hv [H1 H2 H3 H4 H5 H6 H7 H8 H9]. constructor; auto. Qed.

Lemma participant_ok_init (s : Application.t) id :
  1 <= id <= Application.max_participants s ->
  Application.trial_over s = false ->
  participant_ok s (Participant.__init__ id).
Proof.
  intros Hid Ho. constructor; simpl; auto; try lia.
  - split; reflexivity.
  - intros [Hn Hm]. repeat split; try lia. constructor.
Qed.

Lemma generate_sequence_wf (a : Application.t) p rng s' rng' :
  Application.participant a = Some p -> participant_ok a p ->
  (config_ok a ->
   Participant.corsi_span p < n_boxes (Sequence.box_parameters (Application.sequence a))) ->
  Application.generate_sequence a rng = Ok (s', rng') -> wf s'.
Proof.
  intros Hp Hok Hspan H. apply generate_sequence_inv in H as (p' & q & Hp' & Hq & ->).
  rewrite Hp in Hp'. injection Hp' as <-.
  apply generate_inv in Hq as (boxes & Hb & Hl & Hbq & Hid & Hc & Hpar & Hsz).
  unfold wf. simpl. exists (Participant.set_clicks 0 p), (Participant.corsi_span p + 1).
  split; [reflexivity|]. pose proof (pk_span _ _ Hok) as H2. split.
  - apply participant_ok_clicks; [lia|].
    eapply participant_ok_transfer; [..|exact Hok]; simpl; auto.
  - constructor; simpl; try lia.
    + exact Hl.
    + apply none_lit_is_lit. rewrite Hbq. eapply generate_boxes_none_lit; eauto.
    + intros [?|?]; discriminate.
    + unfold config_ok. simpl. rewrite Hpar, Hbq. intros Hcfg.
      split; [specialize (Hspan Hcfg); lia|].
      eapply generate_boxes_count in Hb as [Hb _]; [exact Hb|].
      destruct Hcfg. lia.
Qed.

Lemma click_box_wf j (s s' : Application.t) :
  wf s ->
  Application.state s = UserInput \/ Application.state s = Feedback ->
  Application.click_box j s = Ok s' ->
  wf s' /\ (Application.state s' = UserInput \/ Application.state s' = Feedback).
Proof.
  intros Hwf Hst H.
  assert (exists p len, Application.participant s = Some p /\
                        participant_ok s p /\ sequence_ok s p len)
    as (p & len & Hp & Hok & Hseq).
  { unfold wf in Hwf. destruct Hst as [Hst|Hst]; rewrite Hst in Hwf; exact Hwf. }
  apply click_box_inv in H as (p0 & e & Hp0 & _ & H). cbv zeta in H.
  rewrite Hp in Hp0. injection Hp0 as <-.
  destruct Hseq as [K1 K2 K3 K4 K5 K6 K7].
  assert (Hlit : forall v,
            lit_before_cursor
              (Sequence.set_boxes
                 (boxes_after_hit j v (Sequence.boxes (Application.sequence s)))
                 (Application.sequence s))).
  { intros v i b' Hb' Hh. simpl in *.
    apply boxes_after_hit_flags in Hb' as (b & Hb & Hhl & _).
    apply (K5 i b Hb). congruence. }
  assert (Hnone : forall v,
            none_lit (Sequence.boxes (Application.sequence s)) ->
            none_lit (boxes_after_hit j v (Sequence.boxes (Application.sequence s)))).
  { intros v Hn i b' Hb'.
    apply boxes_after_hit_flags in Hb' as (b & Hb & Hhl & _).
    rewrite Hhl. eauto. }
  destruct (K6 Hst) as [K6a K6b].
  destruct H as [(_ & Hlen & ->)|[(_ & Hlen & ->)|(_ & ->)]].
  - split; [|now right]. unfold wf. simpl. exists p, len.
    split; [exact Hp|]. split.
    + eapply participant_ok_transfer; [..|exact Hok]; reflexivity.
    + constructor; simpl; rewrite ?boxes_after_hit_length; auto; exact (Hlit true).
  - split; [|exact Hst]. unfold wf. simpl.
    assert (Hw : exists p' len',
               Some (Participant.set_clicks (Participant.clicks p + 1) p) = Some p' /\
               participant_ok
                 (Application.set_participant
                    (Some (Participant.set_clicks (Participant.clicks p + 1) p))
                    (Application.set_sequence
                       (Sequence.set_boxes
                          (boxes_after_hit j true (Sequence.boxes (Application.sequence s)))
                          (Application.sequence s)) s)) p' /\
               sequence_ok
                 (Application.set_participant
                    (Some (Participant.set_clicks (Participant.clicks p + 1) p))
                    (Application.set_sequence
                       (Sequence.set_boxes
                          (boxes_after_hit j true (Sequence.boxes (Application.sequence s)))
                          (Application.sequence s)) s)) p' len').
    { exists (Participant.set_clicks (Participant.clicks p + 1) p), len.
      split; [reflexivity|]. pose proof (pk_clicks _ _ Hok). split.
      - apply participant_ok_clicks; [lia|].
        eapply participant_ok_transfer; [..|exact Hok]; reflexivity.
      - constructor; simpl; rewrite ?boxes_after_hit_length; auto;
          try exact (Hlit true).
        assert (Participant.clicks p + 1 <> len) by (intros <-; now apply Hlen).
        lia. }
    destruct Hst as [Hst|Hst]; rewrite Hst; exact Hw.
  - split; [|now right]. unfold wf. simpl.
    exists (Participant.set_errors (Participant.errors p + 1) p), len.
    split; [reflexivity|]. pose proof (pk_errors _ _ Hok). split.
    + apply participant_ok_errors; [lia|].
      eapply participant_ok_transfer; [..|exact Hok]; reflexivity.
    + constructor; simpl; rewrite ?boxes_after_hit_length; auto; exact (Hlit false).
Qed.

Lemma click_loop_wf pos js :
  forall (s s' : Application.t),
    wf s ->
    Application.state s = UserInput \/ Application.state s = Feedback ->
    Application.click_loop pos js s = Ok s' ->
    wf s' /\ (Application.state s' = UserInput \/ Application.state s' = Feedback).
Proof.
  induction js as [|j js IH]; intros s s' Hwf Hst; simpl.
  - intros [= <-]. auto.
  - destruct (Sequence.boxes (Application.sequence s) !! j) as [b|]; [|now apply IH].
    destruct (Box.collidepoint b pos && negb (Box.clicked b)); [|now apply IH].
    destruct (Application.click_box j s) as [s1| |] eqn:Hc; simpl; [|discriminate..].
    destruct (click_box_wf _ _ _ Hwf Hst Hc) as [Hwf1 Hst1]. now apply IH.
Qed.

Lemma show_wf now (s : Application.t) st q' :
  wf s ->
  Application.state s = ShowSequence \/ Application.state s = UserInput ->
  Sequence.show (Application.trial_start s) (Application.start_delay s) now
                (Application.sequence s) = Ok (st, q') ->
  wf (Application.set_state st (Application.set_sequence q' s)).
Proof.
  intros Hwf Hst H.
  assert (exists p len, Application.participant s = Some p /\
                        participant_ok s p /\ sequence_ok s p len)
    as (p & len & Hp & Hok & Hseq).
  { unfold wf in Hwf. destruct Hst as [Hst|Hst]; rewrite Hst in Hwf; exact Hwf. }
  destruct Hseq as [K1 K2 K3 K4 K5 K6 K7].
  destruct (show_inv _ _ _ _ _ _ H) as (Hstate & Hl & _ & Hpar & _).
  destruct (show_sequence_facts _ _ _ _ _ _ H K5 K4) as (F1 & F2 & F3 & F4 & F5).
  assert (Hw : exists p' len',
             Application.participant s = Some p' /\
             participant_ok (Application.set_state st (Application.set_sequence q' s)) p' /\
             sequence_ok (Application.set_state st (Application.set_sequence q' s)) p' len').
  { exists p, len. split; [exact Hp|]. split.
    - eapply participant_ok_transfer; [..|exact Hok]; simpl; auto.
    - constructor; simpl; rewrite ?F1, ?Hl; auto; try lia.
      + intros [-> | ->].
        * destruct (F4 eq_refl) as (len' & Hl' & Hge & Hn).
          rewrite K1 in Hl'. injection Hl' as <-. auto.
        * destruct Hstate; discriminate.
      + unfold config_ok. simpl. rewrite Hpar. exact K7. }
  unfold wf. simpl. destruct Hstate as [-> | ->]; exact Hw.
Qed.

Lemma update_statistics_participant_ok (s : Application.t) p p' :
  participant_ok s p -> Participant.update_statistics p = Ok p' -> participant_ok s p'.
Proof.
  intros [H1 H2 H3 H4 H5 H6 H7 H8 H9] Hu.
  unfold Participant.update_statistics in Hu.
  destruct (Participant.appended_spans p) as [|x xs] eqn:Ha; [discriminate|].
  injection Hu as <-.
  assert (Happ : Participant.appended_spans p = Participant.corsi_spans p \/
                 Participant.appended_spans p =
                   Participant.corsi_spans p ++ [Participant.corsi_span p]).
  { unfold Participant.appended_spans. destruct (_ <? _); auto. }
  constructor; simpl; auto.
  - rewrite <- Ha. destruct Happ as [->| ->]; [exact H5|].
    apply Forall_app. split; [exact H5|]. repeat constructor. exact H4.
  - unfold stats_consistent. simpl. auto.
  - intros Hcfg. destruct (H9 Hcfg) as (B1 & B2 & B3 & B4).
    repeat split; auto. rewrite <- Ha. destruct Happ as [->| ->]; [exact B4|].
    apply Forall_app. split; [exact B4|]. repeat constructor. exact B2.
Qed.

Lemma show_feedback_wf (s s' : Application.t) screen :
  wf s -> Application.state s = Feedback ->
  Application.show_feedback s = Ok (s', screen) -> wf s'.
Proof.
  intros Hwf Hst H. unfold wf in Hwf. rewrite Hst in Hwf.
  destruct Hwf as (p & len & Hp & Hok & Hseq).
  apply show_feedback_inv in H as (p0 & p1 & over & p2 & Hp0 & Hv & Hu & ->).
  rewrite Hp in Hp0. injection Hp0 as <-.
  destruct Hseq as [K1 K2 K3 K4 K5 K6 K7].
  set (s1 := Application.set_trial_over over (Application.set_participant (Some p2) s)).
  assert (Hcase :
    (p1 = p /\ (over = false -> Application.trial_over s = false)) \/
    (p1 = Participant.set_corsi_span len (Participant.set_errors 0 p) /\
     (over = false ->
      Application.trial_over s = false /\
      len <> n_boxes (Sequence.box_parameters (Application.sequence s))))).
  { inversion Hv as [l Hc Hl He E1 E2 E3|l o Hc Hl He Ho E1 E2 E3
                    |o Hc He Ho E1 E2 E3|Hc He E1 E2 E3].
    - right. rewrite K1 in Hl. injection Hl as Hl. rewrite <- Hl.
      split; [reflexivity|discriminate].
    - right. rewrite K1 in Hl. injection Hl as Hl. rewrite <- Hl in *.
      split; [reflexivity|]. intros ->. auto.
    - left. split; [reflexivity|]. intros ->. auto.
    - left. split; [reflexivity|discriminate]. }
  assert (Hok1 : participant_ok s1 p1 /\ Participant.clicks p1 = Participant.clicks p).
  { destruct Hok as [H1 H2 H3 H4 H5 H6 H7 H8 H9].
    destruct Hcase as [[-> Hov]|[-> Hov]]; (split; [|reflexivity]);
      constructor; simpl; auto; try lia.
    - intros Hcfg. destruct (H9 Hcfg) as (B1 & B2 & B3 & B4).
      repeat split; auto.
    - intros Hcfg. destruct (H9 Hcfg) as (B1 & B2 & B3 & B4).
      destruct (K7 Hcfg) as [B5 _]. repeat split; auto.
      intros Hf. destruct (Hov Hf) as [_ Hne]. lia. }
  destruct Hok1 as [Hok1 Hcl1].
  assert (Hok2 : participant_ok s1 p2 /\ Participant.clicks p2 = Participant.clicks p).
  { destruct over; [|subst p2; auto]. split.
    - eapply update_statistics_participant_ok; eauto.
    - apply update_statistics_fields in Hu as (_ & _ & _ & _ & -> & _). exact Hcl1. }
  destruct Hok2 as [Hok2 Hcl2].
  unfold wf. simpl. rewrite Hst. exists p2, len. split; [reflexivity|].
  split; [exact Hok2|]. constructor; simpl; auto. lia.
Qed.

Lemma handle_id_input_result ev (s s' : Application.t) out :
  Application.handle_id_input ev s = (s', out) ->
  let typed := Application.set_text_input
                 (widget_update ev (Application.text_input s)) s in
  s' = typed \/
  exists id, 1 <= id <= Application.max_participants s /\
             s' = Application.set_state Instructions
                    (Application.set_participant (Some (Participant.__init__ id)) typed).
Proof.
  unfold Application.handle_id_input.
  destruct ev as [|[| | |] u| |]; try (intros [= <- _]; simpl; auto).
  destruct (PyInt.int _) as [id|]; [|intros [= <- _]; simpl; auto].
  destruct (_ && _) eqn:E; intros [= <- _]; simpl; auto.
  right. exists id. apply andb_true_iff in E as [E1 E2].
  apply Z.leb_le in E1, E2. simpl in E2. auto.
Qed.

(** The ways a handled event can end in the [Feedback] state. *)
Lemma handle_feedback_input_cases ev (s : Application.t) rng s' rng' :
  Application.handle_feedback_input ev s rng = Ok (s', rng') ->
  (s' = s /\ rng' = rng) \/
  (Application.trial_over s = false /\
   Application.generate_sequence s rng = Ok (s', rng')) \/
  (exists p,
     Application.participant s = Some p /\ Application.trial_over s = true /\
     Application.max_trials s < Participant.current_trial p /\
     Application.generate_sequence s rng = Ok (s', rng')) \/
  (exists p,
     Application.participant s = Some p /\ Application.trial_over s = true /\
     Participant.current_trial p < Application.max_trials s /\
     Application.generate_sequence
       (Application.set_trial_over false
          (Application.set_participant (Some (next_trial p)) s)) rng = Ok (s', rng')).
Proof.
  unfold Application.handle_feedback_input, rbind, rlift, rret.
  destruct ev as [|[| | |] u| |]; try (intros [= <- <-]; now left).
  destruct (Application.trial_over s) eqn:Ho.
  - unfold Application.the_participant at 1.
    destruct (Application.participant s) as [p|] eqn:Hp; [|discriminate]. simpl.
    destruct (Participant.current_trial p <? Application.max_trials s) eqn:Hlt; simpl.
    + intros H. right. right. right. exists p. apply Z.ltb_lt in Hlt.
      repeat split; assumption.
    + rewrite Ho. unfold Application.the_participant. rewrite Hp. simpl.
      destruct (Participant.current_trial p =? Application.max_trials s) eqn:He; simpl.
      * intros [= <- <-]. now left.
      * intros H. right. right. left. exists p.
        apply Z.ltb_ge in Hlt. apply Z.eqb_neq in He.
        repeat split; auto. lia.
  - simpl. rewrite Ho. simpl. intros H. right. now left.
Qed.

Lemma step_wf (s s' : Application.t) : step s s' -> wf s -> wf s'.
Proof.
  intros [ev now rng a a' out rng' H|now a a' out H] Hwf.
  - apply handle_event_inv in H. destruct (Application.state a) eqn:Hst.
    + destruct H as [H _]. apply handle_id_input_result in H. cbv zeta in H.
      unfold wf in Hwf. rewrite Hst in Hwf. destruct Hwf as [Hp Ho].
      destruct H as [->|(id & Hid & ->)]; unfold wf; simpl.
      * rewrite Hst. auto.
      * split; [exact Ho|]. exists id. auto.
    + unfold wf in Hwf. rewrite Hst in Hwf. destruct Hwf as (Ho & id & Hp & Hid).
      apply handle_instructions_input_inv in H as [[-> _]|H].
      * unfold wf. rewrite Hst. eauto.
      * eapply generate_sequence_wf; [| |..|exact H].
        -- simpl. exact Hp.
        -- apply participant_ok_init; simpl; auto.
        -- intros [Hn _]. simpl in *. lia.
    + now destruct H as [-> _].
    + destruct H as [H _]. destruct ev; simpl in H; try (now injection H as <-).
      eapply click_loop_wf; eauto.
    + unfold wf in Hwf. rewrite Hst in Hwf.
      destruct Hwf as (p & len & Hp & Hok & Hseq).
      apply handle_feedback_input_cases in H
        as [[-> _]|[(Ho & H)|[(p0 & Hp0 & Ho & Hct & H)|(p0 & Hp0 & Ho & Hct & H)]]].
      * unfold wf. rewrite Hst. eauto.
      * eapply generate_sequence_wf; [exact Hp|exact Hok| |exact H].
        intros Hcfg. now apply (pk_bound _ _ Hok Hcfg).
      * rewrite Hp in Hp0. injection Hp0 as <-.
        eapply generate_sequence_wf; [exact Hp|exact Hok| |exact H].
        intros Hcfg. destruct (pk_bound _ _ Hok Hcfg) as (B1 & _). lia.
      * rewrite Hp in Hp0. injection Hp0 as <-.
        eapply generate_sequence_wf; [| |..|exact H].
        -- reflexivity.
        -- destruct Hok as [H1 H2 H3 H4 H5 H6 H7 H8 H9].
           constructor; simpl; auto; try lia.
           intros Hcfg. destruct (H9 Hcfg) as (B1 & B2 & B3 & B4).
           destruct Hcfg as [Hn Hm]. simpl in Hn. repeat split; auto; lia.
        -- intros [Hn _]. simpl in *. lia.
  - apply update_inv in H. destruct (Application.state a) eqn:Hst.
    + now subst.
    + now subst.
    + destruct H as (st & q' & Hs & ->). eapply show_wf; eauto.
    + destruct H as (st & q' & Hs & ->). eapply show_wf; eauto.
    + destruct H as (screen & H). eapply show_feedback_wf; eauto.
Qed.

Lemma reachable_wf (s : Application.t) : reachable s -> wf s.
Proof.
  induction 1 as [s Hs|s s' _ IH Hstep].
  - apply started_inv in Hs as (Hst & Hp & Ho & _). unfold wf. rewrite Hst. auto.
  - eapply step_wf; eauto.
Qed.

Lemma wf_participant_ok (s : Application.t) p :
  wf s -> Application.participant s = Some p -> participant_ok s p.
Proof.
  unfold wf. intros Hwf Hp. destruct (Application.state s).
  - destruct Hwf as [Hn _]. congruence.
  - destruct Hwf as (Ho & id & Hp' & Hid). rewrite Hp in Hp'. injection Hp' as ->.
    now apply participant_ok_init.
  - destruct Hwf as (p' & len & Hp' & Hok & _). congruence.
  - destruct Hwf as (p' & len & Hp' & Hok & _). congruence.
  - destruct Hwf as (p' & len & Hp' & Hok & _). congruence.
Qed.

Lemma wf_sequence_ok (s : Application.t) :
  wf s ->
  Application.state s <> Participant_ID -> Application.state s <> Instructions ->
  exists p len, Application.participant s = Some p /\ participant_ok s p /\
                sequence_ok s p len.
Proof. unfold wf. intros Hwf H1 H2. now destruct (Application.state s). Qed.

(** X1. The identifier of the participant is the accepted one, within
    [1, max_participants], in every state of a run. *)
Theorem participant_id_in_range (s : Application.t) (p : Participant.t) :
  reachable s -> Application.participant s = Some p ->
  1 <= Participant.participant_id p <= Application.max_participants s.
Proof.
  intros Hr Hp. exact (pk_id _ _ (wf_participant_ok _ _ (reachable_wf _ Hr) Hp)).
Qed.

(** X2. The span under test and every span in the history is at least 2;
    with at least three boxes and one trial configured, none exceeds the
    number of boxes. *)
Theorem recorded_spans_bounds (s : Application.t) (p : Participant.t) :
  reachable s -> Application.participant s = Some p ->
  2 <= Participant.corsi_span p /\
  Forall (fun x => 2 <= x) (Participant.corsi_spans p) /\
  (config_ok s ->
   Participant.corsi_span p <= n_boxes (Sequence.box_parameters (Application.sequence s)) /\
   Forall (fun x => x <= n_boxes (Sequence.box_parameters (Application.sequence s)))
          (Participant.corsi_spans p)).
Proof.
  intros Hr Hp. pose proof (wf_participant_ok _ _ (reachable_wf _ Hr) Hp) as Hok.
  split; [exact (pk_span _ _ Hok)|]. split; [exact (pk_spans _ _ Hok)|].
  intros Hcfg. destruct (pk_bound _ _ Hok Hcfg) as (_ & B2 & _ & B4). auto.
Qed.

(** X3. The trial index starts at 1 and never passes [max_trials] (it stays 1
    when fewer than one trial is configured), and the history never holds
    more spans than trials were started. *)
Theorem trial_index_bounds (s : Application.t) (p : Participant.t) :
  reachable s -> Application.participant s = Some p ->
  1 <= Participant.current_trial p <= Z.max 1 (Application.max_trials s) /\
  Z.of_nat (List.length (Participant.corsi_spans p)) <= Participant.current_trial p.
Proof.
  intros Hr Hp. pose proof (wf_participant_ok _ _ (reachable_wf _ Hr) Hp) as Hok.
  pose proof (pk_trial _ _ Hok). pose proof (pk_trial_max _ _ Hok).
  pose proof (reachable_history _ Hr) as Hh. unfold history_inv in Hh.
  rewrite Hp in Hh. destruct Hh as [_ Hh].
  split; [lia|]. destruct (Application.trial_over s); lia.
Qed.

(** X4. The mean and the standard deviation stored with the participant (and
    written to the CSV row) are always those of the stored span history. *)
Theorem statistics_match_history (s : Application.t) (p : Participant.t) :
  reachable s -> Application.participant s = Some p -> stats_consistent p.
Proof.
  intros Hr Hp. exact (pk_stats _ _ (wf_participant_ok _ _ (reachable_wf _ Hr) Hp)).
Qed.

(** X5. While a sequence is presented only the box just before the cursor
    can be drawn yellow; while input is collected or feedback is shown no
    box is yellow, and every box not marked clicked is blue. *)
Theorem box_colors (s : Application.t) (i : nat) (b : Box.t) :
  reachable s ->
  Application.state s <> Participant_ID -> Application.state s <> Instructions ->
  Sequence.boxes (Application.sequence s) !! i = Some b ->
  (Box.get_color b = Box.YELLOW ->
   Application.state s = ShowSequence /\
   Z.of_nat i = Sequence.highlight_box_id (Application.sequence s) - 1) /\
  (Application.state s = UserInput \/ Application.state s = Feedback ->
   Box.clicked b = false -> Box.get_color b = Box.BLUE).
Proof.
  intros Hr H1 H2 Hb.
  destruct (wf_sequence_ok _ (reachable_wf _ Hr) H1 H2) as (p & len & _ & _ & Hseq).
  destruct Hseq as [K1 K2 K3 K4 K5 K6 K7].
  assert (Hlit : Box.get_color b = Box.YELLOW -> Box.highlight b = true).
  { unfold Box.get_color. destruct (Box.highlight b); [reflexivity|].
    destruct (Box.clicked b); [destruct (Box.correct b)|]; discriminate. }
  split.
  - intros Hy. apply Hlit in Hy. split; [|exact (K5 i b Hb Hy)].
    destruct (Application.state s) eqn:Hst; try congruence.
    + destruct (K6 (or_introl eq_refl)) as [_ Hn]. rewrite (Hn i b Hb) in Hy. discriminate.
    + destruct (K6 (or_intror eq_refl)) as [_ Hn]. rewrite (Hn i b Hb) in Hy. discriminate.
  - intros Hst Hc. destruct (K6 Hst) as [_ Hn].
    unfold Box.get_color. now rewrite (Hn i b Hb), Hc.
Qed.

Lemma show_never_fails trial_start delay now q len :
  Sequence.length q = Some len -> 0 < len ->
  0 <= Sequence.highlight_box_id q <= Z.of_nat (List.length (Sequence.boxes q)) ->
  (Sequence.highlight_box_id q < len ->
   Sequence.highlight_box_id q < Z.of_nat (List.length (Sequence.boxes q))) ->
  exists st q', Sequence.show trial_start delay now q = Ok (st, q').
Proof.
  intros Hl Hpos Hcur Hlt. unfold Sequence.show, Sequence.set_box_highlight.
  destruct (float_gt _ _); [|eauto].
  destruct (Sequence.highlight_box_id q =? 0) eqn:E0.
  - apply Z.eqb_eq in E0. rewrite E0 in *.
    rewrite py_index_in_range by lia. simpl. eauto.
  - apply Z.eqb_neq in E0. destruct (float_gt _ _); [|eauto]. rewrite Hl.
    destruct (Sequence.highlight_box_id q <? len) eqn:El.
    + apply Z.ltb_lt in El. rewrite py_index_in_range by lia. simpl.
      rewrite length_alter. rewrite py_index_in_range by lia. simpl. eauto.
    + rewrite py_index_in_range by lia. simpl. eauto.
Qed.

Lemma show_feedback_never_fails (s : Application.t) :
  wf s -> Application.state s = Feedback ->
  exists s' screen, Application.show_feedback s = Ok (s', screen).
Proof.
  intros Hwf Hst. unfold wf in Hwf. rewrite Hst in Hwf.
  destruct Hwf as (p & len & Hp & Hok & Hseq).
  pose proof (pk_trial _ _ Hok) as Hct.
  unfold Application.show_feedback, Application.the_participant. rewrite Hp. simpl.
  rewrite (sk_length _ _ _ Hseq).
  assert (Hstat : forall p1, Participant.current_trial p1 = Participant.current_trial p ->
            exists p2, Participant.update_statistics p1 = Ok p2).
  { intros p1 E. destruct (update_statistics_ok p1) as (p2 & Hu & _); [lia|eauto]. }
  destruct (Sequence.correct (Application.sequence s)).
  - destruct (len =? _); simpl.
    + destruct (Hstat (Participant.set_corsi_span len (Participant.set_errors 0 p))
                  eq_refl) as [p2 ->]. simpl. eauto.
    + destruct (Application.trial_over s); simpl; [|eauto].
      destruct (Hstat (Participant.set_corsi_span len (Participant.set_errors 0 p))
                  eq_refl) as [p2 ->]. simpl. eauto.
  - destruct (Participant.errors p =? 1); simpl.
    + destruct (Application.trial_over s); simpl; [|eauto].
      destruct (Hstat p eq_refl) as [p2 ->]. simpl. eauto.
    + destruct (Hstat p eq_refl) as [p2 ->]. simpl. eauto.
Qed.

Lemma click_box_never_fails j (s : Application.t) :
  wf s ->
  Application.state s = UserInput \/ Application.state s = Feedback ->
  exists s', Application.click_box j s = Ok s'.
Proof.
  intros Hwf Hst.
  assert (exists p len, Application.participant s = Some p /\
                        participant_ok s p /\ sequence_ok s p len)
    as (p & len & Hp & Hok & Hseq).
  { unfold wf in Hwf. destruct Hst as [Hst|Hst]; rewrite Hst in Hwf; exact Hwf. }
  destruct Hseq as [K1 K2 K3 K4 K5 K6 K7]. destruct (K6 Hst) as [K6a _].
  pose proof (pk_clicks _ _ Hok).
  unfold Application.click_box, Application.the_participant. rewrite Hp. simpl.
  rewrite length_alter, length_map, py_index_in_range by lia.
  destruct (Nat.eqb _ _); [|eauto]. rewrite K1. destruct (_ =? _); eauto.
Qed.

Lemma click_loop_never_fails pos js :
  forall (s : Application.t),
    wf s ->
    Application.state s = UserInput \/ Application.state s = Feedback ->
    exists s', Application.click_loop pos js s = Ok s'.
Proof.
  induction js as [|j js IH]; intros s Hwf Hst; simpl; [eauto|].
  destruct (Sequence.boxes (Application.sequence s) !! j) as [b|]; [|now apply IH].
  destruct (Box.collidepoint b pos && negb (Box.clicked b)); [|now apply IH].
  destruct (click_box_never_fails j s Hwf Hst) as [s1 Hc]. rewrite Hc. simpl.
  destruct (click_box_wf _ _ _ Hwf Hst Hc) as [Hwf1 Hst1]. now apply IH.
Qed.

(** X6. While input is collected, handling an event never raises: the
    expected box always exists and the sequence length is set. *)
Theorem handle_user_input_never_fails (s : Application.t) (ev : event) :
  reachable s -> Application.state s = UserInput ->
  exists s', Application.handle_user_input ev s = Ok s'.
Proof.
  intros Hr Hst. destruct ev; simpl; eauto.
  apply click_loop_never_fails; [now apply reachable_wf|now left].
Qed.

Lemma update_never_fails now (s : Application.t) :
  wf s -> config_ok s -> exists s' out, Application.update now s = Ok (s', out).
Proof.
  intros Hwf Hcfg. unfold Application.update.
  assert (Hshow : Application.state s = ShowSequence \/ Application.state s = UserInput ->
            exists st q', Sequence.show (Application.trial_start s)
                            (Application.start_delay s) now (Application.sequence s)
                          = Ok (st, q')).
  { intros Hst.
    assert (exists p len, Application.participant s = Some p /\
                          participant_ok s p /\ sequence_ok s p len)
      as (p & len & Hp & Hok & Hseq).
    { unfold wf in Hwf. destruct Hst as [Hst|Hst]; rewrite Hst in Hwf; exact Hwf. }
    destruct Hseq as [K1 K2 K3 K4 K5 K6 K7]. destruct (K7 Hcfg) as [B1 B2].
    eapply show_never_fails; eauto; lia. }
  destruct (Application.state s) eqn:Hst; eauto.
  - destruct Hshow as (st & q' & ->); [now left|]. simpl. eauto.
  - destruct Hshow as (st & q' & ->); [now right|]. simpl. eauto.
  - destruct (show_feedback_never_fails s Hwf Hst) as (s' & screen & ->). simpl. eauto.
Qed.

Lemma click_loop_config pos js :
  forall (s s' : Application.t),
    Application.click_loop pos js s = Ok s' ->
    Sequence.box_parameters (Application.sequence s') =
      Sequence.box_parameters (Application.sequence s) /\
    Application.max_trials s' = Application.max_trials s.
Proof.
  induction js as [|j js IH]; intros s s'; simpl.
  - intros [= <-]. auto.
  - destruct (Sequence.boxes (Application.sequence s) !! j) as [b|]; [|apply IH].
    destruct (Box.collidepoint b pos && negb (Box.clicked b)); [|apply IH].
    destruct (Application.click_box j s) as [s1| |] eqn:Hc; simpl; [|discriminate..].
    intros H. apply IH in H as [-> ->].
    apply click_box_inv in Hc as (p & e & _ & _ & Hc). cbv zeta in Hc.
    destruct Hc as [(_ & _ & ->)|[(_ & _ & ->)|(_ & ->)]]; auto.
Qed.

(** No step changes the configuration. *)
Lemma step_config (s s' : Application.t) :
  step s s' ->
  Sequence.box_parameters (Application.sequence s') =
    Sequence.box_parameters (Application.sequence s) /\
  Application.max_trials s' = Application.max_trials s.
Proof.
  assert (Hgen : forall a rng a' rng',
            Application.generate_sequence a rng = Ok (a', rng') ->
            Sequence.box_parameters (Application.sequence a') =
              Sequence.box_parameters (Application.sequence a) /\
            Application.max_trials a' = Application.max_trials a).
  { intros a rng a' rng' H. apply generate_sequence_inv in H as (p & q & _ & Hq & ->).
    apply generate_inv in Hq as (boxes & _ & _ & _ & _ & _ & Hpar & _). simpl. auto. }
  intros [ev now rng a a' out rng' H|now a a' out H].
  - apply handle_event_inv in H. destruct (Application.state a).
    + destruct H as [H _]. apply handle_id_input_result in H. cbv zeta in H.
      destruct H as [->|(id & _ & ->)]; auto.
    + apply handle_instructions_input_inv in H as [[-> _]|H]; [auto|].
      apply Hgen in H. exact H.
    + destruct H as [-> _]. auto.
    + destruct H as [H _]. destruct ev; simpl in H; try (injection H as <-; auto).
      eapply click_loop_config; eauto.
    + apply handle_feedback_input_inv in H as [[-> _]|[H|(p & _ & _ & _ & H)]];
        [auto|now apply Hgen in H|now apply Hgen in H].
  - apply update_inv in H. destruct (Application.state a).
    + subst. auto.
    + subst. auto.
    + destruct H as (st & q' & Hs & ->). apply show_inv in Hs as (_ & _ & _ & Hp & _). auto.
    + destruct H as (st & q' & Hs & ->). apply show_inv in Hs as (_ & _ & _ & Hp & _). auto.
    + destruct H as (screen & H).
      apply show_feedback_inv in H as (p & p1 & over & p2 & _ & _ & _ & ->). auto.
Qed.

Lemma step_config_ok (s s' : Application.t) : step s s' -> config_ok s -> config_ok s'.
Proof.
  intros H. apply step_config in H as [E1 E2]. unfold config_ok. now rewrite E1, E2.
Qed.

Lemma handle_event_quiet ev now (s : Application.t) rng :
  wf s -> quiet ev ->
  exists s' out, Application.handle_event ev now s rng = Ok ((s', out), rng).
Proof.
  intros Hwf [Hq Hsp]. unfold Application.handle_event.
  replace (match ev with QUIT => true | KEYDOWN K_ESCAPE _ => true | _ => false end)
    with (is_quit ev) by reflexivity.
  rewrite Hq. unfold rbind, rret, rlift. destruct (Application.state s) eqn:Hst.
  - destruct (Application.handle_id_input ev s) as [a o]. eauto.
  - assert (Application.handle_instructions_input ev now s rng = Ok (s, rng)) as ->; eauto.
    destruct ev as [|[| | |] u| |]; try reflexivity. now destruct (Hsp u).
  - eauto.
  - destruct ev as [|k u|pos|]; simpl; eauto.
    destruct (click_loop_never_fails pos
                (seq 0 (List.length (Sequence.boxes (Application.sequence s)))) s Hwf
                (or_introl Hst)) as [s' ->]. simpl. eauto.
  - rewrite handle_feedback_input_other by exact Hsp. eauto.
Qed.

Lemma handle_events_quiet now evs :
  forall (s : Application.t) rng,
    reachable s -> Forall quiet evs ->
    exists s' out,
      Application.handle_events evs now s rng = Ok ((s', out), rng) /\ reachable s' /\
      (config_ok s -> config_ok s').
Proof.
  induction evs as [|ev evs IH]; intros s rng Hr Hq; simpl.
  - unfold rret. eauto.
  - inversion Hq as [|? ? Hev Hevs]; subst.
    destruct (handle_event_quiet ev now s rng (reachable_wf _ Hr) Hev) as (s1 & o1 & H1).
    assert (Hstep : step s s1) by (eapply step_event; exact H1).
    assert (Hr1 : reachable s1) by (eapply reach_step; eauto).
    destruct (IH s1 rng Hr1 Hevs) as (s2 & o2 & H2 & Hr2 & Hc2).
    unfold rbind, rret. rewrite H1. simpl. rewrite H2. simpl.
    eexists _, _. split; [reflexivity|]. split; [exact Hr2|].
    intros Hc. apply Hc2. eapply step_config_ok; eauto.
Qed.

(** X7. With at least three boxes and one trial configured, a frame whose
    events neither quit nor press space always completes, from every state
    of a run: no exception is raised and no random number is drawn. *)
Theorem quiet_frame_never_fails (s : Application.t) (i : frame_input) (rng : list Z) :
  reachable s -> config_ok s -> Forall quiet (events i) ->
  exists s' out, Application.frame i s rng = Ok ((s', out), rng).
Proof.
  intros Hr Hcfg Hq.
  destruct (handle_events_quiet (event_time i) (events i) s rng Hr Hq)
    as (s1 & o1 & H1 & Hr1 & Hc1).
  destruct (update_never_fails (show_time i) s1 (reachable_wf _ Hr1) (Hc1 Hcfg))
    as (s2 & o2 & H2).
  unfold Application.frame, rbind, rret, rlift. rewrite H1. simpl. rewrite H2. simpl.
  eauto.
Qed.

End WellFormed.

(** ** Quitting, the participant over a session, the terminal state *)

Section Sessions.

Context {TI : TextInput}.

Lemma handle_events_app now pre post (s : Application.t) rng :
  Application.handle_events (pre ++ post) now s rng =
    match Application.handle_events pre now s rng with
    | Ok ((s1, out1), rng1) =>
        match Application.handle_events post now s1 rng1 with
        | Ok ((s2, out2), rng2) => Ok ((s2, out1 ++ out2), rng2)
        | Raise e => Raise e
        | Hang => Hang
        end
    | Raise e => Raise e
    | Hang => Hang
    end.
Proof.
  revert s rng. induction pre as [|ev pre IH]; intros s rng; simpl.
  - unfold rret. destruct (Application.handle_events post now s rng) as [[[s2 o2] r2]| |];
      reflexivity.
  - unfold rbind, rret.
    destruct (Application.handle_event ev now s rng) as [[[s1 o1] r1]| |];
      [|reflexivity..]. simpl. rewrite IH.
    destruct (Application.handle_events pre now s1 r1) as [[[s2 o2] r2]| |];
      [|reflexivity..]. simpl.
    destruct (Application.handle_events post now s2 r2) as [[[s3 o3] r3]| |];
      [|reflexivity..]. simpl. now rewrite app_assoc.
Qed.

Lemma handle_event_quit ev now (s : Application.t) rng :
  is_quit ev = true ->
  Application.handle_event ev now s rng =
    Raise (SystemExit (option_map Participant.write_csv (Application.participant s))).
Proof.
  intros Hq. unfold Application.handle_event.
  replace (match ev with QUIT => true | KEYDOWN K_ESCAPE _ => true | _ => false end)
    with (is_quit ev) by reflexivity.
  now rewrite Hq.
Qed.

(** X8. A quit event (window close or escape) ends the run in whatever state
    it is handled: a batch that contains one never completes, the events
    after it are not handled, and when the events before it were handled
    without error the process exits having written the row of the
    participant as it then stands (no row when there is no participant). *)
Theorem quit_ends_the_run (pre post : list event) (ev : event) (now : float)
    (s : Application.t) (rng : list Z) :
  is_quit ev = true ->
  (forall r, Application.handle_events (pre ++ ev :: post) now s rng <> Ok r) /\
  (forall s1 out1 rng1,
     Application.handle_events pre now s rng = Ok ((s1, out1), rng1) ->
     Application.handle_events (pre ++ ev :: post) now s rng =
       Raise (SystemExit (option_map Participant.write_csv (Application.participant s1)))).
Proof.
  intros Hq.
  assert (Hrest : forall s1 rng1,
            Application.handle_events (ev :: post) now s1 rng1 =
              Raise (SystemExit (option_map Participant.write_csv
                                            (Application.participant s1)))).
  { intros s1 rng1. simpl. unfold rbind. now rewrite handle_event_quit. }
  split.
  - intros r. rewrite handle_events_app.
    destruct (Application.handle_events pre now s rng) as [[[s1 o1] r1]| |];
      [|discriminate..]. rewrite Hrest. discriminate.
  - intros s1 out1 rng1 H. rewrite handle_events_app, H, Hrest. reflexivity.
Qed.

Lemma steps_reachable (s s' : Application.t) : steps s s' -> reachable s -> reachable s'.
Proof.
  induction 1 as [|s s' s'' _ IH Hstep]; intros Hr; [exact Hr|].
  eapply reach_step; [apply IH; exact Hr|exact Hstep].
Qed.

Lemma click_loop_participant pos js :
  forall (s s' : Application.t) p,
    Application.click_loop pos js s = Ok s' ->
    Application.participant s = Some p ->
    exists p', Application.participant s' = Some p' /\
               Participant.participant_id p' = Participant.participant_id p /\
               Participant.corsi_spans p' = Participant.corsi_spans p /\
               Participant.current_trial p' = Participant.current_trial p.
Proof.
  induction js as [|j js IH]; intros s s' p; simpl.
  - intros [= <-] Hp. eauto.
  - destruct (Sequence.boxes (Application.sequence s) !! j) as [b|]; [|apply IH].
    destruct (Box.collidepoint b pos && negb (Box.clicked b)); [|apply IH].
    destruct (Application.click_box j s) as [s1| |] eqn:Hc; simpl; [|discriminate..].
    intros H Hp.
    apply click_box_inv in Hc as (p0 & e & Hp0 & _ & Hc). cbv zeta in Hc.
    rewrite Hp in Hp0. injection Hp0 as <-.
    destruct Hc as [(_ & _ & ->)|[(_ & _ & ->)|(_ & ->)]].
    + eapply IH in H; [|simpl; exact Hp]. exact H.
    + eapply IH in H; [|simpl; reflexivity]. exact H.
    + eapply IH in H; [|simpl; reflexivity]. exact H.
Qed.

Lemma update_statistics_id p p' :
  Participant.update_statistics p = Ok p' ->
  Participant.participant_id p' = Participant.participant_id p.
Proof.
  unfold Participant.update_statistics.
  destruct (Participant.appended_spans p); [discriminate|]. now intros [= <-].
Qed.

(** What one step does to an existing participant. *)
Lemma step_participant (s s' : Application.t) p :
  step s s' -> history_inv s -> Application.participant s = Some p ->
  exists p' more,
    Application.participant s' = Some p' /\
    Participant.participant_id p' = Participant.participant_id p /\
    Participant.corsi_spans p' = Participant.corsi_spans p ++ more /\
    Participant.current_trial p <= Participant.current_trial p'.
Proof.
  assert (Hsame : forall p', Participant.participant_id p' = Participant.participant_id p ->
            Participant.corsi_spans p' = Participant.corsi_spans p ->
            Participant.current_trial p <= Participant.current_trial p' ->
            forall a, Application.participant a = Some p' ->
            exists p'' more,
              Application.participant a = Some p'' /\
              Participant.participant_id p'' = Participant.participant_id p /\
              Participant.corsi_spans p'' = Participant.corsi_spans p ++ more /\
              Participant.current_trial p <= Participant.current_trial p'').
  { intros p' E1 E2 E3 a Ha. exists p', []. rewrite app_nil_r. auto. }
  assert (Hgen : forall a rng a' rng' pa,
            Application.generate_sequence a rng = Ok (a', rng') ->
            Application.participant a = Some pa ->
            Application.participant a' = Some (Participant.set_clicks 0 pa)).
  { intros a rng a' rng' pa H Ha.
    apply generate_sequence_inv in H as (p' & q & Hp' & _ & ->). simpl. congruence. }
  intros Hstep Hinv Hp. unfold history_inv in Hinv. rewrite Hp in Hinv.
  destruct Hinv as [Hst _].
  destruct Hstep as [ev now rng a a' out rng' H|now a a' out H].
  - apply handle_event_inv in H. destruct (Application.state a) eqn:Hsa; [congruence|..].
    + apply handle_instructions_input_inv in H as [[-> _]|H].
      * apply (Hsame p); auto; lia.
      * eapply Hgen in H; [|exact Hp]. apply (Hsame (Participant.set_clicks 0 p) eq_refl eq_refl); [simpl; lia|exact H].
    + destruct H as [-> _]. apply (Hsame p); auto; lia.
    + destruct H as [H _]. destruct ev; simpl in H;
        try (injection H as <-; apply (Hsame p); auto; lia).
      eapply click_loop_participant in H as (p' & Hp' & E1 & E2 & E3); [|exact Hp].
      apply (Hsame p'); auto; lia.
    + apply handle_feedback_input_inv in H as [[-> _]|[H|(p0 & Hp0 & _ & _ & H)]].
      * apply (Hsame p); auto; lia.
      * eapply Hgen in H; [|exact Hp]. apply (Hsame (Participant.set_clicks 0 p) eq_refl eq_refl); [simpl; lia|exact H].
      * rewrite Hp in Hp0. injection Hp0 as <-.
        eapply Hgen in H; [|reflexivity].
        apply (Hsame (Participant.set_clicks 0 (next_trial p)) eq_refl eq_refl);
          [simpl; lia|exact H].
  - apply update_inv in H. destruct (Application.state a) eqn:Hsa; [congruence|..].
    + subst. apply (Hsame p); auto; lia.
    + destruct H as (st & q' & _ & ->). apply (Hsame p); auto; lia.
    + destruct H as (st & q' & _ & ->). apply (Hsame p); auto; lia.
    + destruct H as (screen & H).
      apply show_feedback_inv in H as (p0 & p1 & over & p2 & Hp0 & Hv & Hu & ->).
      rewrite Hp in Hp0. injection Hp0 as <-.
      assert (Participant.participant_id p1 = Participant.participant_id p /\
              Participant.corsi_spans p1 = Participant.corsi_spans p /\
              Participant.current_trial p1 = Participant.current_trial p /\
              Participant.corsi_span p1 = Participant.corsi_span p1)
        as (E1 & E2 & E3 & _).
      { inversion Hv; subst; simpl; auto. }
      destruct over.
      * pose proof (update_statistics_id _ _ Hu) as Eid.
        apply update_statistics_fields in Hu as (Hs & _ & Hc & _).
        exists p2. unfold Participant.appended_spans in Hs.
        destruct (_ <? _).
        -- exists [Participant.corsi_span p1]. simpl.
           repeat split; try congruence. lia.
        -- exists []. rewrite app_nil_r. simpl. repeat split; try congruence. lia.
      * subst p2. exists p1, []. rewrite app_nil_r. simpl.
        repeat split; try congruence. lia.
Qed.

Lemma steps_trans (a b c : Application.t) : steps a b -> steps b c -> steps a c.
Proof.
  intros Hab Hbc. induction Hbc as [|b c d _ IH Hstep]; [exact Hab|].
  eapply steps_step; [apply IH; exact Hab|exact Hstep].
Qed.

Lemma handle_events_steps now evs :
  forall (s : Application.t) rng s' out rng',
    Application.handle_events evs now s rng = Ok ((s', out), rng') -> steps s s'.
Proof.
  induction evs as [|ev evs IH]; intros s rng s' out rng'; simpl.
  - intros [= <- _ _]. apply steps_refl.
  - unfold rbind, rret.
    destruct (Application.handle_event ev now s rng) as [[[s1 o1] rng1]| |] eqn:H1;
      [|discriminate..]. simpl.
    destruct (Application.handle_events evs now s1 rng1) as [[[s2 o2] rng2]| |] eqn:H2;
      [|discriminate..]. simpl.
    intros [= <- _ _]. eapply steps_trans; [|eapply IH; exact H2].
    eapply steps_step; [apply steps_refl|]. eapply step_event; exact H1.
Qed.

Lemma frame_steps i (s : Application.t) rng s' out rng' :
  Application.frame i s rng = Ok ((s', out), rng') -> steps s s'.
Proof.
  intros H. unfold Application.frame, rbind, rret, rlift in H.
  destruct (Application.handle_events _ _ s rng) as [[[s1 o1] rng1]| |] eqn:H1;
    [|discriminate..]. simpl in H.
  destruct (Application.update _ s1) as [[s2 o2]| |] eqn:H2; [|discriminate..].
  simpl in H. injection H as <- _ _.
  eapply steps_step; [eapply handle_events_steps; exact H1|].
  eapply step_update; exact H2.
Qed.

(** The main loop moves by steps. *)
Lemma start_steps frames :
  forall (s : Application.t) rng s' out rng',
    Application.start frames s rng = Ok ((s', out), rng') -> steps s s'.
Proof.
  induction frames as [|i frames IH]; intros s rng s' out rng'; simpl.
  - intros [= <- _ _]. apply steps_refl.
  - unfold rbind, rret.
    destruct (Application.frame i s rng) as [[[s1 o1] rng1]| |] eqn:H1;
      [|discriminate..]. simpl.
    destruct (Application.start frames s1 rng1) as [[[s2 o2] rng2]| |] eqn:H2;
      [|discriminate..]. simpl.
    intros [= <- _ _]. eapply steps_trans; [eapply frame_steps; exact H1|].
    eapply IH; exact H2.
Qed.

(** X9. Once a participant exists, every later state of the run has a
    participant with the same identifier, whose span history extends the
    earlier one (nothing recorded is dropped or changed) and whose trial
    index has not decreased. *)
Theorem participant_over_a_run (s s' : Application.t) (p : Participant.t) :
  reachable s -> steps s s' -> Application.participant s = Some p ->
  exists p' more,
    Application.participant s' = Some p' /\
    Participant.participant_id p' = Participant.participant_id p /\
    Participant.corsi_spans p' = Participant.corsi_spans p ++ more /\
    Participant.current_trial p <= Participant.current_trial p'.
Proof.
  intros Hr Hsteps Hp.
  induction Hsteps as [s|s s1 s2 Hsteps IH Hstep].
  - exists p, []. rewrite app_nil_r. repeat split; auto. lia.
  - destruct (IH Hr Hp) as (p1 & more1 & Hp1 & E1 & E2 & E3).
    pose proof (reachable_history _ (steps_reachable _ _ Hsteps Hr)) as Hinv.
    destruct (step_participant _ _ _ Hstep Hinv Hp1) as (p2 & more2 & Hp2 & F1 & F2 & F3).
    exists p2, (more1 ++ more2). rewrite app_assoc, <- E2.
    repeat split; try congruence. lia.
Qed.

Lemma step_terminal (s s' : Application.t) :
  step s s' -> history_inv s -> wf s -> terminal_inv s -> terminal_inv s'.
Proof.
  intros Hstep Hinv Hwf HT.
  pose proof (step_history _ _ Hstep Hinv) as Hinv'.
  pose proof (step_config _ _ Hstep) as [_ Hmax].
  assert (Hgen : forall a rng a' rng',
            Application.generate_sequence a rng = Ok (a', rng') ->
            Application.trial_over a' = Application.trial_over a /\
            Application.max_trials a' = Application.max_trials a /\
            exists pa, Application.participant a = Some pa /\
                       Application.participant a' = Some (Participant.set_clicks 0 pa)).
  { intros a rng a' rng' H.
    apply generate_sequence_inv in H as (pa & q & Hpa & _ & ->). simpl. eauto. }
  destruct Hstep as [ev now rng a a' out rng' H|now a a' out H].
  - apply handle_event_inv in H. destruct (Application.state a) eqn:Hst.
    + destruct H as [H _]. apply handle_id_input_cases in H as [Ho _].
      unfold wf in Hwf. rewrite Hst in Hwf. destruct Hwf as [_ Hf].
      intros Ht. congruence.
    + unfold wf in Hwf. rewrite Hst in Hwf. destruct Hwf as [Hf _].
      apply handle_instructions_input_inv in H as [[-> _]|H]; [exact HT|].
      apply Hgen in H as (Ho & _). simpl in Ho. intros Ht. congruence.
    + destruct H as [-> _]. exact HT.
    + destruct H as [H _]. apply handle_user_input_effect in H as [->|H]; [exact HT|].
      destruct H as (p & p' & Hp & Hp' & He).
      intros Ht q Hq Hct. rewrite Hp' in Hq. injection Hq as <-.
      destruct (HT (eq_trans (eq_sym (ce_trial_over _ _ _ _ He)) Ht) p Hp) as [Hf _].
      * rewrite <- (ce_trial _ _ _ _ He). congruence.
      * congruence.
    + apply handle_feedback_input_cases in H
        as [[-> _]|[[Hf H]|[(p & Hp & Ho & Hlt & H)|(p & Hp & Ho & Hlt & H)]]].
      * exact HT.
      * apply Hgen in H as (Ho & _). intros Ht. congruence.
      * apply Hgen in H as (_ & Hm & pa & Hpa & Hpa').
        rewrite Hp in Hpa. injection Hpa as <-.
        intros _ q Hq Hct. rewrite Hpa' in Hq. injection Hq as <-.
        simpl in Hct. lia.
      * apply Hgen in H as (Hf & _). simpl in Hf. intros Ht. congruence.
  - apply update_inv in H. destruct (Application.state a) eqn:Hst.
    + subst. exact HT.
    + subst. exact HT.
    + destruct H as (st & q' & _ & ->). intros Ht p Hp Hct. simpl in *.
      destruct (HT Ht p Hp Hct) as [Hf _]. congruence.
    + destruct H as (st & q' & _ & ->). intros Ht p Hp Hct. simpl in *.
      destruct (HT Ht p Hp Hct) as [Hf _]. congruence.
    + destruct H as (screen & H). intros Ht p Hp Hct. split.
      * apply show_feedback_inv in H as (p0 & p1 & over & p2 & _ & _ & _ & ->).
        simpl. exact Hst.
      * exists screen. eapply show_feedback_again; [exact H|exact Ht|].
        intros p1 Hp1. unfold history_inv in Hinv'. rewrite Hp1, Ht in Hinv'.
        destruct Hinv' as [_ E]. lia.
Qed.

Lemma reachable_terminal (s : Application.t) : reachable s -> terminal_inv s.
Proof.
  induction 1 as [s Hs|s s' Hr IH Hstep].
  - apply started_inv in Hs as (_ & _ & Ho & _). intros Ht. congruence.
  - eapply step_terminal; eauto using reachable_history, reachable_wf.
Qed.

(** X10. The end of the session is final.  Once the last trial is over (the
    trial-over flag is set and the trial index equals the configured number
    of trials) no event and no update changes the application any more:
    space does not start another sequence and the record stays as it is;
    only quitting remains. *)
Theorem last_trial_over_is_final (s s' : Application.t) (p : Participant.t) :
  reachable s ->
  Application.trial_over s = true ->
  Application.participant s = Some p ->
  Participant.current_trial p = Application.max_trials s ->
  step s s' -> s' = s.
Proof.
  intros Hr Ht Hp Hct Hstep.
  destruct (reachable_terminal _ Hr Ht p Hp Hct) as (Hst & screen & Hshow).
  destruct Hstep as [ev now rng a a' out rng' H|now a a' out H].
  - apply handle_event_inv in H. rewrite Hst in H.
    apply handle_feedback_input_cases in H
      as [[-> _]|[[Hf _]|[(q & Hq & _ & Hlt & _)|(q & Hq & _ & Hlt & _)]]].
    + reflexivity.
    + congruence.
    + rewrite Hp in Hq. injection Hq as <-. lia.
    + rewrite Hp in Hq. injection Hq as <-. lia.
  - apply update_inv in H. rewrite Hst in H. destruct H as (screen' & H).
    rewrite Hshow in H. now injection H as <-.
Qed.

(** ** Clicks on exactly one box *)

Lemma click_box_boxes j (s s' : Application.t) :
  Application.click_box j s = Ok s' ->
  exists v, Sequence.boxes (Application.sequence s') =
              boxes_after_hit j v (Sequence.boxes (Application.sequence s)).
Proof.
  intros H. apply click_box_inv in H as (p & e & _ & _ & H). cbv zeta in H.
  destruct H as [(_ & _ & ->)|[(_ & _ & ->)|(_ & ->)]]; simpl; eauto.
Qed.

Lemma collidepoint_same b b' pos :
  Box.pos b' = Box.pos b -> Box.size b' = Box.size b ->
  Box.collidepoint b' pos = Box.collidepoint b pos.
Proof. unfold Box.collidepoint. now intros -> ->. Qed.

Lemma hits_only_after_hit pos i j v bs :
  hits_only pos i bs -> hits_only pos i (boxes_after_hit j v bs).
Proof.
  intros [(b & Hb & Hc) Hu]. split.
  - destruct (boxes_after_hit_lookup_old j v bs i b Hb) as (b' & Hb').
    exists b'. split; [exact Hb'|].
    apply boxes_after_hit_flags in Hb' as (b0 & Hb0 & _ & E1 & E2 & _).
    rewrite Hb in Hb0. injection Hb0 as <-.
    now rewrite (collidepoint_same _ _ _ E1 E2).
  - intros k c Hk Hc'.
    apply boxes_after_hit_flags in Hk as (c0 & Hc0 & _ & E1 & E2 & _).
    rewrite (collidepoint_same _ _ _ E1 E2) in Hc'. eauto.
Qed.

(** When the position lies on one box only, not marked clicked, the loop
    over the boxes scores that box and nothing else. *)
Lemma click_loop_single pos j js :
  forall (s : Application.t),
    NoDup js -> In j js ->
    hits_only pos j (Sequence.boxes (Application.sequence s)) ->
    (forall b, Sequence.boxes (Application.sequence s) !! j = Some b ->
               Box.clicked b = false) ->
    Application.click_loop pos js s = Application.click_box j s.
Proof.
  induction js as [|i js IH]; intros s Hnd Hin Hhit Hunclicked; [destruct Hin|].
  inversion Hnd as [|? ? Hni Hnd']; subst. simpl.
  destruct Hhit as [(b & Hb & Hc) Hu].
  destruct (Nat.eq_dec i j) as [->|Hne].
  - rewrite Hb, Hc, (Hunclicked b Hb). simpl.
    destruct (Application.click_box j s) as [s1| |] eqn:Hcb; [|reflexivity..]. simpl.
    apply click_loop_no_hit. intros k c Hk Hkc Hcc. exfalso.
    apply click_box_boxes in Hcb as (v & Hbs). rewrite Hbs in Hkc.
    apply boxes_after_hit_flags in Hkc as (c0 & Hc0 & _ & E1 & E2 & _).
    rewrite (collidepoint_same _ _ _ E1 E2) in Hcc.
    apply (Hu k c0 Hc0) in Hcc. subst k. apply Hni, list_elem_of_In, Hk.
  - destruct Hin as [E|Hin]; [contradiction|].
    assert (Hrest : Application.click_loop pos js s = Application.click_box j s).
    { apply IH; auto; split; eauto. }
    destruct (Sequence.boxes (Application.sequence s) !! i) as [c|] eqn:Hi; [|exact Hrest].
    destruct (Box.collidepoint c pos) eqn:Hcc; [|exact Hrest].
    exfalso. apply Hne. eapply Hu; eauto.
Qed.

Lemma handle_user_input_single pos j (s : Application.t) :
  hits_only pos j (Sequence.boxes (Application.sequence s)) ->
  (forall b, Sequence.boxes (Application.sequence s) !! j = Some b ->
             Box.clicked b = false) ->
  Application.handle_user_input (MOUSEBUTTONUP pos) s = Application.click_box j s.
Proof.
  intros Hhit Hun. simpl. apply click_loop_single; auto.
  - apply NoDup_seq.
  - destruct Hhit as [(b & Hb & _) _]. apply lookup_lt_Some in Hb.
    apply in_seq. lia.
Qed.

Lemma click_box_result j (s : Application.t) p len :
  Application.participant s = Some p ->
  Sequence.length (Application.sequence s) = Some len ->
  0 <= Participant.clicks p
    < Z.of_nat (List.length (Sequence.boxes (Application.sequence s))) ->
  let q := Application.sequence s in
  Application.click_box j s =
    Ok (if Nat.eqb j (Z.to_nat (Participant.clicks p)) then
          if Participant.clicks p =? len - 1 then
            Application.set_state Feedback
              (Application.set_sequence
                 (Sequence.set_correct true
                    (Sequence.set_boxes (boxes_after_hit j true (Sequence.boxes q)) q)) s)
          else
            Application.set_participant
              (Some (Participant.set_clicks (Participant.clicks p + 1) p))
              (Application.set_sequence
                 (Sequence.set_boxes (boxes_after_hit j true (Sequence.boxes q)) q) s)
        else
          Application.set_participant
            (Some (Participant.set_errors (Participant.errors p + 1) p))
            (Application.set_state Feedback
               (Application.set_sequence
                  (Sequence.set_correct false
                     (Sequence.set_boxes (boxes_after_hit j false (Sequence.boxes q)) q))
                  s))).
Proof.
  intros Hp Hlen Hclicks. cbv zeta.
  unfold Application.click_box, Application.the_participant. rewrite Hp. simpl.
  rewrite length_alter, length_map, (py_index_in_range _ _ Hclicks), Hlen.
  unfold boxes_after_hit.
  destruct (Nat.eqb j _); [destruct (_ =? _)|]; reflexivity.
Qed.

(** X11. A click that lies on exactly one box, not marked clicked, is scored
    against the box expected next and has no other effect.  If it is the
    expected box and not the last of the sequence, the click counter goes up
    by one and the state stays; if it is the last one, the sequence is
    marked correct and the state becomes [Feedback]; if it is any other box,
    the error counter goes up by one, the sequence is marked incorrect and
    the state becomes [Feedback].  The clicked box alone is left marked
    clicked, with the verdict in its [correct] flag. *)
Theorem click_on_one_box (s : Application.t) (p : Participant.t) (pos : Z * Z)
    (j : nat) (len : Z) :
  Application.participant s = Some p ->
  Sequence.length (Application.sequence s) = Some len ->
  0 <= Participant.clicks p
    < Z.of_nat (List.length (Sequence.boxes (Application.sequence s))) ->
  hits_only pos j (Sequence.boxes (Application.sequence s)) ->
  (forall b, Sequence.boxes (Application.sequence s) !! j = Some b ->
             Box.clicked b = false) ->
  let q := Application.sequence s in
  Application.handle_user_input (MOUSEBUTTONUP pos) s =
    Ok (if Nat.eqb j (Z.to_nat (Participant.clicks p)) then
          if Participant.clicks p =? len - 1 then
            Application.set_state Feedback
              (Application.set_sequence
                 (Sequence.set_correct true
                    (Sequence.set_boxes (boxes_after_hit j true (Sequence.boxes q)) q)) s)
          else
            Application.set_participant
              (Some (Participant.set_clicks (Participant.clicks p + 1) p))
              (Application.set_sequence
                 (Sequence.set_boxes (boxes_after_hit j true (Sequence.boxes q)) q) s)
        else
          Application.set_participant
            (Some (Participant.set_errors (Participant.errors p + 1) p))
            (Application.set_state Feedback
               (Application.set_sequence
                  (Sequence.set_correct false
                     (Sequence.set_boxes (boxes_after_hit j false (Sequence.boxes q)) q))
                  s))).
Proof.
  intros Hp Hlen Hclicks Hhit Hun.
  rewrite (handle_user_input_single _ _ _ Hhit Hun).
  now apply click_box_result.
Qed.

Lemma taps_handled now rng (taps : list (Z * Z)) :
  forall (s : Application.t) p k len,
    Application.state s = UserInput ->
    Application.participant s = Some p ->
    Sequence.length (Application.sequence s) = Some len ->
    Participant.clicks p = Z.of_nat k ->
    len = Z.of_nat (k + List.length taps) ->
    taps <> [] ->
    taps_follow taps k (Sequence.boxes (Application.sequence s)) ->
    (forall b, Sequence.boxes (Application.sequence s) !! k = Some b ->
               Box.clicked b = false) ->
    exists s' p',
      Application.handle_events (List.map MOUSEBUTTONUP taps) now s rng
        = Ok ((s', []), rng) /\
      Application.state s' = Feedback /\
      Sequence.correct (Application.sequence s') = true /\
      Sequence.length (Application.sequence s') = Some len /\
      Sequence.box_parameters (Application.sequence s') =
        Sequence.box_parameters (Application.sequence s) /\
      Application.trial_over s' = Application.trial_over s /\
      Application.participant s' = Some p' /\
      Participant.corsi_spans p' = Participant.corsi_spans p /\
      Participant.current_trial p' = Participant.current_trial p.
Proof.
  induction taps as [|pos rest IH]; intros s p k len Hst Hp Hlen Hk Hl Hne Hfollow Hun;
    [congruence|].
  pose proof (Hfollow 0%nat pos eq_refl) as Hhit. rewrite Nat.add_0_r in Hhit.
  assert (Hrange : 0 <= Participant.clicks p
                   < Z.of_nat (List.length (Sequence.boxes (Application.sequence s)))).
  { destruct Hhit as [(b & Hb & _) _]. apply lookup_lt_Some in Hb. lia. }
  assert (Hev : Application.handle_event (MOUSEBUTTONUP pos) now s rng =
                match Application.click_box k s with
                | Ok a => Ok ((a, []), rng)
                | Raise e => Raise e
                | Hang => Hang
                end).
  { unfold Application.handle_event. rewrite Hst. unfold rbind, rlift, rret.
    rewrite (handle_user_input_single _ _ _ Hhit Hun).
    destruct (Application.click_box k s); reflexivity. }
  pose proof (click_box_result k s p len Hp Hlen Hrange) as Hcb. cbv zeta in Hcb.
  rewrite Hk, Nat2Z.id, Nat.eqb_refl in Hcb.
  change (List.map MOUSEBUTTONUP (pos :: rest))
    with (MOUSEBUTTONUP pos :: List.map MOUSEBUTTONUP rest).
  cbn [Application.handle_events]. unfold rbind at 1. rewrite Hev, Hcb.
  destruct rest as [|pos' rest'].
  - assert (E : (Z.of_nat k =? len - 1) = true) by (apply Z.eqb_eq; simpl in Hl; lia).
    rewrite E. simpl. unfold rbind, rret. simpl.
    eexists _, p. split; [reflexivity|]. simpl. repeat split; auto.
  - assert (E : (Z.of_nat k =? len - 1) = false) by (apply Z.eqb_neq; simpl in Hl; lia).
    rewrite E. cbn [fst snd].
    edestruct (IH (Application.set_participant
                     (Some (Participant.set_clicks (Z.of_nat k + 1) p))
                     (Application.set_sequence
                        (Sequence.set_boxes
                           (boxes_after_hit k true
                              (Sequence.boxes (Application.sequence s)))
                           (Application.sequence s)) s))
                  (Participant.set_clicks (Z.of_nat k + 1) p) (S k) len)
      as (s' & p' & H & Hs' & Hc' & Hl' & Hb' & Ho' & Hp' & Hsp' & Hct').
    + simpl. exact Hst.
    + reflexivity.
    + simpl. exact Hlen.
    + simpl. lia.
    + simpl in *. lia.
    + discriminate.
    + intros i q Hq. simpl. apply hits_only_after_hit.
      replace (S (k + i))%nat with (k + S i)%nat by lia. apply Hfollow. exact Hq.
    + intros b Hb. simpl in Hb.
      apply boxes_after_hit_flags in Hb as (b0 & _ & _ & _ & _ & Hcl & _).
      rewrite Hcl. destruct (decide (S k = k)); [lia|reflexivity].
    + unfold rbind, rret. rewrite H. simpl.
      exists s', p'. repeat split; auto.
Qed.

Lemma hits_only_alter pos i (f : Box.t -> Box.t) j bs :
  (forall b, Box.pos (f b) = Box.pos b /\ Box.size (f b) = Box.size b) ->
  hits_only pos i bs -> hits_only pos i (alter f j bs).
Proof.
  intros Hf [(b & Hb & Hc) Hu]. split.
  - destruct (decide (i = j)) as [->|Hne].
    + exists (f b). rewrite list_lookup_alter_eq, Hb. split; [reflexivity|].
      destruct (Hf b) as [E1 E2]. now rewrite (collidepoint_same _ _ _ E1 E2).
    + exists b. rewrite list_lookup_alter_ne by congruence. auto.
  - intros k c Hk Hc'.
    apply lookup_alter_Some in Hk as (c0 & Hc0 & [[-> ->]|[Hne ->]]); [|eauto].
    destruct (Hf c0) as [E1 E2]. rewrite (collidepoint_same _ _ _ E1 E2) in Hc'. eauto.
Qed.

(** Past the thresholds and with the whole sequence shown, [show] un-lights
    the last box and hands over to the input state. *)
Lemma show_handover trial_start delay now (q : Sequence.t) len :
  float_gt (PrimFloat.sub (time1 now) trial_start) (float_of_Z delay) = true ->
  float_gt (PrimFloat.sub (time2 now) (Sequence.last_box_highlighted q))
           (t_highlight (Sequence.box_parameters q)) = true ->
  Sequence.length q = Some len -> len <= Sequence.highlight_box_id q ->
  0 < Sequence.highlight_box_id q <= Z.of_nat (List.length (Sequence.boxes q)) ->
  Sequence.show trial_start delay now q =
    Ok (UserInput,
        Sequence.set_boxes
          (alter (Box.set_highlight false)
                 (Z.to_nat (Sequence.highlight_box_id q - 1)) (Sequence.boxes q)) q).
Proof.
  intros H1 H2 Hlen Hge Hc. unfold Sequence.show, Sequence.set_box_highlight.
  rewrite H1.
  assert ((Sequence.highlight_box_id q =? 0) = false) as -> by (apply Z.eqb_neq; lia).
  rewrite H2, Hlen.
  assert ((Sequence.highlight_box_id q <? len) = false) as -> by (apply Z.ltb_ge; lia).
  rewrite py_index_in_range by lia. reflexivity.
Qed.

(** One pass of the main loop with a tap on the box expected next, not the
    last of the sequence. *)
Lemma tap_frame_continues (s : Application.t) p (i : frame_input) rng pos k len :
  reachable s ->
  Application.state s = UserInput ->
  Application.participant s = Some p ->
  Sequence.length (Application.sequence s) = Some len ->
  Participant.clicks p = Z.of_nat k ->
  Z.of_nat k < len - 1 ->
  hits_only pos k (Sequence.boxes (Application.sequence s)) ->
  (forall b, Sequence.boxes (Application.sequence s) !! k = Some b ->
             Box.clicked b = false) ->
  events i = [MOUSEBUTTONUP pos] ->
  presented_at s (show_time i) ->
  exists s2,
    Application.frame i s rng = Ok ((s2, []), rng) /\
    Application.state s2 = UserInput /\
    Application.participant s2 =
      Some (Participant.set_clicks (Z.of_nat k + 1) p) /\
    Sequence.length (Application.sequence s2) = Some len /\
    (forall now, presented_at s now -> presented_at s2 now) /\
    (forall pos' j, hits_only pos' j (Sequence.boxes (Application.sequence s)) ->
                    hits_only pos' j (Sequence.boxes (Application.sequence s2))) /\
    (forall b, Sequence.boxes (Application.sequence s2) !! S k = Some b ->
               Box.clicked b = false).
Proof.
  intros Hr Hst Hp Hlen Hk Hlast Hhit Hun Hev [Hd1 Hd2].
  assert (Hst' : Application.state s <> Participant_ID /\
                 Application.state s <> Instructions) by (rewrite Hst; split; discriminate).
  destruct (wf_sequence_ok s (reachable_wf _ Hr) (proj1 Hst') (proj2 Hst'))
    as (p0 & len0 & Hp0 & _ & Hseq).
  rewrite Hp in Hp0. injection Hp0 as <-.
  destruct Hseq as [K1 K2 K3 K4 K5 K6 K7].
  rewrite Hlen in K1. injection K1 as <-.
  destruct (K6 (or_introl Hst)) as [Hcur _].
  assert (Hrange : 0 <= Participant.clicks p
                   < Z.of_nat (List.length (Sequence.boxes (Application.sequence s)))).
  { destruct Hhit as [(b & Hb & _) _]. apply lookup_lt_Some in Hb. lia. }
  pose proof (click_box_result k s p len Hp Hlen Hrange) as Hcb. cbv zeta in Hcb.
  rewrite Hk, Nat2Z.id, Nat.eqb_refl in Hcb.
  assert (E : (Z.of_nat k =? len - 1) = false) by (apply Z.eqb_neq; lia).
  rewrite E in Hcb.
  set (bs1 := boxes_after_hit k true (Sequence.boxes (Application.sequence s))) in *.
  set (q1 := Sequence.set_boxes bs1 (Application.sequence s)) in *.
  set (s1 := Application.set_participant
               (Some (Participant.set_clicks (Z.of_nat k + 1) p))
               (Application.set_sequence q1 s)) in *.
  assert (Hevents : Application.handle_events (events i) (event_time i) s rng
                    = Ok ((s1, []), rng)).
  { rewrite Hev. cbn [Application.handle_events]. unfold rbind at 1.
    unfold Application.handle_event. cbv iota beta zeta. rewrite Hst.
    unfold rbind, rlift, rret.
    rewrite (handle_user_input_single _ _ _ Hhit Hun), Hcb. reflexivity. }
  eassert (Hshow : Sequence.show (Application.trial_start s1) (Application.start_delay s1)
                     (show_time i) q1 = Ok (UserInput, _)).
  { apply (show_handover _ _ _ q1 len); simpl; auto.
    subst bs1. rewrite boxes_after_hit_length. lia. }
  eexists. split.
  - unfold Application.frame, rbind, rret, rlift. rewrite Hevents. cbn [fst snd obind].
    unfold Application.update. change (Application.state s1) with (Application.state s).
    rewrite Hst. change (Application.sequence s1) with q1. rewrite Hshow. reflexivity.
  - cbn. split; [reflexivity|]. split; [reflexivity|]. split; [exact Hlen|].
    split; [intros now H; exact H|]. split.
    + intros pos' j H. apply hits_only_alter; [intros b; split; reflexivity|].
      subst bs1. apply hits_only_after_hit. exact H.
    + intros b Hb.
      apply lookup_alter_Some in Hb as (b0 & Hb0 & Hcase).
      subst bs1. apply boxes_after_hit_flags in Hb0 as (b1 & _ & _ & _ & _ & Hcl & _).
      destruct (decide (S k = k)) as [Heq|_]; [lia|].
      destruct Hcase as [[_ ->]|[_ ->]]; simpl; exact Hcl.
Qed.

(** One pass of the main loop with a tap on the last box of the sequence,
    the boxes before it having been tapped in order. *)
Lemma tap_frame_completes (s : Application.t) p (i : frame_input) rng pos k len :
  reachable s ->
  Application.state s = UserInput ->
  Application.participant s = Some p ->
  Sequence.length (Application.sequence s) = Some len ->
  Participant.clicks p = Z.of_nat k ->
  Z.of_nat k = len - 1 ->
  hits_only pos k (Sequence.boxes (Application.sequence s)) ->
  (forall b, Sequence.boxes (Application.sequence s) !! k = Some b ->
             Box.clicked b = false) ->
  events i = [MOUSEBUTTONUP pos] ->
  exists s' p' screen,
    Application.frame i s rng = Ok ((s', [Draw_feedback screen]), rng) /\
    Application.state s' = Feedback /\
    Application.participant s' = Some p' /\
    Participant.corsi_span p' = len /\
    Participant.errors p' = 0 /\
    (message screen = "Great job!"%string \/
     message screen = "Congratulations! You won!"%string).
Proof.
  intros Hr Hst Hp Hlen Hk Hl Hhit Hun Hev.
  assert (Hfollow : taps_follow [pos] k (Sequence.boxes (Application.sequence s))).
  { intros [|j] q Hq; simpl in Hq; [|discriminate]. injection Hq as <-.
    now rewrite Nat.add_0_r. }
  destruct (taps_handled (event_time i) rng [pos] s p k len
              Hst Hp Hlen Hk ltac:(simpl; lia) ltac:(discriminate) Hfollow Hun)
    as (s1 & p1 & H1 & Hs1 & Hc1 & Hl1 & _ & _ & Hp1 & _).
  assert (Hr1 : reachable s1).
  { eapply handle_events_reachable; [exact Hr|exact H1]. }
  destruct (show_feedback_never_fails s1 (reachable_wf _ Hr1) Hs1) as (s2 & screen & H2).
  exists s2. unfold Application.frame, rbind, rret, rlift. rewrite Hev.
  change [MOUSEBUTTONUP pos] with (List.map MOUSEBUTTONUP [pos]). rewrite H1. simpl.
  unfold Application.update. rewrite Hs1, H2. simpl.
  apply show_feedback_inv in H2 as (q & q1 & over & q2 & Hq & Hv & Hu & ->).
  rewrite Hp1 in Hq. injection Hq as <-.
  assert (Hq2 : Participant.corsi_span q2 = Participant.corsi_span q1 /\
                Participant.errors q2 = Participant.errors q1).
  { destruct over; [|subst; auto].
    apply update_statistics_fields in Hu as (_ & E1 & _ & E2 & _). auto. }
  destruct Hq2 as [E1 E2].
  exists q2, screen. split; [reflexivity|]. split; [exact Hs1|]. split; [reflexivity|].
  inversion Hv as [len' Hc Hlen' _ K1 K2 K3|len' over' Hc Hlen' _ _ K1 K2 K3
                  |over' Hc _ _ K1 K2 K3|Hc _ K1 K2 K3]; try congruence.
  - rewrite Hl1 in Hlen'. injection Hlen' as <-.
    clear Hv Hu. subst q1. rewrite E1, E2. simpl. auto.
  - rewrite Hl1 in Hlen'. injection Hlen' as <-.
    clear Hv Hu. subst q1. rewrite E1, E2. simpl. auto.
Qed.

(** X12. Tapping the boxes of the sequence in presentation order succeeds.
    When the remaining boxes are tapped one after the other, one tap per
    pass of the main loop and each tap on exactly one box, with the clock
    past the thresholds of the presentation in every pass, the run ends on
    the feedback screen with a success message ("Great job!", or
    "Congratulations! You won!"), the participant's span set to the length
    of the sequence and the error counter reset to zero; that screen is the
    only output, nothing fails and no random number is drawn. *)
Theorem tapping_in_order_succeeds (frames : list frame_input) (taps : list (Z * Z)) :
  one_tap_each frames taps ->
  forall (s : Application.t) (p : Participant.t) (rng : list Z) (k : nat) (len : Z),
  reachable s ->
  Application.state s = UserInput ->
  Application.participant s = Some p ->
  Sequence.length (Application.sequence s) = Some len ->
  Participant.clicks p = Z.of_nat k ->
  len = Z.of_nat (k + List.length taps) ->
  taps <> [] ->
  taps_follow taps k (Sequence.boxes (Application.sequence s)) ->
  (forall b, Sequence.boxes (Application.sequence s) !! k = Some b ->
             Box.clicked b = false) ->
  Forall (fun i => presented_at s (show_time i)) frames ->
  exists s' p' screen,
    Application.start frames s rng = Ok ((s', [Draw_feedback screen]), rng) /\
    Application.state s' = Feedback /\
    Application.participant s' = Some p' /\
    Participant.corsi_span p' = len /\
    Participant.errors p' = 0 /\
    (message screen = "Great job!"%string \/
     message screen = "Congratulations! You won!"%string).
Proof.
  induction 1 as [|i pos frames taps Hev Hrest IH];
    intros s p rng k len Hr Hst Hp Hlen Hk Hl Hne Hfollow Hun Hdue; [congruence|].
  pose proof (Hfollow 0%nat pos eq_refl) as Hhit. rewrite Nat.add_0_r in Hhit.
  apply Forall_cons_1 in Hdue as [Hdue1 Hdue].
  destruct taps as [|pos' taps'].
  - (* the last tap *)
    apply Forall2_nil_inv_r in Hrest. subst frames.
    destruct (tap_frame_completes s p i rng pos k len Hr Hst Hp Hlen Hk
                ltac:(simpl in *; lia) Hhit Hun Hev)
      as (s' & p' & screen & Hf & Hrestf).
    exists s', p', screen. split; [|exact Hrestf].
    cbn [Application.start]. unfold rbind, rret. rewrite Hf. reflexivity.
  - destruct (tap_frame_continues s p i rng pos k len Hr Hst Hp Hlen Hk
                ltac:(simpl in *; lia) Hhit Hun Hev Hdue1)
      as (s2 & Hf & Hst2 & Hp2 & Hlen2 & Hpres & Hhits & Hun2).
    destruct (IH s2 (Participant.set_clicks (Z.of_nat k + 1) p) rng (S k) len)
      as (s' & p' & screen & Hrun & Hrestf).
    + eapply frame_reachable; [exact Hr|exact Hf].
    + exact Hst2.
    + exact Hp2.
    + exact Hlen2.
    + simpl. lia.
    + simpl in *. lia.
    + discriminate.
    + intros j q Hq. apply Hhits.
      replace (S k + j)%nat with (k + S j)%nat by lia. apply Hfollow. exact Hq.
    + exact Hun2.
    + eapply Forall_impl; [exact Hdue|]. intros a Ha. apply Hpres. exact Ha.
    + exists s', p', screen. split; [|exact Hrestf].
      cbn [Application.start]. unfold rbind, rret. rewrite Hf. cbn [fst snd].
      rewrite Hrun. reflexivity.
Qed.

(** X13. Input during the presentation is ignored.  While a sequence is being
    presented, a batch of events without a quit event changes nothing: no
    click is scored, no key has an effect, nothing is output and no random
    number is drawn. *)
Theorem presentation_ignores_input (s : Application.t) (evs : list event)
    (now : float) (rng : list Z) :
  Application.state s = ShowSequence ->
  Forall (fun ev => is_quit ev = false) evs ->
  Application.handle_events evs now s rng = Ok ((s, []), rng).
Proof.
  intros Hst. induction 1 as [|ev evs Hq _ IH]; [reflexivity|].
  cbn [Application.handle_events]. unfold rbind, rret.
  assert (Application.handle_event ev now s rng = Ok ((s, []), rng)) as ->.
  { unfold Application.handle_event.
    replace (match ev with QUIT => true | KEYDOWN K_ESCAPE _ => true | _ => false end)
      with (is_quit ev) by reflexivity.
    now rewrite Hq, Hst. }
  simpl. unfold rbind, rret in IH. now rewrite IH.
Qed.

End Sessions.

(** ** The presentation step, layouts without room *)

Lemma lookup_alter_lt (f : Box.t -> Box.t) k (bs : list Box.t) :
  (k < List.length bs)%nat ->
  exists b, bs !! k = Some b /\ alter f k bs !! k = Some (f b).
Proof.
  intros Hk. destruct (lookup_lt_is_Some_2 bs k Hk) as [b Hb].
  exists b. split; [exact Hb|]. rewrite list_lookup_alter_eq, Hb. reflexivity.
Qed.

(** X14. What a call of [show] does once the thresholds are crossed (the
    start delay has passed and, if a box is lit, its dwell time has
    passed).  While boxes of the sequence remain, the call lights exactly
    the box at the cursor, un-lights all others, moves the cursor on by one
    and signals [ShowSequence]; once the cursor has reached the sequence
    length, it un-lights every box, keeps the cursor and signals
    [UserInput].  Positions, sizes and click flags of the boxes are kept. *)
Theorem show_advances (trial_start : float) (start_delay : Z) (now : readings)
    (q : Sequence.t) (len : Z) :
  let c := Sequence.highlight_box_id q in
  let more := (c =? 0) || (c <? len) in
  float_gt (PrimFloat.sub (time1 now) trial_start) (float_of_Z start_delay) = true ->
  (c <> 0 ->
   float_gt (PrimFloat.sub (time2 now) (Sequence.last_box_highlighted q))
            (t_highlight (Sequence.box_parameters q)) = true) ->
  Sequence.length q = Some len ->
  0 <= c <= Z.of_nat (List.length (Sequence.boxes q)) ->
  (more = true -> c < Z.of_nat (List.length (Sequence.boxes q))) ->
  lit_before_cursor q ->
  exists q',
    Sequence.show trial_start start_delay now q
      = Ok (if more then ShowSequence else UserInput, q') /\
    Sequence.highlight_box_id q' = (if more then c + 1 else c) /\
    Sequence.length q' = Some len /\
    List.length (Sequence.boxes q') = List.length (Sequence.boxes q) /\
    forall i b', Sequence.boxes q' !! i = Some b' ->
      Box.highlight b' = more && (Z.of_nat i =? c) /\
      exists b, Sequence.boxes q !! i = Some b /\
                Box.pos b' = Box.pos b /\ Box.size b' = Box.size b /\
                Box.clicked b' = Box.clicked b /\ Box.correct b' = Box.correct b.
Proof.
  intros c more H1 H2 Hlen Hc Hroom Hlit.
  assert (Hoff : forall i b, Sequence.boxes q !! i = Some b -> Z.of_nat i <> c - 1 ->
                             Box.highlight b = false).
  { intros i b Hb Hne. destruct (Box.highlight b) eqn:Hh; [|reflexivity].
    elim Hne. exact (Hlit i b Hb Hh). }
  unfold Sequence.show, Sequence.set_box_highlight. rewrite H1.
  fold c. subst more. destruct (c =? 0) eqn:E0.
  - apply Z.eqb_eq in E0. simpl orb in *. specialize (Hroom eq_refl).
    rewrite (py_index_in_range _ c) by lia. simpl.
    eexists. split; [reflexivity|]. simpl. rewrite length_alter.
    repeat split; auto.
    + apply lookup_alter_Some in H as (b & Hb & [[-> ->]|[Hne ->]]); simpl.
      * symmetry. apply Z.eqb_eq. lia.
      * rewrite (Hoff i b Hb) by lia. symmetry. apply Z.eqb_neq. lia.
    + apply lookup_alter_Some in H as (b & Hb & [[-> ->]|[Hne ->]]); eauto 10.
  - apply Z.eqb_neq in E0. rewrite (H2 E0), Hlen. simpl orb in *.
    destruct (c <? len) eqn:El.
    + specialize (Hroom eq_refl).
      rewrite (py_index_in_range _ (c - 1)) by lia. simpl. rewrite length_alter.
      rewrite (py_index_in_range _ c) by lia. simpl.
      eexists. split; [reflexivity|]. simpl. rewrite !length_alter.
      repeat split; auto.
      * apply lookup_alter_Some in H as (b1 & Hb1 & [[-> ->]|[Hne ->]]); simpl.
        -- symmetry. apply Z.eqb_eq. lia.
        -- apply lookup_alter_Some in Hb1 as (b & Hb & [[-> ->]|[Hne1 ->]]); simpl.
           ++ symmetry. apply Z.eqb_neq. lia.
           ++ rewrite (Hoff i b Hb) by lia. symmetry. apply Z.eqb_neq. lia.
      * apply lookup_alter_Some in H as (b1 & Hb1 & [[-> ->]|[Hne ->]]);
          apply lookup_alter_Some in Hb1 as (b & Hb & [[E ->]|[Hne1 ->]]);
          first [exfalso; lia|eauto 10].
    + rewrite (py_index_in_range _ (c - 1)) by lia. simpl.
      eexists. split; [reflexivity|]. simpl. rewrite length_alter.
      repeat split; auto.
      * apply lookup_alter_Some in H as (b & Hb & [[-> ->]|[Hne ->]]); simpl;
          [reflexivity|]. apply (Hoff i b Hb). lia.
      * apply lookup_alter_Some in H as (b & Hb & [[-> ->]|[Hne ->]]); eauto 10.
Qed.

(** X15. Without room between the margins no layout is generated.  When boxes
    are to be placed and the horizontal range [margin .. width - margin] is
    empty, [generate_boxes] raises [ValueError] before anything is drawn;
    when only the vertical range is empty it raises [ValueError] after the
    first draw. *)
Theorem generate_boxes_without_room (q : Sequence.t) (rng : list Z) :
  let params := Sequence.box_parameters q in
  0 < n_boxes params ->
  (fst (Sequence.screen_size q) - margin params < margin params ->
   Sequence.generate_boxes q rng = Raise ValueError) /\
  (margin params <= fst (Sequence.screen_size q) - margin params ->
   snd (Sequence.screen_size q) - margin params < margin params ->
   rng <> [] ->
   Sequence.generate_boxes q rng = Raise ValueError).
Proof.
  intros params Hn. unfold Sequence.generate_boxes. simpl. fold params.
  assert ((0 <? n_boxes params) = true) as -> by (apply Z.ltb_lt; lia).
  unfold rbind, randint. split.
  - intros Hx. now apply Z.ltb_lt in Hx as ->.
  - intros Hx Hy Hne. apply Z.ltb_ge in Hx as ->. apply Z.ltb_lt in Hy.
    destruct rng as [|r rng]; [congruence|]. now rewrite Hy.
Qed.

(** Two boxes with the same center collide for every positive minimum
    distance. *)
Lemma collision_check_zero params a b :
  Sequence.dist2 a b = 0 -> 0 < min_dist params ->
  Sequence.collision_check params a b = Ok true.
Proof.
  intros E Hm. unfold Sequence.collision_check. rewrite E.
  change (py_float_of_int 0) with (Ok (SF2Prim (S754_zero false))).
  unfold obind, float_lt_int.
  rewrite sqrt_spec, Prim2SF_SF2Prim by reflexivity.
  change (SF64sqrt (S754_zero false)) with (S754_zero false). cbv iota.
  assert ((0 <? min_dist params) = true) as -> by (apply Z.ltb_lt; lia).
  reflexivity.
Qed.

Lemma generate_boxes_loop_stuck (q : Sequence.t) (b0 : Box.t) fuel :
  let params := Sequence.box_parameters q in
  1 < n_boxes params -> 0 < min_dist params ->
  fst (Sequence.screen_size q) - margin params = margin params ->
  snd (Sequence.screen_size q) - margin params = margin params ->
  Box.pos b0 = (margin params, margin params) ->
  forall rng, Sequence.generate_boxes_loop fuel q 1 [b0] rng = Hang.
Proof.
  intros params Hn Hd Hx Hy Hb0.
  induction fuel as [|fuel IH]; intros rng; simpl; fold params;
    (assert ((1 <? n_boxes params) = true) as -> by (apply Z.ltb_lt; lia));
    [reflexivity|].
  unfold rbind, randint. rewrite Hx, Hy, Z.ltb_irrefl.
  destruct rng as [|r1 [|r2 rng]]; [reflexivity..|].
  replace (margin params - margin params + 1) with 1 by lia. rewrite !Z.mod_1_r, Z.add_0_r.
  unfold rlift. cbn [Sequence.any_collision].
  rewrite collision_check_zero; [|unfold Sequence.dist2; rewrite Hb0; simpl; lia|exact Hd].
  simpl. apply IH.
Qed.

Lemma generate_boxes_loop_first (q : Sequence.t) fuel r1 r2 rng :
  let params := Sequence.box_parameters q in
  1 < n_boxes params ->
  fst (Sequence.screen_size q) - margin params = margin params ->
  snd (Sequence.screen_size q) - margin params = margin params ->
  Sequence.generate_boxes_loop (S fuel) q 0 [] (r1 :: r2 :: rng) =
    Sequence.generate_boxes_loop fuel q 1
      [Box.__init__ (margin params, margin params) (size params)] rng.
Proof.
  intros params Hn Hx Hy. simpl. fold params.
  assert ((0 <? n_boxes params) = true) as -> by (apply Z.ltb_lt; lia).
  unfold rbind, randint. rewrite Hx, Hy, Z.ltb_irrefl.
  replace (margin params - margin params + 1) with 1 by lia.
  now rewrite !Z.mod_1_r, Z.add_0_r.
Qed.

(** X16. A layout that can never be completed.  When the margins leave a
    single point for the box centers, at least two boxes are asked for and
    the minimum distance is positive, [generate_boxes] never returns: on
    every tape of draws, however long, the placement loop is still running
    when the tape is used up (every candidate after the first box collides
    with it). *)
Theorem generate_boxes_never_returns (q : Sequence.t) (rng : list Z) :
  let params := Sequence.box_parameters q in
  1 < n_boxes params -> 0 < min_dist params ->
  fst (Sequence.screen_size q) - margin params = margin params ->
  snd (Sequence.screen_size q) - margin params = margin params ->
  Sequence.generate_boxes q rng = Hang.
Proof.
  intros params Hn Hd Hx Hy. unfold Sequence.generate_boxes.
  destruct rng as [|r1 [|r2 rng]].
  - simpl. fold params.
    assert ((0 <? n_boxes params) = true) as -> by (apply Z.ltb_lt; lia).
    unfold rbind, randint. now rewrite Hx, Z.ltb_irrefl.
  - simpl. fold params.
    assert ((0 <? n_boxes params) = true) as -> by (apply Z.ltb_lt; lia).
    unfold rbind, randint. now rewrite Hx, Hy, !Z.ltb_irrefl.
  - change (List.length (r1 :: r2 :: rng)) with (S (S (List.length rng))).
    rewrite generate_boxes_loop_first by assumption.
    now apply generate_boxes_loop_stuck.
Qed.

(** ** Generated layouts: fresh boxes that do not overlap *)

Lemma generate_boxes_loop_fresh (q : Sequence.t) fuel :
  forall i boxes rng out rng',
    (forall k b, boxes !! k = Some b -> fresh_box (Sequence.box_parameters q) b) ->
    Sequence.generate_boxes_loop fuel q i boxes rng = Ok (out, rng') ->
    forall k b, out !! k = Some b -> fresh_box (Sequence.box_parameters q) b.
Proof.
  induction fuel as [|fuel IH]; intros i boxes rng out rng' H0; simpl;
    destruct (i <? _).
  - discriminate.
  - now intros [= <- _].
  - unfold rbind.
    destruct (randint _ _ rng) as [[x rng1]| |]; try discriminate.
    destruct (randint _ _ rng1) as [[y rng2]| |]; try discriminate.
    unfold rlift.
    destruct (Sequence.any_collision _ _ boxes) as [[|]| |]; simpl; try discriminate.
    + now apply IH.
    + apply IH. intros k b Hb.
      apply lookup_app_Some in Hb as [Hb|[_ Hb]]; [eauto|].
      apply list_lookup_singleton_Some in Hb as [_ <-]. reflexivity.
  - now intros [= <- _].
Qed.

Lemma generate_boxes_fresh (q : Sequence.t) rng boxes rng' :
  Sequence.generate_boxes q rng = Ok (boxes, rng') ->
  forall k b, boxes !! k = Some b -> fresh_box (Sequence.box_parameters q) b.
Proof.
  intros H. eapply generate_boxes_loop_fresh; [|exact H]. intros i b Hb.
  rewrite lookup_nil in Hb. discriminate.
Qed.

Lemma generate_boxes_layout_inv (q : Sequence.t) rng boxes rng' :
  Sequence.generate_boxes q rng = Ok (boxes, rng') -> layout_inv q boxes.
Proof.
  intros H. unfold Sequence.generate_boxes in H.
  destruct (Z.lt_ge_cases (n_boxes (Sequence.box_parameters q)) 0) as [Hn|Hn].
  - simpl in H.
    assert ((0 <? n_boxes (Sequence.box_parameters q)) = false) as E
      by (apply Z.ltb_ge; lia).
    rewrite E in H. injection H as <- _. apply layout_inv_nil.
  - eapply generate_boxes_loop_inv in H as [_ H];
      [exact H|reflexivity|exact Hn|apply layout_inv_nil].
Qed.

(** Two boxes of side [s] that contain the same point have centers less
    than [s] apart on each axis. *)
Lemma collidepoint_both (a b : Box.t) (pos : Z * Z) (s : Z) :
  Box.size a = s -> Box.size b = s ->
  Box.collidepoint a pos = true -> Box.collidepoint b pos = true ->
  Sequence.dist2 b a < 2 * (s * s).
Proof.
  unfold Box.collidepoint, Sequence.dist2. intros Hsa Hsb Ha Hb.
  rewrite Hsa in Ha. rewrite Hsb in Hb.
  apply andb_prop in Ha as [Ha Ha4]. apply andb_prop in Ha as [Ha Ha3].
  apply andb_prop in Ha as [Ha1 Ha2].
  apply andb_prop in Hb as [Hb Hb4]. apply andb_prop in Hb as [Hb Hb3].
  apply andb_prop in Hb as [Hb1 Hb2].
  apply Z.leb_le in Ha1, Ha3, Hb1, Hb3. apply Z.ltb_lt in Ha2, Ha4, Hb2, Hb4.
  cbv zeta. rewrite !Z.pow_2_r.
  set (dx := fst (Box.pos b) - fst (Box.pos a)).
  set (dy := snd (Box.pos b) - snd (Box.pos a)).
  assert (Hx : - s < dx < s) by (subst dx; lia).
  assert (Hy : - s < dy < s) by (subst dy; lia).
  assert (dx * dx < s * s) by nia.
  assert (dy * dy < s * s) by nia.
  lia.
Qed.

(** X18. The boxes of a generated layout do not overlap when they are small
    enough for the minimum distance: with a positive [min_dist] of at most
    [2 ^ 26] (up to there the rounded square root of [collision_check]
    decides the comparison as the exact one would) and
    [2 * size ^ 2 <= min_dist ^ 2] no point of the screen lies on two boxes,
    so a click can hit at most one box.  Every generated box is as its
    constructor leaves it (configured size, not lit, not clicked). *)
Theorem generated_boxes_do_not_overlap (q : Sequence.t) (rng rng' : list Z)
    (boxes : list Box.t) :
  let params := Sequence.box_parameters q in
  Sequence.generate_boxes q rng = Ok (boxes, rng') ->
  0 < min_dist params <= 2 ^ 26 ->
  2 * (size params * size params) <= min_dist params * min_dist params ->
  (forall i b, boxes !! i = Some b -> fresh_box params b) /\
  (forall pos i j a b,
     boxes !! i = Some a -> boxes !! j = Some b ->
     Box.collidepoint a pos = true -> Box.collidepoint b pos = true -> i = j).
Proof.
  intros params Hgen Hd Hsize.
  pose proof (generate_boxes_fresh _ _ _ _ Hgen) as Hfresh.
  destruct (generate_boxes_layout_inv _ _ _ _ Hgen) as [_ Hlay].
  split; [exact Hfresh|].
  assert (Hlt : forall pos i j a b, (i < j)%nat ->
            boxes !! i = Some a -> boxes !! j = Some b ->
            Box.collidepoint a pos = true -> Box.collidepoint b pos = true -> False).
  { intros pos i j a b Hij Ha Hb Hca Hcb.
    pose proof (Hlay i j a b Hij Ha Hb) as Hno.
    assert (Hsa : Box.size a = size params) by (rewrite (Hfresh i a Ha); reflexivity).
    assert (Hsb : Box.size b = size params) by (rewrite (Hfresh j b Hb); reflexivity).
    pose proof (collidepoint_both a b pos _ Hsa Hsb Hca Hcb) as Hnear.
    rewrite collision_check_small in Hno; [discriminate|fold params; lia..]. }
  intros pos i j a b Ha Hb Hca Hcb.
  destruct (Nat.lt_trichotomy i j) as [Hij|[Hij|Hij]]; [exfalso|exact Hij|exfalso].
  - exact (Hlt pos i j a b Hij Ha Hb Hca Hcb).
  - exact (Hlt pos j i b a Hij Hb Ha Hcb Hca).
Qed.

(** ** The first sequence, and the prompt of the feedback screen *)

Section Prompts.

Context {TI : TextInput}.

(** X19. On the instruction screen only the space bar has an effect, and it
    starts the first sequence: the trial clock is set to the time of the
    key press, a sequence of length 3 is generated with the cursor at 0 and
    every box as constructed, the state becomes [ShowSequence], and the
    participant is still the one created at login (trial 1, span 2, no
    clicks, no errors, empty history). *)
Theorem first_sequence (s : Application.t) (now : float) (rng : list Z) :
  reachable s -> Application.state s = Instructions ->
  (forall ev, (forall u, ev <> KEYDOWN K_SPACE u) ->
     Application.handle_instructions_input ev now s rng = Ok (s, rng)) /\
  (forall u s' rng',
     Application.handle_instructions_input (KEYDOWN K_SPACE u) now s rng = Ok (s', rng') ->
     Application.state s' = ShowSequence /\
     Application.trial_start s' = now /\
     Sequence.length (Application.sequence s') = Some 3 /\
     Sequence.highlight_box_id (Application.sequence s') = 0 /\
     (forall i b, Sequence.boxes (Application.sequence s') !! i = Some b ->
        fresh_box (Sequence.box_parameters (Application.sequence s)) b) /\
     exists id, Application.participant s = Some (Participant.__init__ id) /\
                Application.participant s' = Some (Participant.__init__ id)).
Proof.
  intros Hr Hst. split.
  - intros ev Hev. destruct ev as [|[| | |] u| |]; try reflexivity.
    elim (Hev u). reflexivity.
  - intros u s' rng' H.
    pose proof (reachable_wf _ Hr) as Hwf. unfold wf in Hwf. rewrite Hst in Hwf.
    destruct Hwf as (_ & id & Hp & _).
    unfold Application.handle_instructions_input, rbind, rlift,
      Application.the_participant in H.
    rewrite Hp in H. simpl in H.
    apply generate_sequence_inv in H as (p & q & Hp' & Hq & ->). simpl in Hp', Hq.
    rewrite Hp in Hp'. injection Hp' as <-.
    apply generate_inv in Hq as (boxes & Hbs & Hl & Hb & Hc & _). simpl.
    split; [reflexivity|]. split; [reflexivity|]. split; [exact Hl|].
    split; [exact Hc|]. split.
    + intros i b Hib. rewrite Hb in Hib. eapply generate_boxes_fresh; eauto.
    + exists id. split; [exact Hp|reflexivity].
Qed.

(** X20. The prompt of the feedback screen tells what the space bar does
    next.  On "Press ESC to close application!" space changes nothing; on
    "Press space bar for next trial!" space starts the next trial (trial
    index plus one, span back to 2, errors back to 0, trial-over flag
    cleared) and generates its first sequence; on "Press space bar to
    continue" space generates the next sequence of the running trial.  No
    other prompt is shown. *)
Theorem prompt_matches_space (s s' : Application.t) (screen : feedback_screen)
    (u : string) (rng : list Z) :
  Application.show_feedback s = Ok (s', screen) ->
  exists p,
    Application.participant s' = Some p /\
    (feedback screen = "Press ESC to close application!"%string \/
     feedback screen = "Press space bar for next trial!"%string \/
     feedback screen = "Press space bar to continue"%string) /\
    (feedback screen = "Press ESC to close application!"%string ->
     Application.handle_feedback_input (KEYDOWN K_SPACE u) s' rng = Ok (s', rng)) /\
    (feedback screen = "Press space bar for next trial!"%string ->
     Application.handle_feedback_input (KEYDOWN K_SPACE u) s' rng =
       Application.generate_sequence
         (Application.set_trial_over false
            (Application.set_participant (Some (next_trial p)) s')) rng) /\
    (feedback screen = "Press space bar to continue"%string ->
     Application.handle_feedback_input (KEYDOWN K_SPACE u) s' rng =
       Application.generate_sequence s' rng).
Proof.
  intros H. apply show_feedback_screen in H as (p & Hp & Hscreen).
  exists p. split; [exact Hp|].
  assert (Hfb : feedback screen =
                feedback (Application.feedback_texts s' p (message screen)))
    by (rewrite <- Hscreen; reflexivity).
  clear Hscreen. revert Hfb. generalize (feedback screen) as prompt.
  generalize (message screen) as msg. intros msg prompt Hfb.
  unfold Application.feedback_texts in Hfb.
  unfold Application.handle_feedback_input, rbind, rlift, rret,
    Application.the_participant.
  destruct (Application.trial_over s') eqn:Hover.
  - rewrite Hp. simpl obind.
    destruct (Participant.current_trial p <? Application.max_trials s') eqn:Hlt.
    + simpl in Hfb. subst prompt. simpl.
      split; [auto|]. split; [intros K; discriminate K|].
      split; [reflexivity|intros K; discriminate K].
    + destruct (Participant.current_trial p =? Application.max_trials s') eqn:Heq.
      * simpl in Hfb. subst prompt. simpl. rewrite Hover, Hp. simpl. rewrite Heq. simpl.
        split; [auto|]. split; [reflexivity|].
        split; intros K; discriminate K.
      * simpl in Hfb. subst prompt. simpl. rewrite Hover, Hp. simpl. rewrite Heq. simpl.
        split; [auto|]. split; [intros K; discriminate K|].
        split; [intros K; discriminate K|reflexivity].
  - simpl in Hfb. subst prompt. simpl. rewrite Hover. simpl.
    split; [auto|]. split; [intros K; discriminate K|].
    split; [intros K; discriminate K|reflexivity].
Qed.

End Prompts.

(** * Instances of the theorems on the example session *)

Lemma demo_app_started : started demo_app.
Proof. exists (800, 600), demo_params, 1%float, 20, 3. reflexivity. Qed.



Lemma update_statistics_2_3_3_witness :
  exists p',
    Participant.update_statistics
      (Participant.set_current_trial 3 (Participant.set_corsi_span 3
         {| Participant.participant_id := 5; Participant.current_trial := 1;
            Participant.corsi_spans := [2; 3]; Participant.corsi_span := 2;
            Participant.clicks := 0; Participant.errors := 2;
            Participant.mean_corsi_span := 2.5%float;
            Participant.std_corsi_span := 0.5%float |})) = Ok p' /\
    Participant.corsi_spans p' = [2; 3; 3] /\
    Participant.mean_corsi_span p' = 2.67%float /\
    Participant.std_corsi_span p' = 0.47%float /\
    Participant.std_corsi_span p' = Participant.std_of 2.67%float [2; 3; 3].
Proof.
  apply update_statistics_2_3_3. vm_compute. reflexivity.
Defined.

Lemma show_idempotent_witness :
  let q := Sequence.set_cursor 1 11.5%float (demo_sequence 3) in
  let nows := [at_time 11.6%float; at_time 12%float; at_time 12.5%float] in
  show_repeatedly 10%float 1 nows q = Ok ([ShowSequence; ShowSequence; ShowSequence], q).
Proof.
  cbv zeta.
  apply (show_idempotent_below_threshold 10%float 1
           (Sequence.set_cursor 1 11.5%float (demo_sequence 3))
           [at_time 11.6%float; at_time 12%float; at_time 12.5%float]).
  repeat (constructor 2; [right; split; [discriminate|vm_compute; reflexivity]|]).
  constructor 1.
Defined.

(** Scenarios A and B: "5" is accepted and "25" is rejected with
    [max_participants = 20]; the Arabic-Indic digit five followed by a
    no-break space (code points 1637 and 160) is accepted as 5, a
    superscript two (178) is rejected. *)
Lemma handle_id_input_witness :
  Application.handle_id_input (KEYDOWN K_RETURN "") (demo_typed "5") =
    (Application.set_state Instructions
       (Application.set_participant (Some (Participant.__init__ 5)) (demo_typed "5")), []) /\
  Application.handle_id_input (KEYDOWN K_RETURN "") (demo_typed "25") =
    (demo_typed "25", [Print_incorrect_id 20]) /\
  Application.handle_id_input (KEYDOWN K_RETURN "") (demo_preset [1637; 160]%N) =
    (Application.set_state Instructions
       (Application.set_participant (Some (Participant.__init__ 5))
          (demo_preset [1637; 160]%N)), []) /\
  Application.handle_id_input (KEYDOWN K_RETURN "") (demo_preset [178]%N) =
    (demo_preset [178]%N, [Print_incorrect_id 20]).
Proof.
  split; [|split; [|split]].
  - apply (proj1 (handle_id_input_return (demo_typed "5") "")).
    split; [reflexivity|simpl; lia].
  - apply (proj1 (proj2 (handle_id_input_return (demo_typed "25") ""))).
    intros id [Hp Hr]. vm_compute in Hp. injection Hp as <-. simpl in Hr. lia.
  - apply (proj1 (handle_id_input_return (demo_preset [1637; 160]%N) "")).
    split; [reflexivity|simpl; lia].
  - apply (proj1 (proj2 (handle_id_input_return (demo_preset [178]%N) ""))).
    intros id [Hp Hr]. vm_compute in Hp. discriminate Hp.
Defined.

Lemma won_witness :
  exists self' screen,
    Application.show_feedback (demo_scored 4 true) = Ok (self', screen) /\
    message screen = "Congratulations! You won!"%string /\
    Application.trial_over self' = true.
Proof.
  apply (proj1 (won_iff_correct_full_length (demo_scored 4 true)
                  (Participant.set_corsi_span 3 (Participant.__init__ 5))
                  eq_refl ltac:(simpl; lia))).
  split; reflexivity.
Defined.

Lemma click_noop_witness :
  Application.handle_user_input (MOUSEBUTTONUP (400, 300)) (demo_input 3)
    = Ok (demo_input 3).
Proof.
  apply (proj1 (click_on_no_unclicked_box_is_noop (demo_input 3) (400, 300))).
  intros [|[|[|[|j]]]] b Hb; try discriminate; injection Hb as <-; discriminate.
Defined.

(** C4 as stated fails: with the three boxes to tap in order, the first box
    is clicked (and marked), then the second (which unmarks the first), then
    the first again: that third click is scored as an error and ends the
    attempt, although the box had been marked clicked earlier in the
    attempt. *)
Lemma click_on_earlier_clicked_box_is_scored :
  exists s1 s2 s3 b p2 p3,
    Application.handle_user_input (MOUSEBUTTONUP (75, 75)) (demo_input 3) = Ok s1 /\
    Sequence.boxes (Application.sequence s1) !! 0%nat = Some b /\
    Box.clicked b = true /\ Box.collidepoint b (75, 75) = true /\
    Application.handle_user_input (MOUSEBUTTONUP (275, 75)) s1 = Ok s2 /\
    Application.state s2 = UserInput /\
    Application.participant s2 = Some p2 /\ Participant.errors p2 = 0 /\
    Application.handle_user_input (MOUSEBUTTONUP (75, 75)) s2 = Ok s3 /\
    s3 <> s2 /\
    Application.state s3 = Feedback /\
    Application.participant s3 = Some p3 /\ Participant.errors p3 = 1.
Proof.
  do 6 eexists.
  split; [vm_compute; reflexivity|].
  split; [reflexivity|]. split; [reflexivity|]. split; [reflexivity|].
  split; [vm_compute; reflexivity|].
  split; [reflexivity|]. split; [reflexivity|]. split; [reflexivity|].
  split; [vm_compute; reflexivity|].
  split; [discriminate|].
  split; [reflexivity|]. split; reflexivity.
Qed.


Lemma no_proceed_tick t : no_proceed (tick t).
Proof. constructor 1. Qed.

Lemma no_proceed_click pos t : no_proceed (click pos t).
Proof. constructor 2; [discriminate|constructor 1]. Qed.

(** Scenario D on the example session: two wrong first clicks at length 3
    end the trial with the span still 2. *)
Lemma two_failed_attempts_witness :
  exists s0 s1 s2 s3 p3 out0 out1 out2 out3 rng0 rng1 rng2 rng3,
    Application.start demo_login demo_app demo_rng = Ok ((s0, out0), rng0) /\
    Application.start demo_attempt1 s0 rng0 = Ok ((s1, out1), rng1) /\
    Application.frame demo_proceed s1 rng1 = Ok ((s2, out2), rng2) /\
    Application.start demo_attempt2 s2 rng2 = Ok ((s3, out3), rng3) /\
    Application.trial_over s3 = true /\
    Application.participant s3 = Some p3 /\
    Participant.corsi_span p3 = 2 /\
    2 <= Participant.errors p3 /\
    Sequence.length (Application.sequence s1) = Some 3 /\
    Sequence.length (Application.sequence s3) = Some 3.
Proof.
  eassert (H0 : Application.start demo_login demo_app demo_rng = Ok ((_, _), _))
    by (vm_compute; reflexivity).
  lazymatch type of H0 with
  | _ = Ok ((?s0, _), ?rng0) =>
      eassert (H1 : Application.start demo_attempt1 s0 rng0 = Ok ((_, _), _))
        by (vm_compute; reflexivity)
  end.
  lazymatch type of H1 with
  | _ = Ok ((?s1, _), ?rng1) =>
      eassert (H2 : Application.frame demo_proceed s1 rng1 = Ok ((_, _), _))
        by (vm_compute; reflexivity)
  end.
  lazymatch type of H2 with
  | _ = Ok ((?s2, _), ?rng2) =>
      eassert (H3 : Application.start demo_attempt2 s2 rng2 = Ok ((_, _), _))
        by (vm_compute; reflexivity)
  end.
  assert (Hq1 : Forall no_proceed demo_attempt1).
  { repeat (constructor 2;
            [first [apply no_proceed_tick|apply no_proceed_click]|]). constructor 1. }
  assert (Hq2 : Forall no_proceed demo_attempt2).
  { repeat (constructor 2;
            [first [apply no_proceed_tick|apply no_proceed_click]|]). constructor 1. }
  lazymatch type of H1 with
  | Application.start _ ?s0 ?rng0 = Ok ((?s1, ?o1), ?rng1) =>
  lazymatch type of H2 with
  | _ = Ok ((?s2, ?o2), ?rng2) =>
  lazymatch type of H3 with
  | _ = Ok ((?s3, ?o3), ?rng3) =>
      destruct (two_failed_attempts_end_trial s0 s1 s2 s3 (Participant.__init__ 5)
                  demo_attempt1 demo_attempt2 demo_proceed " "%string
                  rng0 rng1 rng2 rng3 o1 o2 o3
                  eq_refl (or_introl eq_refl) eq_refl ltac:(simpl; lia) eq_refl
                  Hq1 H1 eq_refl eq_refl eq_refl eq_refl H2 Hq2 H3 eq_refl eq_refl)
        as (Hover & p3 & Hp3 & Hspan & Herr & Hl1 & Hl3)
  end end end.
  do 4 eexists. exists p3. do 8 eexists.
  split; [exact H0|]. split; [exact H1|]. split; [exact H2|]. split; [exact H3|].
  repeat split; assumption.
Defined.

Lemma demo_app_reachable : reachable demo_app.
Proof. apply reach_start, demo_app_started. Qed.

(** After the first wrong click of the example session exactly one box is
    marked. *)
Lemma at_most_one_box_clicked_witness :
  exists s out rng,
    Application.start (demo_login ++ demo_attempt1) demo_app demo_rng
      = Ok ((s, out), rng) /\
    clicked_count (Sequence.boxes (Application.sequence s)) = 1%nat /\
    at_most_one_clicked (Sequence.boxes (Application.sequence s)).
Proof.
  eassert (H0 : Application.start (demo_login ++ demo_attempt1) demo_app demo_rng
                = Ok ((_, _), _)) by (vm_compute; reflexivity).
  do 3 eexists. split; [exact H0|]. split; [reflexivity|].
  exact (proj1 (at_most_one_box_clicked _
                  (start_reachable _ _ _ _ _ _ demo_app_reachable H0))).
Defined.

(** The second wrong click of the example session ends trial 1: the span 2
    enters the history once, however often the feedback is drawn. *)
Lemma span_appended_once_witness :
  exists s0 out0 rng0 s out rng s1 p1,
    Application.start
      (demo_login ++ demo_attempt1 ++ [demo_proceed] ++ demo_presentation2)
      demo_app demo_rng = Ok ((s0, out0), rng0) /\
    Application.handle_events [MOUSEBUTTONUP (275, 75)] 25%float s0 rng0
      = Ok ((s, out), rng) /\
    show_feedback_times 3 s = Ok s1 /\
    Application.participant s1 = Some p1 /\
    Participant.corsi_spans p1 = [2] /\
    Z.of_nat (List.length (Participant.corsi_spans p1)) = Participant.current_trial p1.
Proof.
  eassert (H0 : Application.start
                  (demo_login ++ demo_attempt1 ++ [demo_proceed] ++ demo_presentation2)
                  demo_app demo_rng = Ok ((_, _), _)) by (vm_compute; reflexivity).
  lazymatch type of H0 with
  | _ = Ok ((?s0, _), ?rng0) =>
      eassert (H1 : Application.handle_events [MOUSEBUTTONUP (275, 75)] 25%float s0 rng0
                    = Ok ((_, _), _)) by (vm_compute; reflexivity)
  end.
  lazymatch type of H1 with
  | _ = Ok ((?s, _), _) =>
      eassert (H2 : Application.show_feedback s = Ok (_, _)) by (vm_compute; reflexivity);
      lazymatch type of H2 with
      | _ = Ok (?s1, ?screen) =>
          destruct (span_appended_once s s1
                      (Participant.set_errors 2 (Participant.__init__ 5)) screen 2
                      (handle_events_reachable _ _ _ _ _ _ _
                         (start_reachable _ _ _ _ _ _ demo_app_reachable H0) H1)
                      eq_refl eq_refl H2 eq_refl)
            as (Htimes & p1 & Hp1 & Hspans & Hlen)
      end
  end.
  do 7 eexists. exists p1.
  split; [exact H0|]. split; [exact H1|]. split; [exact Htimes|].
  split; [exact Hp1|]. split; [|exact Hlen].
  injection Hp1 as <-. exact Hspans.
Defined.


(** ** Instances on the states of the example session *)

Lemma demo_app1_reachable : reachable demo_app1.
Proof. apply reach_start. exists (800, 600), demo_params, 1%float, 20, 1. reflexivity. Qed.

Lemma demo_presenting_reachable : reachable demo_presenting.
Proof.
  eapply (start_reachable demo_login demo_app demo_rng); [exact demo_app_reachable|].
  vm_compute. reflexivity.
Qed.

Lemma demo_collecting_reachable : reachable demo_collecting.
Proof.
  eapply (start_reachable (demo_login ++ demo_presentation1) demo_app demo_rng);
    [exact demo_app_reachable|].
  vm_compute. reflexivity.
Qed.

Lemma demo_finished_reachable : reachable demo_finished.
Proof.
  eapply (start_reachable
            (demo_login ++ demo_attempt1 ++ [demo_proceed] ++ demo_attempt2)
            demo_app1 demo_rng); [exact demo_app1_reachable|].
  vm_compute. reflexivity.
Qed.

(** Box [j] of the example layout is the only one under its own center. *)
Lemma demo_hits_only (j : nat) (b : Box.t) :
  demo_boxes !! j = Some b -> hits_only (Box.pos b) j demo_boxes.
Proof.
  intros Hb. split.
  - exists b. split; [exact Hb|].
    destruct j as [|[|[|[|j]]]]; simpl in Hb; try discriminate;
      injection Hb as <-; reflexivity.
  - intros i c Hc Hcol.
    destruct j as [|[|[|[|j]]]]; simpl in Hb; try discriminate; injection Hb as <-;
      destruct i as [|[|[|[|i]]]]; simpl in Hc; try discriminate; injection Hc as <-;
      first [reflexivity|vm_compute in Hcol; discriminate].
Qed.

Lemma demo_taps_follow : taps_follow demo_taps 0 demo_boxes.
Proof.
  intros i pos Hpos.
  destruct i as [|[|[|i]]]; simpl in Hpos; try discriminate; injection Hpos as <-.
  - exact (demo_hits_only 0 _ eq_refl).
  - exact (demo_hits_only 1 _ eq_refl).
  - exact (demo_hits_only 2 _ eq_refl).
Qed.

Lemma demo_boxes_none_lit : none_lit demo_boxes.
Proof.
  intros i b Hb.
  destruct i as [|[|[|[|i]]]]; simpl in Hb; try discriminate; injection Hb as <-;
    reflexivity.
Qed.

Lemma participant_id_in_range_witness :
  exists p, Application.participant demo_collecting = Some p /\
            1 <= Participant.participant_id p <= Application.max_participants demo_collecting.
Proof.
  eexists. split; [reflexivity|].
  exact (participant_id_in_range demo_collecting _ demo_collecting_reachable eq_refl).
Defined.

Lemma recorded_spans_bounds_witness :
  exists p, Application.participant demo_finished = Some p /\
            2 <= Participant.corsi_span p /\
            Forall (fun x => 2 <= x) (Participant.corsi_spans p) /\
            Participant.corsi_span p <= 4 /\
            Forall (fun x => x <= 4) (Participant.corsi_spans p).
Proof.
  eexists. split; [reflexivity|].
  destruct (recorded_spans_bounds demo_finished _ demo_finished_reachable eq_refl)
    as (H1 & H2 & H3).
  split; [exact H1|]. split; [exact H2|].
  apply H3. split; simpl; lia.
Defined.

Lemma trial_index_bounds_witness :
  exists p, Application.participant demo_finished = Some p /\
            1 <= Participant.current_trial p <= 1 /\
            Z.of_nat (List.length (Participant.corsi_spans p)) <= Participant.current_trial p.
Proof.
  eexists. split; [reflexivity|].
  exact (trial_index_bounds demo_finished _ demo_finished_reachable eq_refl).
Defined.

Lemma statistics_match_history_witness :
  exists p, Application.participant demo_finished = Some p /\ stats_consistent p.
Proof.
  eexists. split; [reflexivity|].
  exact (statistics_match_history demo_finished _ demo_finished_reachable eq_refl).
Defined.

Lemma box_colors_witness :
  exists b, Sequence.boxes (Application.sequence demo_collecting) !! 0%nat = Some b /\
            (Box.get_color b = Box.YELLOW ->
             Application.state demo_collecting = ShowSequence /\
             Z.of_nat 0 =
               Sequence.highlight_box_id (Application.sequence demo_collecting) - 1) /\
            (Application.state demo_collecting = UserInput \/
             Application.state demo_collecting = Feedback ->
             Box.clicked b = false -> Box.get_color b = Box.BLUE).
Proof.
  eexists. split; [reflexivity|].
  apply (box_colors demo_collecting 0 _ demo_collecting_reachable).
  - discriminate.
  - discriminate.
  - reflexivity.
Defined.

Lemma handle_user_input_never_fails_witness :
  exists s', Application.handle_user_input (MOUSEBUTTONUP (275, 75)) demo_collecting = Ok s'.
Proof.
  exact (handle_user_input_never_fails demo_collecting (MOUSEBUTTONUP (275, 75))
           demo_collecting_reachable eq_refl).
Defined.

Lemma quiet_frame_never_fails_witness :
  exists s' out,
    Application.frame (click (275, 75) 17%float) demo_collecting [] = Ok ((s', out), []).
Proof.
  apply (quiet_frame_never_fails demo_collecting (click (275, 75) 17%float) []
           demo_collecting_reachable).
  - split; simpl; lia.
  - constructor 2; [|constructor 1]. split; [reflexivity|]. intros u. discriminate.
Defined.

Lemma quit_ends_the_run_witness :
  Application.handle_events
    ([MOUSEBUTTONUP (275, 75)] ++ QUIT :: [KEYDOWN K_SPACE " "]) 17%float
    demo_collecting demo_rng
  = Raise (SystemExit
             (Some (5, [], float_of_Z 0, float_of_Z 0))).
Proof.
  eassert (H : Application.handle_events [MOUSEBUTTONUP (275, 75)] 17%float
                 demo_collecting demo_rng = Ok ((_, _), _))
    by (vm_compute; reflexivity).
  exact (proj2 (quit_ends_the_run [MOUSEBUTTONUP (275, 75)] [KEYDOWN K_SPACE " "]
                  QUIT 17%float demo_collecting demo_rng eq_refl) _ _ _ H).
Defined.

Lemma participant_over_a_run_witness :
  exists p p' more,
    Application.participant demo_presenting = Some p /\
    Application.participant
      (demo_run demo_presenting
         (demo_attempt1 ++ [demo_proceed] ++ demo_attempt2)) = Some p' /\
    Participant.participant_id p' = Participant.participant_id p /\
    Participant.corsi_spans p' = Participant.corsi_spans p ++ more /\
    Participant.current_trial p <= Participant.current_trial p'.
Proof.
  eassert (H : Application.start (demo_attempt1 ++ [demo_proceed] ++ demo_attempt2)
                 demo_presenting demo_rng = Ok ((_, _), _))
    by (vm_compute; reflexivity).
  destruct (participant_over_a_run demo_presenting _ _ demo_presenting_reachable
              (start_steps _ _ _ _ _ _ H) eq_refl)
    as (p' & more & Hp' & H1 & H2 & H3).
  eexists _, p', more. split; [reflexivity|]. split; [exact Hp'|].
  split; [exact H1|]. split; [exact H2|exact H3].
Defined.

Lemma last_trial_over_is_final_witness :
  exists s' out rng,
    Application.handle_event (KEYDOWN K_SPACE " ") 30%float demo_finished demo_rng
      = Ok ((s', out), rng) /\
    s' = demo_finished.
Proof.
  eassert (H : Application.handle_event (KEYDOWN K_SPACE " ") 30%float demo_finished
                 demo_rng = Ok ((_, _), _)) by (vm_compute; reflexivity).
  do 3 eexists. split; [exact H|].
  exact (last_trial_over_is_final demo_finished _ _ demo_finished_reachable
           eq_refl eq_refl eq_refl (step_event _ _ _ _ _ _ _ H)).
Defined.

Lemma click_on_one_box_witness :
  exists s',
    Application.handle_user_input (MOUSEBUTTONUP (275, 75)) demo_collecting = Ok s' /\
    Application.state s' = Feedback /\
    Sequence.correct (Application.sequence s') = false /\
    option_map Participant.errors (Application.participant s') = Some 1.
Proof.
  eexists. split.
  - apply (click_on_one_box demo_collecting _ (275, 75) 1 3 eq_refl eq_refl).
    + simpl. lia.
    + exact (demo_hits_only 1 _ eq_refl).
    + intros b Hb. simpl in Hb. injection Hb as <-. reflexivity.
  - repeat split.
Defined.

Lemma tapping_in_order_succeeds_witness :
  exists s' p' screen,
    Application.start
      [click (75, 75) 17%float; click (275, 75) 17.5%float; click (75, 275) 18%float]
      demo_collecting []
      = Ok ((s', [Draw_feedback screen]), []) /\
    Application.state s' = Feedback /\
    Application.participant s' = Some p' /\
    Participant.corsi_span p' = 3 /\
    Participant.errors p' = 0 /\
    (message screen = "Great job!"%string \/
     message screen = "Congratulations! You won!"%string).
Proof.
  eapply (tapping_in_order_succeeds
            [click (75, 75) 17%float; click (275, 75) 17.5%float; click (75, 275) 18%float]
            demo_taps) with (k := 0%nat).
  - repeat (constructor; [reflexivity|]). constructor.
  - exact demo_collecting_reachable.
  - reflexivity.
  - reflexivity.
  - reflexivity.
  - reflexivity.
  - reflexivity.
  - discriminate.
  - exact demo_taps_follow.
  - intros b Hb. simpl in Hb. injection Hb as <-. reflexivity.
  - repeat (constructor 2; [split; vm_compute; reflexivity|]). constructor 1.
Defined.

Lemma presentation_ignores_input_witness :
  Application.handle_events [MOUSEBUTTONUP (75, 75); KEYDOWN K_SPACE " "] 10.5%float
    demo_presenting demo_rng = Ok ((demo_presenting, []), demo_rng).
Proof.
  apply (presentation_ignores_input demo_presenting
           [MOUSEBUTTONUP (75, 75); KEYDOWN K_SPACE " "] 10.5%float demo_rng eq_refl).
  repeat (constructor 2; [reflexivity|]). constructor 1.
Defined.

Lemma show_advances_witness :
  exists q',
    Sequence.show 10%float 1 (at_time 13%float)
      (Sequence.set_cursor 1 11.5%float (demo_sequence 3)) = Ok (ShowSequence, q') /\
    Sequence.highlight_box_id q' = 2 /\
    option_map Box.highlight (Sequence.boxes q' !! 1%nat) = Some true.
Proof.
  destruct (show_advances 10%float 1 (at_time 13%float)
              (Sequence.set_cursor 1 11.5%float (demo_sequence 3)) 3)
    as (q' & H1 & H2 & _ & Hlen & Hb).
  - vm_compute. reflexivity.
  - intros _. vm_compute. reflexivity.
  - reflexivity.
  - simpl. lia.
  - intros _. simpl. lia.
  - apply none_lit_is_lit. exact demo_boxes_none_lit.
  - exists q'. split; [exact H1|]. split; [exact H2|].
    destruct (Sequence.boxes q' !! 1%nat) as [b'|] eqn:E.
    + simpl. f_equal. exact (proj1 (Hb 1%nat b' E)).
    + apply lookup_ge_None_1 in E. rewrite Hlen in E. simpl in E. lia.
Defined.

Lemma generate_boxes_without_room_witness :
  Sequence.generate_boxes (Sequence.__init__ (100, 600) demo_params) demo_rng
    = Raise ValueError.
Proof.
  apply (proj1 (generate_boxes_without_room
                  (Sequence.__init__ (100, 600) demo_params) demo_rng
                  ltac:(simpl; lia))).
  simpl. lia.
Defined.

Lemma generate_boxes_never_returns_witness :
  Sequence.generate_boxes (Sequence.__init__ (150, 150) demo_params) demo_rng = Hang.
Proof.
  apply (generate_boxes_never_returns (Sequence.__init__ (150, 150) demo_params) demo_rng).
  - simpl. lia.
  - simpl. lia.
  - reflexivity.
  - reflexivity.
Defined.

Lemma demo_instructed_reachable : reachable demo_instructed.
Proof.
  eapply (start_reachable (firstn 2 demo_login) demo_app demo_rng);
    [exact demo_app_reachable|].
  vm_compute. reflexivity.
Qed.

Lemma generated_boxes_do_not_overlap_witness :
  (forall i b, demo_boxes !! i = Some b -> fresh_box demo_params b) /\
  (forall pos i j a b,
     demo_boxes !! i = Some a -> demo_boxes !! j = Some b ->
     Box.collidepoint a pos = true -> Box.collidepoint b pos = true -> i = j).
Proof.
  apply (generated_boxes_do_not_overlap (Sequence.__init__ (800, 600) demo_params)
           demo_rng (skipn 10 demo_rng) demo_boxes).
  - vm_compute. reflexivity.
  - simpl. lia.
  - simpl. lia.
Defined.

Lemma first_sequence_witness :
  exists s' rng',
    Application.handle_instructions_input (KEYDOWN K_SPACE " ") 10%float
      demo_instructed demo_rng = Ok (s', rng') /\
    Application.state s' = ShowSequence /\
    Application.trial_start s' = 10%float /\
    Sequence.length (Application.sequence s') = Some 3.
Proof.
  eassert (H : Application.handle_instructions_input (KEYDOWN K_SPACE " ") 10%float
                 demo_instructed demo_rng = Ok (_, _)) by (vm_compute; reflexivity).
  destruct (proj2 (first_sequence demo_instructed 10%float demo_rng
                     demo_instructed_reachable eq_refl) _ _ _ H)
    as (H1 & H2 & H3 & _).
  do 2 eexists. split; [exact H|]. split; [exact H1|]. split; [exact H2|exact H3].
Defined.

Lemma prompt_matches_space_witness :
  exists screen,
    Application.show_feedback demo_finished = Ok (demo_finished, screen) /\
    feedback screen = "Press ESC to close application!"%string /\
    Application.handle_feedback_input (KEYDOWN K_SPACE " ") demo_finished demo_rng
      = Ok (demo_finished, demo_rng).
Proof.
  eassert (H : Application.show_feedback demo_finished = Ok (demo_finished, _))
    by (vm_compute; reflexivity).
  destruct (prompt_matches_space demo_finished demo_finished _ " "%string demo_rng H)
    as (p & _ & _ & Hesc & _).
  eexists. split; [exact H|]. split; [reflexivity|].
  apply Hesc. reflexivity.
Defined.

(** ** Runs in which space arrives with the scoring click *)

(** C1. Two consecutive failed attempts at length 3 that do not end the
    trial.  Participant 5 clicks a wrong box and presses space before the
    next pass of the main loop, twice: each click is scored (the error
    counter goes to 1, then to 2), each press of space generates the next
    sequence of length 3 at once, [show_feedback] never runs, and after the
    second failure [trial_over] is still unset and a third sequence is
    being presented. *)
Theorem two_failures_with_space_in_the_batch :
  exists s1 s2 p1 p2 rng1 rng2,
    Application.start
      (demo_login ++ demo_presentation1 ++ [click_then_space (275, 75) 17%float])
      demo_app race_rng = Ok ((s1, []), rng1) /\
    Application.participant s1 = Some p1 /\ Participant.errors p1 = 1 /\
    Sequence.length (Application.sequence s1) = Some 3 /\
    Application.start
      (demo_presentation2 ++ [click_then_space (275, 75) 25%float])
      s1 rng1 = Ok ((s2, []), rng2) /\
    Application.participant s2 = Some p2 /\ Participant.errors p2 = 2 /\
    Participant.corsi_span p2 = 2 /\
    Sequence.length (Application.sequence s2) = Some 3 /\
    Application.state s2 = ShowSequence /\
    Application.trial_over s2 = false.
Proof.
  eassert (H1 : Application.start
                  (demo_login ++ demo_presentation1 ++
                   [click_then_space (275, 75) 17%float])
                  demo_app race_rng = Ok ((_, []), _)) by (vm_compute; reflexivity).
  lazymatch type of H1 with
  | _ = Ok ((?s1, _), ?rng1) =>
      eassert (H2 : Application.start
                      (demo_presentation2 ++ [click_then_space (275, 75) 25%float])
                      s1 rng1 = Ok ((_, []), _)) by (vm_compute; reflexivity)
  end.
  do 6 eexists. split; [exact H1|].
  split; [reflexivity|]. split; [reflexivity|]. split; [reflexivity|].
  split; [exact H2|]. repeat split.
Qed.

(** C3. A sequence of full length that is reproduced correctly without the
    trial being won.  With four boxes, participant 5 has confirmed span 3
    and taps the first three boxes of the sequence of length 4; the last
    tap arrives together with a press of space.  The tap completes the
    sequence (it is marked correct, the state becomes [Feedback]), the
    press of space generates the next sequence in the same pass, and
    [show_feedback] does not run: no message is drawn, [trial_over] stays
    unset and the span stays 3. *)
Theorem full_length_with_space_in_the_batch :
  exists s0 out0 rng0 scored s p rng,
    Application.start
      (demo_login ++ demo_presentation1 ++ demo_success ++
       [click (75, 75) 26%float; click (275, 75) 26.5%float; click (75, 275) 27%float])
      demo_app race_rng = Ok ((s0, out0), rng0) /\
    Application.state s0 = UserInput /\
    Sequence.length (Application.sequence s0) =
      Some (n_boxes (Sequence.box_parameters (Application.sequence s0))) /\
    Application.handle_user_input (MOUSEBUTTONUP (275, 275)) s0 = Ok scored /\
    Application.state scored = Feedback /\
    Sequence.correct (Application.sequence scored) = true /\
    Application.frame (click_then_space (275, 275) 27.5%float) s0 rng0
      = Ok ((s, []), rng) /\
    Application.trial_over s = false /\
    Application.state s = ShowSequence /\
    Application.participant s = Some p /\ Participant.corsi_span p = 3.
Proof.
  eassert (H0 : Application.start
                  (demo_login ++ demo_presentation1 ++ demo_success ++
                   [click (75, 75) 26%float; click (275, 75) 26.5%float;
                    click (75, 275) 27%float])
                  demo_app race_rng = Ok ((_, _), _)) by (vm_compute; reflexivity).
  lazymatch type of H0 with
  | _ = Ok ((?s0, _), ?rng0) =>
      eassert (H1 : Application.handle_user_input (MOUSEBUTTONUP (275, 275)) s0 = Ok _)
        by (vm_compute; reflexivity);
      eassert (H2 : Application.frame (click_then_space (275, 275) 27.5%float) s0 rng0
                    = Ok ((_, []), _)) by (vm_compute; reflexivity)
  end.
  do 7 eexists. split; [exact H0|].
  split; [reflexivity|]. split; [reflexivity|].
  split; [exact H1|]. split; [reflexivity|]. split; [reflexivity|].
  split; [exact H2|]. repeat split.
Qed.
